(** * ai-workflow-engine: the graph interpreter, its condition evaluator,
      the tool registry and graph construction, embedded in Rocq.

    Sources: [app/engine/graph.py], [app/engine/registry.py],
    [app/storage.py] and [app/main.py]. *)

From Stdlib Require Import ZArith String List Bool Lia DecimalString.
From stdpp Require Import base gmap strings list fin_maps.

Open Scope string_scope.
Open Scope Z_scope.

(** ** Python values

    The fragment of [Any] that states, condition literals and edge
    specifications range over: [None], [bool], [int], [str] and [list].
    Floats and nested dicts are outside the modelled fragment. *)

#[warnings="-register-all"] Inductive value : Type :=
| VNone
| VBool (b : bool)
| VInt (z : Z)
| VStr (s : string)
| VList (l : list value).

(** Induction through the list argument of [VList]. *)
Fixpoint value_rect' (P : value -> Type) (Q : list value -> Type)
    (HNone : P VNone) (HBool : forall b, P (VBool b))
    (HInt : forall z, P (VInt z)) (HStr : forall s, P (VStr s))
    (HList : forall l, Q l -> P (VList l))
    (Hnil : Q []) (Hcons : forall v l, P v -> Q l -> Q (v :: l))
    (v : value) : P v :=
  match v with
  | VNone => HNone
  | VBool b => HBool b
  | VInt z => HInt z
  | VStr s => HStr s
  | VList l =>
      HList l ((fix go (l : list value) : Q l :=
                  match l with
                  | [] => Hnil
                  | x :: l' =>
                      Hcons x l'
                        (value_rect' P Q HNone HBool HInt HStr HList Hnil Hcons x)
                        (go l')
                  end) l)
  end.

(** [bool] is a subclass of [int]: [True] counts as 1, [False] as 0. *)
Definition as_num (v : value) : option Z :=
  match v with
  | VBool b => Some (if b then 1 else 0)
  | VInt z => Some z
  | _ => None
  end.

(** [a == b] *)
Fixpoint py_eq (a b : value) : bool :=
  match a, b with
  | VNone, VNone => true
  | VStr s, VStr t => String.eqb s t
  | VList l, VList m =>
      (fix go (l m : list value) : bool :=
         match l, m with
         | [], [] => true
         | x :: l', y :: m' => py_eq x y && go l' m'
         | _, _ => false
         end) l m
  | _, _ =>
      match as_num a, as_num b with
      | Some x, Some y => Z.eqb x y
      | _, _ => false
      end
  end.

(** [a is None] *)
Definition is_None (v : value) : bool :=
  match v with VNone => true | _ => false end.

(** The four ordering operators. *)
Inductive ordop := Gt | Lt_ | Ge | Le.

Definition ordop_symbol (o : ordop) : string :=
  match o with Gt => ">" | Lt_ => "<" | Ge => ">=" | Le => "<=" end.

Definition ordop_of_comparison (o : ordop) (c : comparison) : bool :=
  match o, c with
  | Gt, Datatypes.Gt => true
  | Lt_, Datatypes.Lt => true
  | Ge, (Datatypes.Gt | Datatypes.Eq) => true
  | Le, (Datatypes.Lt | Datatypes.Eq) => true
  | _, _ => false
  end.

(** [a > b], [a < b], [a >= b], [a <= b]; [None] stands for the
    [TypeError] that Python raises when the operands have no order
    ("'>=' not supported between instances of 'str' and 'int'").
    Numbers compare by value, strings lexicographically, lists by their
    first differing position (or by length when there is none). *)
Fixpoint py_order (o : ordop) (a b : value) : option bool :=
  match a, b with
  | VStr s, VStr t => Some (ordop_of_comparison o (String.compare s t))
  | VList l, VList m =>
      (fix go (l m : list value) : option bool :=
         match l, m with
         | x :: l', y :: m' => if py_eq x y then go l' m' else py_order o x y
         | [], [] => Some (ordop_of_comparison o Datatypes.Eq)
         | [], _ :: _ => Some (ordop_of_comparison o Datatypes.Lt)
         | _ :: _, [] => Some (ordop_of_comparison o Datatypes.Gt)
         end) l m
  | _, _ =>
      match as_num a, as_num b with
      | Some x, Some y => Some (ordop_of_comparison o (Z.compare x y))
      | _, _ => None
      end
  end.

(** ** Exceptions

    The text of a message is kept as a term whose arguments are the
    holes of the f-string. *)

Inductive message : Type :=
| MissingKey                                  (* "Conditional spec is missing 'key'" *)
| UnsupportedOperator (op : value)            (* "Unsupported operator in condition: {op}" *)
| NotSupportedBetween (o : ordop) (l r : value) (* "'{o}' not supported between instances of ..." *)
| Unhashable (k : value)                      (* "unhashable type: 'list'" *)
| MustReturnDict (fn_name : string)           (* "Node function {name} must return a dict, got ..." *)
| NodeNotFound (current : value)              (* "Node '{current}' not found in graph" *)
| InvalidEdge (current : string)              (* "Invalid edge specification for node '{current}'" *)
| MissingDictKey (k : string)                 (* KeyError: 'true' *)
| ToolNotRegistered (name : string)           (* "Tool '{name}' is not registered" *)
| GraphNotFound (graph_id : string)           (* "Graph '{graph_id}' not found" *)
| ToolForNodeNotRegistered (tool_name name : string)
                                              (* "Tool '{tool_name}' for node '{name}' is not registered." *)
| NormalEdgeNeedsTarget (source : string)     (* "Normal edge from '{source}' must have 'target'." *)
| ConditionalEdgeInvalid (source : string)    (* "Conditional edge from '{source}' is invalid." *)
| ConditionalEdgeNeedsTarget (source : string)
                                              (* "Conditional edge from '{source}' must have at least one target." *)
| Text (s : string).

Inductive exn : Type :=
| ValueError (m : message)
| TypeError (m : message)
| KeyError (m : message)
| HTTPException (status_code : Z) (detail : message)
| OtherException (name : string) (m : message).

(** Results of fallible code: [inl e] is "raise e". *)
Definition result (A : Type) : Type := exn + A.

Definition bind {A B : Type} (r : result A) (k : A -> result B) : result B :=
  match r with
  | inl e => inl e
  | inr a => k a
  end.

Notation "x <- r ;; k" := (bind r (fun x => k))
  (at level 100, r at next level, right associativity).
Abbreviation raise e := (inl e) (only parsing).
Abbreviation ret a := (inr a) (only parsing).

(** ** app/engine/graph.py *)

(** [d.get(k)], with [None] for an absent key. *)
Definition dict_get (d : gmap string value) (k : string) : value :=
  default VNone (d !! k).

(** [d.get(k, dflt)] *)
Definition dict_get_default (d : gmap string value) (k : string) (dflt : value) : value :=
  default dflt (d !! k).

(** [d[k]] *)
Definition dict_item (d : gmap string value) (k : string) : result value :=
  match d !! k with
  | Some v => ret v
  | None => raise (KeyError (MissingDictKey k))
  end.

(** [state.get(key)] where [key] is any value: the keys of a state are
    strings, so a hashable key of another type is absent, and a list is
    not hashable. *)
Definition state_get (state : gmap string value) (key : value) : result value :=
  match key with
  | VStr k => ret (dict_get state k)
  | VList _ => raise (TypeError (Unhashable key))
  | _ => ret VNone
  end.

(** An ordering comparison as an expression that may raise. *)
Definition compare_values (o : ordop) (left value : value) : result bool :=
  match py_order o left value with
  | Some b => ret b
  | None => raise (TypeError (NotSupportedBetween o left value))
  end.

Definition _evaluate_condition (state spec : gmap string value) : result bool :=
  let key := dict_get spec "key" in
  let op := dict_get_default spec "op" (VStr "==") in
  let value := dict_get spec "value" in
  if is_None key then raise (ValueError MissingKey) else
  left <- state_get state key ;;
  if py_eq op (VStr "==") then ret (py_eq left value) else
  if py_eq op (VStr "!=") then ret (negb (py_eq left value)) else
  if py_eq op (VStr ">") then compare_values Gt left value else
  if py_eq op (VStr "<") then compare_values Lt_ left value else
  if py_eq op (VStr ">=") then compare_values Ge left value else
  if py_eq op (VStr "<=") then compare_values Le left value else
  raise (ValueError (UnsupportedOperator op)).

(** [Dict[str, Any]] *)
Abbreviation State := (gmap string value).

(** What calling (and, for a coroutine, awaiting) a node function gives:
    a dict, some other object, or an exception. *)
Inductive py_return : Type :=
| ReturnDict (s : State)
| ReturnOther (v : value)
| Raises (e : exn).

(** A node function: a callable with its [__name__]. *)
Record NodeFn : Type := {
  fn_name : string;
  call : State -> py_return
}.

(** The values of [Graph.edges]: a node name, a conditional spec, or
    [None] ("explicit end if None"). *)
Inductive Edge : Type :=
| EdgeStr (target : string)
| EdgeDict (spec : gmap string value)
| EdgeNone.

Record Graph : Type := {
  graph_id : string;
  nodes : gmap string NodeFn;
  edges : gmap string Edge;
  start_node : string;
  max_steps : Z
}.

Record RunResult : Type := {
  final_state : State;
  log : list string
}.

Definition _call_node (node_fn : NodeFn) (state : State) : result State :=
  match call node_fn state with
  | ReturnDict s => ret s
  | ReturnOther _ => raise (TypeError (MustReturnDict (fn_name node_fn)))
  | Raises e => raise e
  end.

(** The local variables of [run_graph], with two ghost fields that the
    code does not have: [l_calls] counts the calls of node functions and
    [l_hist] records, for each call that returned a dict, the node that
    ran and the state it returned. *)
Record locals : Type := {
  l_state : State;
  l_log : list string;
  l_current : value;
  l_steps : Z;
  l_calls : nat;
  l_hist : list (string * State)
}.

(** [current not in graph.nodes] followed by [graph.nodes[current]]. *)
Definition lookup_node (graph : Graph) (current : value) : result (string * NodeFn) :=
  match current with
  | VStr name =>
      match nodes graph !! name with
      | Some node_fn => ret (name, node_fn)
      | None => raise (ValueError (NodeNotFound current))
      end
  | VList _ => raise (TypeError (Unhashable current))
  | _ => raise (ValueError (NodeNotFound current))
  end.

(** How one pass through the body of the [while] ends. *)
Inductive iteration : Type :=
| Continue (l : locals)
| Break (l : locals)
| Raise (e : exn) (l : locals).

Definition loop_body (graph : Graph) (l : locals) : iteration :=
  match lookup_node graph (l_current l) with
  | inl e => Raise e l
  | inr (current, node_fn) =>
      let called :=
        {| l_state := l_state l; l_log := l_log l; l_current := l_current l;
           l_steps := l_steps l; l_calls := S (l_calls l); l_hist := l_hist l |} in
      match _call_node node_fn (l_state l) with
      | inl e => Raise e called
      | inr state =>
          let next (target : value) (steps : Z) :=
            {| l_state := state; l_log := (l_log l ++ [current])%list;
               l_current := target; l_steps := steps;
               l_calls := S (l_calls l);
               l_hist := (l_hist l ++ [(current, state)])%list |} in
          match edges graph !! current with
          | None | Some EdgeNone => Break (next (l_current l) (l_steps l))
          | Some (EdgeStr target) => Continue (next (VStr target) (l_steps l + 1))
          | Some (EdgeDict edge) =>
              if py_eq (dict_get edge "type") (VStr "conditional") then
                match _evaluate_condition state edge with
                | inl e => Raise e (next (l_current l) (l_steps l))
                | inr cond_result =>
                    match dict_item edge (if cond_result then "true" else "false") with
                    | inl e => Raise e (next (l_current l) (l_steps l))
                    | inr target => Continue (next target (l_steps l + 1))
                    end
                end
              else Raise (ValueError (InvalidEdge current)) (next (l_current l) (l_steps l))
          end
      end
  end.

(** How the [while] loop ends: its guard became false, a [break] was
    taken, or an exception left it. *)
Inductive outcome : Type :=
| Exited (l : locals)
| Broke (l : locals)
| Raised (e : exn) (l : locals).

(** [while current is not None and steps < graph.max_steps: ...]; the
    fuel bounds the number of passes, and [None] means that it ran out. *)
Fixpoint while_loop (fuel : nat) (graph : Graph) (l : locals) : option outcome :=
  if negb (is_None (l_current l)) && (l_steps l <? max_steps graph) then
    match fuel with
    | O => None
    | S fuel' =>
        match loop_body graph l with
        | Continue l' => while_loop fuel' graph l'
        | Break l' => Some (Broke l')
        | Raise e l' => Some (Raised e l')
        end
    end
  else Some (Exited l).

(** [str(n)] for an integer. *)
Definition str_of_int (n : Z) : string := NilZero.string_of_int (Z.to_int n).

Definition warning_text (graph : Graph) : string :=
  "Stopped after reaching max_steps=" ++ str_of_int (max_steps graph).

(** The locals on entry to the loop. *)
Definition entry (graph : Graph) (initial_state : State) : locals :=
  {| l_state := initial_state; l_log := []; l_current := VStr (start_node graph);
     l_steps := 0; l_calls := O; l_hist := [] |}.

(** The code after the loop. *)
Definition finish (graph : Graph) (l : locals) : RunResult :=
  let state :=
    if max_steps graph <=? l_steps l
    then <["_warning" := VStr (warning_text graph)]> (l_state l)
    else l_state l in
  let state := <["_execution_log" := VList (VStr <$> l_log l)]> state in
  {| final_state := state; log := l_log l |}.

(** What the caller of [run_graph] gets for each way out of the loop. *)
Definition result_of (graph : Graph) (o : outcome) : result RunResult :=
  match o with
  | Exited l | Broke l => ret (finish graph l)
  | Raised e _ => raise e
  end.

Definition run_graph_fuel (fuel : nat) (graph : Graph) (initial_state : State)
    : option (result RunResult) :=
  result_of graph <$> while_loop fuel graph (entry graph initial_state).

(** The loop guard lets at most [max_steps] passes through, so that much
    fuel is enough (see [while_loop_fuel_enough]). *)
Definition run_graph (graph : Graph) (initial_state : State) : option (result RunResult) :=
  run_graph_fuel (Z.to_nat (max_steps graph)) graph initial_state.

(** Two values are mutually ordered when both are numbers, both are
    strings, or both are lists whose first differing elements are
    mutually ordered. *)
Fixpoint mutually_ordered (a b : value) : bool :=
  match a, b with
  | VStr _, VStr _ => true
  | VList l, VList m =>
      (fix go (l m : list value) : bool :=
         match l, m with
         | x :: l', y :: m' => if py_eq x y then go l' m' else mutually_ordered x y
         | _, _ => true
         end) l m
  | _, _ => bool_decide (is_Some (as_num a)) && bool_decide (is_Some (as_num b))
  end.


(** The run-loop states of the interpreter's state machine, read off the
    way the loop was left: an exit with [current] still naming a node is
    the step bound; an exit with [current is None] followed the terminate
    sentinel; a [break] found no edge to follow. *)
Inductive status : Type :=
| Terminated_explicit_end
| Terminated_no_outgoing_edge
| Aborted_step_bound_reached
| Failed (e : exn).

Definition status_of (o : outcome) : status :=
  match o with
  | Exited l => if is_None (l_current l) then Terminated_explicit_end
                else Aborted_step_bound_reached
  | Broke _ => Terminated_no_outgoing_edge
  | Raised e _ => Failed e
  end.

Definition locals_of (o : outcome) : locals :=
  match o with
  | Exited l | Broke l | Raised _ l => l
  end.

(** A history is threaded from [state] when each entry's node function,
    called on the state before it, returned the entry's state. *)
Fixpoint threaded (graph : Graph) (state : State) (hist : list (string * State)) : Prop :=
  match hist with
  | [] => True
  | (name, state') :: hist' =>
      (exists node_fn, nodes graph !! name = Some node_fn
                       /\ call node_fn state = ReturnDict state')
      /\ threaded graph state' hist'
  end.

(** The state that a history ends in. *)
Definition last_state (state : State) (hist : list (string * State)) : State :=
  List.last (snd <$> hist) state.

(** [reaches graph l l']: the loop, started with locals [l], comes to the
    top of a pass with locals [l']. *)
Inductive reaches (graph : Graph) : locals -> locals -> Prop :=
| reaches_here l : reaches graph l l
| reaches_pass l l1 l' :
    negb (is_None (l_current l)) && (l_steps l <? max_steps graph) = true ->
    loop_body graph l = Continue l1 ->
    reaches graph l1 l' ->
    reaches graph l l'.

(** ** app/engine/registry.py *)

Module ToolRegistry.

Record t : Type := { _tools : gmap string NodeFn }.

Definition __init__ : t := {| _tools := ∅ |}.

Definition register (name : string) (fn : NodeFn) (self : t) : t :=
  {| _tools := <[name := fn]> (_tools self) |}.

Definition get (name : string) (self : t) : result NodeFn :=
  match _tools self !! name with
  | None => raise (KeyError (ToolNotRegistered name))
  | Some fn => ret fn
  end.

Definition list_tools (self : t) : gmap string string :=
  fn_name <$> _tools self.

(** The registry after a sequence of [register] calls, the earliest
    first. *)
Definition after (calls : list (string * NodeFn)) (self : t) : t :=
  foldl (fun r c => register c.1 c.2 r) self calls.

End ToolRegistry.

(** ** app/storage.py *)

Definition save_graph (graph : Graph) (GRAPHS : gmap string Graph)
    : string * gmap string Graph :=
  (graph_id graph, <[graph_id graph := graph]> GRAPHS).

Definition get_graph (graph_id : string) (GRAPHS : gmap string Graph) : result Graph :=
  match GRAPHS !! graph_id with
  | None => raise (KeyError (GraphNotFound graph_id))
  | Some graph => ret graph
  end.

(** ** app/main.py *)

Module NodeSpec.
Record t : Type := { name : string; tool_name : string }.
End NodeSpec.

Module EdgeSpec.
Inductive kind : Type := normal | conditional.

(** An [Optional[str]] field is an [option string]; [condition_value]
    is an [Optional[Any]], a value that may be [VNone]. *)
Record t : Type := {
  source : string;
  type : kind;
  target : option string;
  condition_key : option string;
  condition_op : option string;
  condition_value : value;
  true_target : option string;
  false_target : option string
}.
End EdgeSpec.

Module GraphCreateRequest.
Record t : Type := {
  nodes : list NodeSpec.t;
  edges : list EdgeSpec.t;
  start_node : string;
  max_steps : Z
}.
End GraphCreateRequest.

(** An [Optional[str]] as a value. *)
Definition optional_str (o : option string) : value :=
  match o with
  | Some s => VStr s
  | None => VNone
  end.

(** [for n in req.nodes: ...] *)
Fixpoint build_nodes (tool_registry : ToolRegistry.t) (ns : list NodeSpec.t)
    (nodes : gmap string NodeFn) : result (gmap string NodeFn) :=
  match ns with
  | [] => ret nodes
  | n :: ns' =>
      match ToolRegistry.get (NodeSpec.tool_name n) tool_registry with
      | inl (KeyError _) =>
          raise (HTTPException 400
                   (ToolForNodeNotRegistered (NodeSpec.tool_name n) (NodeSpec.name n)))
      | inl e => raise e
      | inr fn => build_nodes tool_registry ns' (<[NodeSpec.name n := fn]> nodes)
      end
  end.

(** The dict stored for a conditional edge. *)
Definition conditional_dict (e : EdgeSpec.t) : gmap string value :=
  {[ "type" := VStr "conditional";
     "key" := optional_str (EdgeSpec.condition_key e);
     "op" := optional_str (EdgeSpec.condition_op e);
     "value" := EdgeSpec.condition_value e;
     "true" := optional_str (EdgeSpec.true_target e);
     "false" := optional_str (EdgeSpec.false_target e) ]}.

(** [for e in req.edges: ...] *)
Fixpoint build_edges (es : list EdgeSpec.t) (edges : gmap string Edge)
    : result (gmap string Edge) :=
  match es with
  | [] => ret edges
  | e :: es' =>
      match EdgeSpec.type e with
      | EdgeSpec.normal =>
          match EdgeSpec.target e with
          | None => raise (HTTPException 400 (NormalEdgeNeedsTarget (EdgeSpec.source e)))
          | Some target => build_edges es' (<[EdgeSpec.source e := EdgeStr target]> edges)
          end
      | EdgeSpec.conditional =>
          if bool_decide (EdgeSpec.condition_key e = None)
             || bool_decide (EdgeSpec.condition_op e = None)
             || is_None (EdgeSpec.condition_value e)
          then raise (HTTPException 400 (ConditionalEdgeInvalid (EdgeSpec.source e)))
          else if bool_decide (EdgeSpec.true_target e = None)
                  && bool_decide (EdgeSpec.false_target e = None)
          then raise (HTTPException 400 (ConditionalEdgeNeedsTarget (EdgeSpec.source e)))
          else build_edges es' (<[EdgeSpec.source e := EdgeDict (conditional_dict e)]> edges)
      end
  end.

(** [uuid] is the string that [str(uuid4())] gives; the result is the
    graph with the store of graphs after [save_graph]. *)
Definition build_graph_from_request (tool_registry : ToolRegistry.t) (uuid : string)
    (GRAPHS : gmap string Graph) (req : GraphCreateRequest.t)
    : result (Graph * gmap string Graph) :=
  nodes <- build_nodes tool_registry (GraphCreateRequest.nodes req) ∅ ;;
  edges <- build_edges (GraphCreateRequest.edges req) ∅ ;;
  let graph :=
    {| graph_id := uuid; nodes := nodes; edges := edges;
       start_node := GraphCreateRequest.start_node req;
       max_steps := GraphCreateRequest.max_steps req |} in
  ret (graph, (save_graph graph GRAPHS).2).

(** What construction checks of one edge specification. *)
Definition well_formed_edge (e : EdgeSpec.t) : Prop :=
  match EdgeSpec.type e with
  | EdgeSpec.normal => is_Some (EdgeSpec.target e)
  | EdgeSpec.conditional =>
      is_Some (EdgeSpec.condition_key e)
      /\ is_Some (EdgeSpec.condition_op e)
      /\ EdgeSpec.condition_value e <> VNone
      /\ (is_Some (EdgeSpec.true_target e) \/ is_Some (EdgeSpec.false_target e))
  end.

(** The data-model invariant on the start node. *)
Definition start_node_is_node (graph : Graph) : Prop :=
  is_Some (nodes graph !! start_node graph).

(** ** Loop invariant *)

(** What the ghost fields record about the other locals. *)
Definition ghost_ok (graph : Graph) (initial_state : State) (l : locals) : Prop :=
  l_log l = (l_hist l).*1
  /\ length (l_hist l) = l_calls l
  /\ threaded graph initial_state (l_hist l)
  /\ l_state l = last_state initial_state (l_hist l).

(** At the top of each pass, [steps] counts the calls made so far and has
    not passed the bound. *)
Definition loop_inv (graph : Graph) (initial_state : State) (l : locals) : Prop :=
  ghost_ok graph initial_state l
  /\ Z.of_nat (l_calls l) = l_steps l
  /\ l_steps l <= Z.max 0 (max_steps graph).

(** What holds when the loop is left. *)
Definition loop_post (graph : Graph) (initial_state : State) (o : outcome) : Prop :=
  match o with
  | Exited l =>
      loop_inv graph initial_state l
      /\ (l_current l = VNone \/ max_steps graph <= l_steps l)
  | Broke l =>
      ghost_ok graph initial_state l
      /\ Z.of_nat (l_calls l) = l_steps l + 1
      /\ l_steps l < max_steps graph
      /\ l_current l <> VNone
  | Raised e l =>
      Z.of_nat (l_calls l) <= l_steps l + 1
      /\ l_steps l < max_steps graph
  end.

(** ** Scenario fixtures *)

Module Scenarios.

(** A step that adds its own name as a key with value [True]. *)
Definition add_own_name (name : string) : NodeFn :=
  {| fn_name := name;
     call := fun state => ReturnDict (<[name := VBool true]> state) |}.

(** A step that does [state["count"] = state.get("count", 0) + 1]. *)
Definition increment_count : NodeFn :=
  {| fn_name := "increment_count";
     call := fun state =>
       match as_num (dict_get_default state "count" (VInt 0)) with
       | Some n => ReturnDict (<["count" := VInt (n + 1)]> state)
       | None => Raises (TypeError (Text "unsupported operand type(s) for +"))
       end |}.

(** A step that sets a string field. *)
Definition set_grade : NodeFn :=
  {| fn_name := "set_grade";
     call := fun state => ReturnDict (<["grade" := VStr "high"]> state) |}.

(** Scenario A: a -> b -> c -> terminate. *)
Definition linear_abc : Graph :=
  {| graph_id := "A";
     nodes := {[ "a" := add_own_name "a"; "b" := add_own_name "b";
                 "c" := add_own_name "c" ]};
     edges := {[ "a" := EdgeStr "b"; "b" := EdgeStr "c"; "c" := EdgeNone ]};
     start_node := "a";
     max_steps := 100 |}.

(** A conditional edge [key op value -> terminate else a]. *)
Definition until (key op : string) (literal : value) : gmap string value :=
  {[ "type" := VStr "conditional"; "key" := VStr key; "op" := VStr op;
     "value" := literal; "true" := VNone; "false" := VStr "a" ]}.

(** A self-loop on node [a] that is left through [edge], with a step
    bound. *)
Definition self_loop (node_fn : NodeFn) (edge : gmap string value) (bound : Z) : Graph :=
  {| graph_id := "loop";
     nodes := {[ "a" := node_fn ]};
     edges := {[ "a" := EdgeDict edge ]};
     start_node := "a";
     max_steps := bound |}.

(** Scenario B: [count >= 3 -> terminate else a], default bound. *)
Definition count_to_three : Graph :=
  self_loop increment_count (until "count" ">=" (VInt 3)) 100.

(** Scenario B with the bound equal to the number of passes needed. *)
Definition count_to_three_bound_3 : Graph :=
  self_loop increment_count (until "count" ">=" (VInt 3)) 3.

(** Scenario C: the condition is never satisfied, bound 5. *)
Definition never_satisfied : Graph :=
  self_loop increment_count (until "count" "<" (VInt 0)) 5.

(** An unconditional cycle a -> b -> a with no terminate sentinel. *)
Definition unconditional_cycle : Graph :=
  {| graph_id := "cycle";
     nodes := {[ "a" := increment_count; "b" := add_own_name "b" ]};
     edges := {[ "a" := EdgeStr "b"; "b" := EdgeStr "a" ]};
     start_node := "a";
     max_steps := 5 |}.

(** Scenario D: an edge to a node [x] that is not in [nodes]. *)
Definition dangling_edge : Graph :=
  {| graph_id := "D";
     nodes := {[ "a" := add_own_name "a" ]};
     edges := {[ "a" := EdgeStr "x" ]};
     start_node := "a";
     max_steps := 100 |}.

(** Scenario E: a string state value compared with [>=] against a
    number. *)
Definition string_against_number : Graph :=
  self_loop set_grade (until "grade" ">=" (VInt 80)) 100.

End Scenarios.

(** The locals of Scenario D at the top of its second pass. *)
Definition scenario_D_second_pass : locals :=
  {| l_state := {[ "a" := VBool true ]}; l_log := ["a"]; l_current := VStr "x";
     l_steps := 1; l_calls := 1%nat;
     l_hist := [("a", {[ "a" := VBool true ]})] |}.

(** The result expected of Scenario A. *)
Definition scenario_A_result : RunResult :=
  {| final_state :=
       {[ "a" := VBool true; "b" := VBool true; "c" := VBool true;
          "_execution_log" := VList [VStr "a"; VStr "b"; VStr "c"] ]};
     log := ["a"; "b"; "c"] |}.

(** A returned result [r] has a correct trace when it comes from locals
    [l] with which the loop was left, the trace has one entry per call of
    a node function, entry [i] names the node of the [i]-th call, whose
    function was applied to the state the call before it returned (the
    initial state for the first) and returned the [i]-th state of the
    history, the last of which is the loop's final state, and the
    [_execution_log] field of the final state is the trace. *)
Definition trace_correct (graph : Graph) (initial_state : State) (r : RunResult) : Prop :=
  exists l : locals,
    (while_loop (Z.to_nat (max_steps graph)) graph (entry graph initial_state)
       = Some (Exited l)
     \/ while_loop (Z.to_nat (max_steps graph)) graph (entry graph initial_state)
       = Some (Broke l))
    /\ r = finish graph l
    /\ length (log r) = l_calls l
    /\ log r = (l_hist l).*1
    /\ threaded graph initial_state (l_hist l)
    /\ l_state l = last_state initial_state (l_hist l)
    /\ final_state r !! "_execution_log" = Some (VList (VStr <$> log r)).

(** A node specification names a registered tool. *)
Definition tool_registered (tool_registry : ToolRegistry.t) (n : NodeSpec.t) : Prop :=
  is_Some (ToolRegistry._tools tool_registry !! NodeSpec.tool_name n).

(** Construction fixtures. *)
Module Requests.

Definition registry : ToolRegistry.t :=
  ToolRegistry.register "increment_count" Scenarios.increment_count
    ToolRegistry.__init__.

Definition node_a : NodeSpec.t :=
  {| NodeSpec.name := "a"; NodeSpec.tool_name := "increment_count" |}.

Definition edge (type : EdgeSpec.kind) (target : option string)
    (key op : option string) (literal : value)
    (true_target false_target : option string) : EdgeSpec.t :=
  {| EdgeSpec.source := "a"; EdgeSpec.type := type; EdgeSpec.target := target;
     EdgeSpec.condition_key := key; EdgeSpec.condition_op := op;
     EdgeSpec.condition_value := literal;
     EdgeSpec.true_target := true_target; EdgeSpec.false_target := false_target |}.

Definition request (start_node : string) (edges : list EdgeSpec.t)
    : GraphCreateRequest.t :=
  {| GraphCreateRequest.nodes := [node_a]; GraphCreateRequest.edges := edges;
     GraphCreateRequest.start_node := start_node;
     GraphCreateRequest.max_steps := 100 |}.

(** A normal edge whose target is the terminate sentinel. *)
Definition normal_to_sentinel : EdgeSpec.t :=
  edge EdgeSpec.normal None None None VNone None None.

(** A conditional edge both of whose branches are the sentinel. *)
Definition both_to_sentinel : EdgeSpec.t :=
  edge EdgeSpec.conditional None (Some "count") (Some ">=") (VInt 3) None None.

(** A conditional edge with one branch to the sentinel. *)
Definition one_to_sentinel : EdgeSpec.t :=
  edge EdgeSpec.conditional None (Some "count") (Some ">=") (VInt 1) None (Some "a").

(** A conditional edge without [condition_key]. *)
Definition without_key : EdgeSpec.t :=
  edge EdgeSpec.conditional None None (Some ">=") (VInt 3) None (Some "a").

End Requests.

(** A graph whose first pass follows the terminate sentinel. *)
Definition count_to_one : Graph :=
  Scenarios.self_loop Scenarios.increment_count (Scenarios.until "count" ">=" (VInt 1)) 100.

(** ** Further fixtures for the run loop *)


Module Fixtures.

(** A step that raises. *)
Definition failing_step : NodeFn :=
  {| fn_name := "failing_step";
     call := fun _ => Raises (OtherException "RuntimeError" (Text "boom")) |}.

(** A step that returns a list instead of a dict. *)
Definition list_step : NodeFn :=
  {| fn_name := "list_step"; call := fun _ => ReturnOther (VList []) |}.

(** A graph with the single node [a], its step and its edge entry. *)
Definition single (node_fn : NodeFn) (edge : option Edge) (bound : Z) : Graph :=
  {| graph_id := "single";
     nodes := {[ "a" := node_fn ]};
     edges := from_option (fun e => {[ "a" := e ]}) ∅ edge;
     start_node := "a";
     max_steps := bound |}.

(** A graph without nodes. *)
Definition no_nodes (bound : Z) : Graph :=
  {| graph_id := "empty"; nodes := ∅; edges := ∅; start_node := "a";
     max_steps := bound |}.

(** A dict that is not a conditional spec. *)
Definition untyped_edge : gmap string value :=
  {[ "key" := VStr "count"; "true" := VNone; "false" := VStr "a" ]}.

(** A conditional spec without its [false] branch. *)
Definition no_false_branch : gmap string value :=
  {[ "type" := VStr "conditional"; "key" := VStr "count"; "op" := VStr ">=";
     "value" := VInt 3; "true" := VNone ]}.

(** A conditional spec with an operator outside the fixed set. *)
Definition bad_operator : gmap string value :=
  {[ "type" := VStr "conditional"; "key" := VStr "count"; "op" := VStr "=>";
     "value" := VInt 3; "true" := VNone; "false" := VStr "a" ]}.

End Fixtures.

(** ** app/storage.py: runs *)

(** The dict that [create_run] stores for a run. *)
Record RunRecord : Type := {
  rec_graph_id : string;
  rec_state : State;
  rec_log : list string;
  rec_status : string;
  rec_created_at : string;
  rec_updated_at : string
}.

(** [uuid] is the string that [str(uuid4())] gives and [isoformat] the
    string that [datetime.utcnow().isoformat()] gives. *)
Definition create_run (uuid isoformat : string) (graph_id : string) (result : RunResult)
    (RUNS : gmap string RunRecord) : string * gmap string RunRecord :=
  let run_id := uuid in
  let now := isoformat ++ "Z" in
  (run_id,
   <[run_id := {| rec_graph_id := graph_id;
                  rec_state := final_state result;
                  rec_log := log result;
                  rec_status := "completed";
                  rec_created_at := now;
                  rec_updated_at := now |}]> RUNS).

Definition get_run (run_id : string) (RUNS : gmap string RunRecord) : result RunRecord :=
  match RUNS !! run_id with
  | None => raise (KeyError (Text ("Run '" ++ run_id ++ "' not found")))
  | Some run => ret run
  end.

(** The two module-level stores. *)
Record storage : Type := {
  GRAPHS : gmap string Graph;
  RUNS : gmap string RunRecord
}.

(** ** app/main.py: the endpoints *)

Module GraphRunRequest.
Record t : Type := { graph_id : string; initial_state : State }.
End GraphRunRequest.

Module GraphRunResponse.
Record t : Type := { run_id : string; final_state : State; log : list string }.
End GraphRunResponse.

Module RunStateResponse.
Record t : Type := {
  run_id : string;
  graph_id : string;
  state : State;
  log : list string;
  status : string
}.
End RunStateResponse.

(** [POST /graph/create]: the response is the graph's id. *)
Definition create_graph (tool_registry : ToolRegistry.t) (uuid : string)
    (req : GraphCreateRequest.t) (store : storage) : result string * storage :=
  match build_graph_from_request tool_registry uuid (GRAPHS store) req with
  | inl e => (raise e, store)
  | inr (graph, GRAPHS') =>
      (ret (graph_id graph), {| GRAPHS := GRAPHS'; RUNS := RUNS store |})
  end.

(** [POST /graph/run].  [None] means that [run_graph] ran out of fuel. *)
Definition run_graph_endpoint (uuid isoformat : string) (req : GraphRunRequest.t)
    (store : storage) : option (result GraphRunResponse.t * storage) :=
  match get_graph (GraphRunRequest.graph_id req) (GRAPHS store) with
  | inl (KeyError _) =>
      Some (raise (HTTPException 404 (GraphNotFound (GraphRunRequest.graph_id req))),
            store)
  | inl e => Some (raise e, store)
  | inr graph =>
      match run_graph graph (GraphRunRequest.initial_state req) with
      | None => None
      | Some (inl e) => Some (raise e, store)
      | Some (inr result) =>
          let (run_id, RUNS') :=
            create_run uuid isoformat (GraphRunRequest.graph_id req) result (RUNS store) in
          Some (ret {| GraphRunResponse.run_id := run_id;
                       GraphRunResponse.final_state := final_state result;
                       GraphRunResponse.log := log result |},
                {| GRAPHS := GRAPHS store; RUNS := RUNS' |})
      end
  end.

(** [GET /graph/state/{run_id}] *)
Definition get_run_state (run_id : string) (store : storage) : result RunStateResponse.t :=
  match get_run run_id (RUNS store) with
  | inl (KeyError _) =>
      raise (HTTPException 404 (Text ("Run '" ++ run_id ++ "' not found")))
  | inl e => raise e
  | inr run =>
      ret {| RunStateResponse.run_id := run_id;
             RunStateResponse.graph_id := rec_graph_id run;
             RunStateResponse.state := rec_state run;
             RunStateResponse.log := rec_log run;
             RunStateResponse.status := rec_status run |}
  end.

(** [GET /tools] *)
Definition list_tools (tool_registry : ToolRegistry.t) : gmap string string :=
  ToolRegistry.list_tools tool_registry.

(** Storage fixtures. *)
Definition empty_storage : storage := {| GRAPHS := ∅; RUNS := ∅ |}.

Definition storage_with_scenario_A : storage :=
  {| GRAPHS := {[ "A" := Scenarios.linear_abc ]}; RUNS := ∅ |}.

Definition run_scenario_A : GraphRunRequest.t :=
  {| GraphRunRequest.graph_id := "A"; GraphRunRequest.initial_state := ∅ |}.

(** ** Python built-ins used by the workflows

    A [str] is read as the sequence of its characters, one [ascii]
    each. *)

(** [type(v).__name__] *)
Definition type_name (v : value) : string :=
  match v with
  | VNone => "NoneType"
  | VBool _ => "bool"
  | VInt _ => "int"
  | VStr _ => "str"
  | VList _ => "list"
  end.

(** The items that [for x in v] goes through; [None], a [bool] and an
    [int] are not iterable. *)
Definition py_iter (v : value) : result (list value) :=
  match v with
  | VList l => ret l
  | VStr s => ret ((fun c => VStr (String c EmptyString)) <$> list_ascii_of_string s)
  | _ => raise (TypeError (Text ("'" ++ type_name v ++ "' object is not iterable")))
  end.

(** [len(v)] *)
Definition py_len (v : value) : result Z :=
  match v with
  | VList l => ret (Z.of_nat (length l))
  | VStr s => ret (Z.of_nat (String.length s))
  | _ => raise (TypeError (Text ("object of type '" ++ type_name v ++ "' has no len()")))
  end.

(** [x in (a, b, ...)] *)
Definition py_in (x : value) (tuple : list value) : bool :=
  existsb (py_eq x) tuple.

(** ** app/workflows/data_quality.py *)

Module DataQuality.

Definition profile_data_tool : NodeFn :=
  {| fn_name := "profile_data_tool";
     call := fun state =>
       let data := dict_get_default state "data" (VList []) in
       match py_len data with
       | inl e => Raises e
       | inr n => ReturnDict (<["row_count" := VInt n]> state)
       end |}.

Definition identify_anomalies_tool : NodeFn :=
  {| fn_name := "identify_anomalies_tool";
     call := fun state =>
       let data := dict_get_default state "data" (VList []) in
       match py_iter data with
       | inl e => Raises e
       | inr items =>
           let anomalies :=
             List.filter (fun x => is_None x || py_eq x (VStr "")) items in
           ReturnDict (<["anomaly_count" := VInt (Z.of_nat (length anomalies))]>
                         (<["anomalies" := VList anomalies]> state))
       end |}.

Definition generate_rules_tool : NodeFn :=
  {| fn_name := "generate_rules_tool";
     call := fun state =>
       let rules := VList [VStr "No nulls allowed"] in
       ReturnDict (<["rules" := rules]> state) |}.

Definition apply_rules_tool : NodeFn :=
  {| fn_name := "apply_rules_tool";
     call := fun state =>
       let data := dict_get_default state "data" (VList []) in
       match py_iter data with
       | inl e => Raises e
       | inr items =>
           let cleaned :=
             List.filter (fun x => negb (py_in x [VNone; VStr ""])) items in
           ReturnDict (<["anomaly_count" := VInt 0]> (<["data" := VList cleaned]> state))
       end |}.

Definition register_data_quality_tools (tool_registry : ToolRegistry.t) : ToolRegistry.t :=
  ToolRegistry.register "apply_rules" apply_rules_tool
    (ToolRegistry.register "generate_rules" generate_rules_tool
       (ToolRegistry.register "identify_anomalies" identify_anomalies_tool
          (ToolRegistry.register "profile_data" profile_data_tool tool_registry))).

(** The conditional edge of [identify_anomalies]. *)
Definition few_anomalies : gmap string value :=
  {[ "type" := VStr "conditional"; "key" := VStr "anomaly_count"; "op" := VStr "<=";
     "value" := VInt 1; "true" := VNone; "false" := VStr "generate_rules" ]}.

Definition create_data_quality_graph (tool_registry : ToolRegistry.t) (graph_id : string)
    : result Graph :=
  profile_data <- ToolRegistry.get "profile_data" tool_registry ;;
  identify_anomalies <- ToolRegistry.get "identify_anomalies" tool_registry ;;
  generate_rules <- ToolRegistry.get "generate_rules" tool_registry ;;
  apply_rules <- ToolRegistry.get "apply_rules" tool_registry ;;
  let nodes : gmap string NodeFn :=
    {[ "profile_data" := profile_data;
       "identify_anomalies" := identify_anomalies;
       "generate_rules" := generate_rules;
       "apply_rules" := apply_rules ]} in
  let edges : gmap string Edge :=
    {[ "profile_data" := EdgeStr "identify_anomalies";
       "identify_anomalies" := EdgeDict few_anomalies;
       "generate_rules" := EdgeStr "apply_rules";
       "apply_rules" := EdgeStr "identify_anomalies" ]} in
  ret {| graph_id := graph_id; nodes := nodes; edges := edges;
         start_node := "profile_data"; max_steps := 20 |}.

(** The names of the four tools. *)
Definition tool_names : list string :=
  ["profile_data"; "identify_anomalies"; "generate_rules"; "apply_rules"].

(** The graph that [create_data_quality_graph] gives once the tools are
    registered. *)
Definition example_graph (graph_id : string) : Graph :=
  {| graph_id := graph_id;
     nodes := {[ "profile_data" := profile_data_tool;
                 "identify_anomalies" := identify_anomalies_tool;
                 "generate_rules" := generate_rules_tool;
                 "apply_rules" := apply_rules_tool ]};
     edges := {[ "profile_data" := EdgeStr "identify_anomalies";
                 "identify_anomalies" := EdgeDict few_anomalies;
                 "generate_rules" := EdgeStr "apply_rules";
                 "apply_rules" := EdgeStr "identify_anomalies" ]};
     start_node := "profile_data"; max_steps := 20 |}.

(** An entry of [data] that the workflow counts as an anomaly. *)
Definition is_anomaly (x : value) : bool := is_None x || py_eq x (VStr "").

End DataQuality.

(** The locals after a pass for node [name] whose step returned [state]
    and whose edge leads to [target]. *)
Definition advance (l : locals) (name : string) (state : State) (target : value) : locals :=
  {| l_state := state; l_log := (l_log l ++ [name])%list;
     l_current := target; l_steps := l_steps l + 1;
     l_calls := S (l_calls l);
     l_hist := (l_hist l ++ [(name, state)])%list |}.

(** A state for the data-quality workflow with two anomalous entries. *)
Definition dirty_data : State :=
  {[ "data" := VList [VInt 1; VNone; VStr ""; VStr "x"] ]}.

(** ** More Python built-ins *)

(** [state.setdefault(k, v)] as far as the dict goes; the call returns
    [state[k]] afterwards. *)
Definition setdefault (state : State) (k : string) (v : value) : State :=
  match state !! k with
  | Some _ => state
  | None => <[k := v]> state
  end.

(** [a + n] and [a - n] for an [int] [n]. *)
Definition py_add_int (a : value) (n : Z) : result Z :=
  match as_num a with
  | Some x => ret (x + n)
  | None =>
      raise (TypeError (Text ("unsupported operand type(s) for +: '"
                              ++ type_name a ++ "' and 'int'")))
  end.

Definition py_sub_int (a : value) (n : Z) : result Z :=
  match as_num a with
  | Some x => ret (x - n)
  | None =>
      raise (TypeError (Text ("unsupported operand type(s) for -: '"
                              ++ type_name a ++ "' and 'int'")))
  end.

(** [bool(v)] *)
Definition py_truthy (v : value) : bool :=
  match v with
  | VNone => false
  | VBool b => b
  | VInt z => negb (z =? 0)
  | VStr s => negb (String.eqb s "")
  | VList l => match l with [] => false | _ => true end
  end.

(** [v.append(x)]: only a list has the method. *)
Definition py_append (v x : value) : result value :=
  match v with
  | VList l => ret (VList (l ++ [x]))
  | _ =>
      raise (OtherException "AttributeError"
               (Text ("'" ++ type_name v ++ "' object has no attribute 'append'")))
  end.

(** [needle in hay] for two strings. *)
Fixpoint str_contains (needle hay : string) : bool :=
  String.prefix needle hay
  || match hay with
     | EmptyString => false
     | String _ hay' => str_contains needle hay'
     end.

(** ** app/workflows/code_review.py

    [re.findall] (for a pattern with one group, the list of the group's
    matches) and [str.splitlines] are taken as given. *)

Module CodeReview.

Section Tools.

Variable findall : string -> string -> list string.
Variable splitlines : string -> list string.

Definition function_pattern : string := "def\s+([a-zA-Z_]\w*)\s*\(".
Definition keyword_pattern : string := "\b(if|for|while|try|except)\b".

(** The [TypeError] of [re.findall] on a subject that is not a string. *)
Definition not_a_string : exn :=
  TypeError (Text "expected string or bytes-like object").

Definition extract_functions_tool : NodeFn :=
  {| fn_name := "extract_functions_tool";
     call := fun state =>
       match dict_get_default state "code" (VStr "") with
       | VStr code =>
           let functions := VList (VStr <$> findall function_pattern code) in
           let state := <["functions" := functions]> state in
           let state := setdefault state "quality_score" (VInt 50) in
           let state := setdefault state "issues" (VInt 0) in
           let state := setdefault state "suggestions" (VList []) in
           ReturnDict state
       | _ => Raises not_a_string
       end |}.

Definition check_complexity_tool : NodeFn :=
  {| fn_name := "check_complexity_tool";
     call := fun state =>
       match dict_get_default state "code" (VStr "") with
       | VStr code =>
           let functions := dict_get_default state "functions" (VList []) in
           let complexity_signals := Z.of_nat (length (findall keyword_pattern code)) in
           match py_len functions with
           | inl e => Raises e
           | inr n =>
               let complexity_score := complexity_signals + n in
               let state := <["complexity_score" := VInt complexity_score]> state in
               let base_quality := dict_get_default state "quality_score" (VInt 50) in
               let bonus := Z.max 0 (10 - complexity_score) in
               match py_add_int base_quality bonus with
               | inl e => Raises e
               | inr sum => ReturnDict (<["quality_score" := VInt (Z.min 100 sum)]> state)
               end
           end
       | _ => Raises not_a_string
       end |}.

Definition detect_issues_tool : NodeFn :=
  {| fn_name := "detect_issues_tool";
     call := fun state =>
       match dict_get_default state "code" (VStr "") with
       | VStr code =>
           let lines := splitlines code in
           let todo_issues :=
             Z.of_nat (length (List.filter (fun ln => str_contains "TODO" ln) lines)) in
           let long_line_issues :=
             Z.of_nat (length (List.filter (fun ln => (120 <? String.length ln)%nat) lines)) in
           let total_issues := todo_issues + long_line_issues in
           let state := <["issues" := VInt total_issues]> state in
           let quality := dict_get_default state "quality_score" (VInt 50) in
           let penalty := total_issues * 2 in
           match py_sub_int quality penalty with
           | inl e => Raises e
           | inr diff =>
               let state := <["quality_score" := VInt (Z.max 0 diff)]> state in
               let issue_summaries :=
                 ((if todo_issues =? 0 then []
                   else [(str_of_int todo_issues ++ " TODOs found")%string])
                  ++ (if long_line_issues =? 0 then []
                      else [(str_of_int long_line_issues ++ " overly long lines")%string]))%list in
               let joined := String.concat ", " issue_summaries in
               let issue_summary :=
                 if String.eqb joined "" then "No obvious issues" else joined in
               ReturnDict (<["issue_summary" := VStr issue_summary]> state)
           end
       | v =>
           Raises (OtherException "AttributeError"
                     (Text ("'" ++ type_name v ++ "' object has no attribute 'splitlines'")))
       end |}.

(** [if cond: suggestions.append(text)] *)
Definition append_if (cond : bool) (suggestions : value) (text : string) : result value :=
  if cond then py_append suggestions (VStr text) else ret suggestions.

Definition suggest_improvements_tool : NodeFn :=
  {| fn_name := "suggest_improvements_tool";
     call := fun state =>
       let state := setdefault state "suggestions" (VList []) in
       let suggestions := dict_get state "suggestions" in
       let complexity := dict_get_default state "complexity_score" (VInt 0) in
       let issues := dict_get_default state "issues" (VInt 0) in
       let appended :=
         complex <- compare_values Gt complexity (VInt 10) ;;
         suggestions <-
           append_if complex suggestions
             "Consider breaking complex functions into smaller ones." ;;
         flagged <- compare_values Gt issues (VInt 0) ;;
         suggestions <-
           append_if flagged suggestions "Address flagged TODOs and long lines." ;;
         append_if (negb (py_truthy suggestions)) suggestions
           "Code looks clean. Minor refactoring only if necessary." in
       match appended with
       | inl e => Raises e
       | inr suggestions =>
           let state := <["suggestions" := suggestions]> state in
           let quality := dict_get_default state "quality_score" (VInt 50) in
           match py_add_int quality 5 with
           | inl e => Raises e
           | inr sum => ReturnDict (<["quality_score" := VInt (Z.min 100 sum)]> state)
           end
       end |}.

Definition register_code_review_tools (tool_registry : ToolRegistry.t) : ToolRegistry.t :=
  ToolRegistry.register "suggest_improvements" suggest_improvements_tool
    (ToolRegistry.register "detect_issues" detect_issues_tool
       (ToolRegistry.register "check_complexity" check_complexity_tool
          (ToolRegistry.register "extract_functions" extract_functions_tool
             tool_registry))).

(** The conditional edge of [suggest_improvements], with the threshold
    80. *)
Definition good_enough : gmap string value :=
  {[ "type" := VStr "conditional"; "key" := VStr "quality_score"; "op" := VStr ">=";
     "value" := VInt 80; "true" := VNone; "false" := VStr "check_complexity" ]}.

Definition create_code_review_graph (tool_registry : ToolRegistry.t) (graph_id : string)
    : result Graph :=
  extract_functions <- ToolRegistry.get "extract_functions" tool_registry ;;
  check_complexity <- ToolRegistry.get "check_complexity" tool_registry ;;
  detect_issues <- ToolRegistry.get "detect_issues" tool_registry ;;
  suggest_improvements <- ToolRegistry.get "suggest_improvements" tool_registry ;;
  let nodes : gmap string NodeFn :=
    {[ "extract_functions" := extract_functions;
       "check_complexity" := check_complexity;
       "detect_issues" := detect_issues;
       "suggest_improvements" := suggest_improvements ]} in
  let edges : gmap string Edge :=
    {[ "extract_functions" := EdgeStr "check_complexity";
       "check_complexity" := EdgeStr "detect_issues";
       "detect_issues" := EdgeStr "suggest_improvements";
       "suggest_improvements" := EdgeDict good_enough ]} in
  ret {| graph_id := graph_id; nodes := nodes; edges := edges;
         start_node := "extract_functions"; max_steps := 50 |}.

(** The graph that [create_code_review_graph] gives once the tools are
    registered. *)
Definition example_graph (graph_id : string) : Graph :=
  {| graph_id := graph_id;
     nodes := {[ "extract_functions" := extract_functions_tool;
                 "check_complexity" := check_complexity_tool;
                 "detect_issues" := detect_issues_tool;
                 "suggest_improvements" := suggest_improvements_tool ]};
     edges := {[ "extract_functions" := EdgeStr "check_complexity";
                 "check_complexity" := EdgeStr "detect_issues";
                 "detect_issues" := EdgeStr "suggest_improvements";
                 "suggest_improvements" := EdgeDict good_enough ]};
     start_node := "extract_functions"; max_steps := 50 |}.

(** The number of issues that [detect_issues_tool] finds in a code. *)
Definition issues_of (code : string) : Z :=
  Z.of_nat (length (List.filter (fun ln => str_contains "TODO" ln) (splitlines code)))
  + Z.of_nat (length (List.filter (fun ln => (120 <? String.length ln)%nat)
                        (splitlines code))).

End Tools.

(** A quality score is absent or an integer from 0 to 100. *)
Definition quality_in_range (state : State) : Prop :=
  match state !! "quality_score" with
  | None => True
  | Some (VInt q) => 0 <= q <= 100
  | Some _ => False
  end.

End CodeReview.

(** ** Paths *)

(** [follows graph a b]: the edge entry of node [a] can lead to node
    [b], directly or as one of the two branches of a conditional. *)
Definition follows (graph : Graph) (a b : string) : Prop :=
  match edges graph !! a with
  | Some (EdgeStr target) => target = b
  | Some (EdgeDict spec) =>
      spec !! "true" = Some (VStr b) \/ spec !! "false" = Some (VStr b)
  | _ => False
  end.

(** What the trace so far says about the pass that the loop is at. *)
Definition path_inv (graph : Graph) (l : locals) : Prop :=
  (forall i a b, l_log l !! i = Some a -> l_log l !! S i = Some b -> follows graph a b)
  /\ (forall a c, last (l_log l) = Some a -> l_current l = VStr c -> follows graph a c)
  /\ (l_log l = [] -> l_current l = VStr (start_node graph))
  /\ (forall a, head (l_log l) = Some a -> a = start_node graph).

(** A quality score that is present: an integer from 0 to 100. *)
Definition quality_set (state : State) : Prop :=
  exists q, state !! "quality_score" = Some (VInt q) /\ 0 <= q <= 100.

(** Stand-ins for the two library functions in examples: no match, and
    the whole text as one line. *)
Definition no_match (pattern text : string) : list string := [].
Definition one_line (text : string) : list string := [text].

(** The locals at the top of a pass for [check_complexity], after [j]
    rounds of the review loop, with quality [q]. *)
Definition at_check_complexity (code : string) (warning : option value)
    (l : locals) (q j : Z) : Prop :=
  l_current l = VStr "check_complexity"
  /\ l_steps l = 1 + 3 * j
  /\ 0 <= j
  /\ (j = 0 \/ q < 80)
  /\ 5 * j <= q <= 100
  /\ length (l_log l) = Z.to_nat (1 + 3 * j)
  /\ l_state l !! "code" = Some (VStr code)
  /\ (exists fs, l_state l !! "functions" = Some (VList fs))
  /\ l_state l !! "quality_score" = Some (VInt q)
  /\ (exists sg, l_state l !! "suggestions" = Some (VList sg))
  /\ l_state l !! "_warning" = warning.

(** The locals with which the review loop is left at the threshold. *)
Definition review_done (warning : option value) (l : locals) : Prop :=
  l_current l = VNone
  /\ l_steps l < 50
  /\ (length (l_log l) <= 49)%nat
  /\ last (l_log l) = Some "suggest_improvements"
  /\ (exists q, l_state l !! "quality_score" = Some (VInt q) /\ 80 <= q <= 100)
  /\ l_state l !! "issues" = Some (VInt 0)
  /\ l_state l !! "_warning" = warning.

(** A state for the code-review workflow: one line of code. *)
Definition clean_code : State := {[ "code" := VStr "x = 1" ]}.

(** The complexity score that [check_complexity_tool] computes for a
    code once [extract_functions_tool] has run. *)
Definition complexity_of (findall : string -> string -> list string) (code : string) : Z :=
  Z.of_nat (length (findall CodeReview.keyword_pattern code))
  + Z.of_nat (length (findall CodeReview.function_pattern code)).

(** The locals at the top of any pass of a review that cannot reach the
    threshold: the quality stays too low for the pass that comes. *)
Definition review_stuck (findall : string -> string -> list string)
    (splitlines : string -> list string) (code : string) (l : locals) : Prop :=
  l_state l !! "code" = Some (VStr code)
  /\ ((l_current l = VStr "extract_functions"
       /\ (l_state l !! "quality_score" = None
           \/ exists q, l_state l !! "quality_score" = Some (VInt q) /\ 0 <= q < 80)
       /\ (l_state l !! "suggestions" = None
           \/ exists sg, l_state l !! "suggestions" = Some (VList sg)))
      \/ (l_state l !! "functions"
          = Some (VList (VStr <$> findall CodeReview.function_pattern code))
          /\ (exists sg, l_state l !! "suggestions" = Some (VList sg))
          /\ exists q,
               l_state l !! "quality_score" = Some (VInt q)
               /\ 0 <= q
               /\ ((l_current l = VStr "check_complexity" /\ q < 80)
                   \/ (l_current l = VStr "detect_issues"
                       /\ q < 75 + 2 * CodeReview.issues_of splitlines code
                       /\ l_state l !! "complexity_score"
                          = Some (VInt (complexity_of findall code)))
                   \/ (l_current l = VStr "suggest_improvements"
                       /\ q < 75
                       /\ l_state l !! "complexity_score"
                          = Some (VInt (complexity_of findall code))
                       /\ l_state l !! "issues"
                          = Some (VInt (CodeReview.issues_of splitlines code)))))).

(** A stand-in for [str.splitlines] in examples: every text has eight
    lines, each with a [TODO]. *)
Definition eight_todos (text : string) : list string :=
  ["TODO"; "TODO"; "TODO"; "TODO"; "TODO"; "TODO"; "TODO"; "TODO"].

(** ** Built-ins used by the summarization workflow *)

(** The [AttributeError] for a method that the value's type lacks. *)
Definition no_attribute (v : value) (method : string) : exn :=
  OtherException "AttributeError"
    (Text ("'" ++ type_name v ++ "' object has no attribute '" ++ method ++ "'")).

(** A value used as an integer index or step. *)
Definition py_index (v : value) : result Z :=
  match as_num v with
  | Some z => ret z
  | None =>
      raise (TypeError (Text ("'" ++ type_name v
                              ++ "' object cannot be interpreted as an integer")))
  end.

(** The elements of [range(0, n, step)]. *)
Definition py_range_from_0 (n : nat) (step : Z) : result (list nat) :=
  if step =? 0 then raise (ValueError (Text "range() arg 3 must not be zero"))
  else if step <? 0 then ret []
  else ret ((fun k => k * Z.to_nat step)%nat
              <$> seq 0 ((n + Z.to_nat step - 1) / Z.to_nat step)%nat).

(** [l[i:i + size]] for [0 <= i] and [0 < size]. *)
Definition slice_from {A : Type} (i size : nat) (l : list A) : list A :=
  take size (drop i l).

(** [l[:stop]] *)
Definition slice_to {A : Type} (stop : Z) (l : list A) : list A :=
  if 0 <=? stop then take (Z.to_nat stop) l
  else take (length l - Z.to_nat (- stop)) l.

(** The items of a list of strings; the first item that is not a string
    makes [str.join] raise. *)
Fixpoint str_items (items : list value) : result (list string) :=
  match items with
  | [] => ret []
  | VStr s :: items' => rest <- str_items items' ;; ret (s :: rest)
  | _ :: _ => raise (TypeError (Text "sequence item: expected str instance"))
  end.

(** [sep.join(v)] *)
Definition py_join (sep : string) (v : value) : result string :=
  match py_iter v with
  | inl _ => raise (TypeError (Text "can only join an iterable"))
  | inr items => strs <- str_items items ;; ret (String.concat sep strs)
  end.

(** ** app/workflows/summarization.py

    [str.split] (without arguments) is taken as given. *)

Module Summarization.

Section Tools.

Variable split : string -> list string.

(** [text.split()] for any value. *)
Definition py_split (v : value) : result (list string) :=
  match v with
  | VStr s => ret (split s)
  | _ => raise (no_attribute v "split")
  end.

Definition split_text_tool : NodeFn :=
  {| fn_name := "split_text_tool";
     call := fun state =>
       let text := dict_get_default state "text" (VStr "") in
       let chunk_size := dict_get_default state "chunk_size" (VInt 100) in
       let chunks :=
         words <- py_split text ;;
         step <- py_index chunk_size ;;
         starts <- py_range_from_0 (length words) step ;;
         ret ((fun i => VStr (String.concat " " (slice_from i (Z.to_nat step) words)))
                <$> starts) in
       match chunks with
       | inl e => Raises e
       | inr chunks =>
           let state := <["chunks" := VList chunks]> state in
           let state := <["partial_summaries" := VList []]> state in
           let state := setdefault state "summary" (VStr "") in
           ReturnDict state
       end |}.

(** The body of the loop over the chunks. *)
Fixpoint summarize (chunks : list value) : result (list value) :=
  match chunks with
  | [] => ret []
  | chunk :: chunks' =>
      words <- py_split chunk ;;
      rest <- summarize chunks' ;;
      ret (VStr (String.concat " " (slice_to 20 words) ++ "...") :: rest)
  end.

Definition summarize_chunks_tool : NodeFn :=
  {| fn_name := "summarize_chunks_tool";
     call := fun state =>
       let summaries :=
         chunks <- py_iter (dict_get_default state "chunks" (VList [])) ;;
         summarize chunks in
       match summaries with
       | inl e => Raises e
       | inr summaries => ReturnDict (<["partial_summaries" := VList summaries]> state)
       end |}.

Definition merge_summaries_tool : NodeFn :=
  {| fn_name := "merge_summaries_tool";
     call := fun state =>
       match py_join " " (dict_get_default state "partial_summaries" (VList [])) with
       | inl e => Raises e
       | inr merged => ReturnDict (<["summary" := VStr merged]> state)
       end |}.

Definition refine_summary_tool : NodeFn :=
  {| fn_name := "refine_summary_tool";
     call := fun state =>
       let summary := dict_get_default state "summary" (VStr "") in
       let target_length := dict_get_default state "max_length" (VInt 150) in
       let refined :=
         words <- py_split summary ;;
         longer <- compare_values Gt (VInt (Z.of_nat (length words))) target_length ;;
         if longer : bool
         then stop <- py_index target_length ;; ret (slice_to stop words)
         else ret words in
       match refined with
       | inl e => Raises e
       | inr words =>
           let state := <["summary" := VStr (String.concat " " words)]> state in
           let state := <["summary_length" := VInt (Z.of_nat (length words))]> state in
           ReturnDict state
       end |}.

Definition register_summarization_tools (tool_registry : ToolRegistry.t)
    : ToolRegistry.t :=
  ToolRegistry.register "refine_summary" refine_summary_tool
    (ToolRegistry.register "merge_summaries" merge_summaries_tool
       (ToolRegistry.register "summarize_chunks" summarize_chunks_tool
          (ToolRegistry.register "split_text" split_text_tool tool_registry))).

(** The conditional edge of [refine_summary]. *)
Definition short_enough : gmap string value :=
  {[ "type" := VStr "conditional"; "key" := VStr "summary_length"; "op" := VStr "<=";
     "value" := VInt 150; "true" := VNone; "false" := VStr "refine_summary" ]}.

Definition create_summarization_graph (tool_registry : ToolRegistry.t)
    (graph_id : string) : result Graph :=
  split_text <- ToolRegistry.get "split_text" tool_registry ;;
  summarize_chunks <- ToolRegistry.get "summarize_chunks" tool_registry ;;
  merge_summaries <- ToolRegistry.get "merge_summaries" tool_registry ;;
  refine_summary <- ToolRegistry.get "refine_summary" tool_registry ;;
  let nodes : gmap string NodeFn :=
    {[ "split_text" := split_text;
       "summarize_chunks" := summarize_chunks;
       "merge_summaries" := merge_summaries;
       "refine_summary" := refine_summary ]} in
  let edges : gmap string Edge :=
    {[ "split_text" := EdgeStr "summarize_chunks";
       "summarize_chunks" := EdgeStr "merge_summaries";
       "merge_summaries" := EdgeStr "refine_summary";
       "refine_summary" := EdgeDict short_enough ]} in
  ret {| graph_id := graph_id; nodes := nodes; edges := edges;
         start_node := "split_text"; max_steps := 20 |}.

(** The graph that [create_summarization_graph] gives once the tools
    are registered. *)
Definition example_graph (graph_id : string) : Graph :=
  {| graph_id := graph_id;
     nodes := {[ "split_text" := split_text_tool;
                 "summarize_chunks" := summarize_chunks_tool;
                 "merge_summaries" := merge_summaries_tool;
                 "refine_summary" := refine_summary_tool ]};
     edges := {[ "split_text" := EdgeStr "summarize_chunks";
                 "summarize_chunks" := EdgeStr "merge_summaries";
                 "merge_summaries" := EdgeStr "refine_summary";
                 "refine_summary" := EdgeDict short_enough ]};
     start_node := "split_text"; max_steps := 20 |}.

End Tools.

End Summarization.

(** The partial summary that [summarize_chunks_tool] makes of a chunk:
    its first 20 words and an ellipsis. *)
Definition partial_summary (split : string -> list string) (chunk : string) : string :=
  String.concat " " (slice_to 20 (split chunk)) ++ "...".

(** A stand-in for [str.split] in examples: the text as one word, none
    for the empty text. *)
Definition one_word (text : string) : list string :=
  if String.eqb text "" then [] else [text].

(** A state for the summarization workflow. *)
Definition short_text : State := {[ "text" := VStr "hello"; "chunk_size" := VInt 3 ]}.
(** * Properties *)

(** ** The condition evaluator *)

Lemma py_order_defined (o : ordop) (a b : value) :
  py_order o a b = None <-> mutually_ordered a b = false.
Proof.
  revert b.
  induction a as [ | c | z | s | l IH | | v l IHv IHl ]
    using value_rect'
    with (Q := fun l => forall m,
      py_order o (VList l) (VList m) = None <->
      mutually_ordered (VList l) (VList m) = false).
  - intros b; destruct b; simpl; split; congruence.
  - intros b; destruct b; simpl; split; congruence.
  - intros b; destruct b; simpl; split; congruence.
  - intros b; destruct b; simpl; split; congruence.
  - intros b; destruct b; try (simpl; split; congruence). apply IH.
  - intros b; destruct b; simpl; split; congruence.
  - intros b; destruct b as [ | y m ]; [ simpl; split; congruence | ].
    specialize (IHl m). specialize (IHv y). simpl in *.
    destruct (py_eq v y); assumption.
Qed.

Lemma py_eq_None_l (v : value) : py_eq VNone v = is_None v.
Proof. destruct v; reflexivity. Qed.

Lemma ordop_symbol_dispatch (o : ordop) (left value : value) (k1 k2 : result bool) :
  (if py_eq (VStr (ordop_symbol o)) (VStr "==") then k1 else
   if py_eq (VStr (ordop_symbol o)) (VStr "!=") then k2 else
   if py_eq (VStr (ordop_symbol o)) (VStr ">") then compare_values Gt left value else
   if py_eq (VStr (ordop_symbol o)) (VStr "<") then compare_values Lt_ left value else
   if py_eq (VStr (ordop_symbol o)) (VStr ">=") then compare_values Ge left value else
   if py_eq (VStr (ordop_symbol o)) (VStr "<=") then compare_values Le left value else
   raise (ValueError (UnsupportedOperator (VStr (ordop_symbol o)))))
  = compare_values o left value.
Proof. destruct o; reflexivity. Qed.

(** With an ordering operator, the evaluator is the comparison of the
    state's value with the literal. *)
Lemma evaluate_condition_ordering (state spec : State) (k : string) (o : ordop) :
  spec !! "key" = Some (VStr k) ->
  spec !! "op" = Some (VStr (ordop_symbol o)) ->
  _evaluate_condition state spec
  = compare_values o (dict_get state k) (dict_get spec "value").
Proof.
  intros Hkey Hop. unfold _evaluate_condition. cbv zeta.
  replace (dict_get spec "key") with (VStr k)
    by (unfold dict_get; rewrite Hkey; reflexivity).
  replace (dict_get_default spec "op" (VStr "==")) with (VStr (ordop_symbol o))
    by (unfold dict_get_default; rewrite Hop; reflexivity).
  cbn [is_None state_get bind]. apply ordop_symbol_dispatch.
Qed.

(** ** The run loop *)

Lemma last_cons_default {A : Type} (l : list A) (a d : A) :
  List.last (a :: l) d = List.last l a.
Proof.
  revert a d. induction l as [ | x l IH ]; intros a d; [ reflexivity | ].
  change (List.last (a :: x :: l) d) with (List.last (x :: l) d).
  rewrite (IH x d), (IH x a). reflexivity.
Qed.

Lemma last_state_cons (state : State) (name : string) (state' : State)
    (hist : list (string * State)) :
  last_state state ((name, state') :: hist) = last_state state' hist.
Proof. unfold last_state. rewrite fmap_cons. apply last_cons_default. Qed.

Lemma threaded_snoc (graph : Graph) (state : State) (hist : list (string * State))
    (name : string) (state' : State) :
  threaded graph state (hist ++ [(name, state')]) <->
  threaded graph state hist
  /\ exists node_fn, nodes graph !! name = Some node_fn
                     /\ call node_fn (last_state state hist) = ReturnDict state'.
Proof.
  revert state. induction hist as [ | [n s] hist IH ]; intros state; simpl.
  - unfold last_state; simpl. tauto.
  - rewrite IH, last_state_cons. tauto.
Qed.

Lemma last_state_snoc (state : State) (hist : list (string * State))
    (name : string) (state' : State) :
  last_state state (hist ++ [(name, state')]) = state'.
Proof. unfold last_state. rewrite fmap_app. simpl. apply last_last. Qed.

Lemma lookup_node_inr (graph : Graph) (current : value) (name : string) (node_fn : NodeFn) :
  lookup_node graph current = ret (name, node_fn) ->
  current = VStr name /\ nodes graph !! name = Some node_fn.
Proof.
  unfold lookup_node. destruct current as [ | | | s | ]; try discriminate.
  destruct (nodes graph !! s) eqn:E; [ | discriminate ].
  intros [= <- <-]. auto.
Qed.

Lemma call_node_inr (node_fn : NodeFn) (state state' : State) :
  _call_node node_fn state = ret state' -> call node_fn state = ReturnDict state'.
Proof.
  unfold _call_node. destruct (call node_fn state); [ | discriminate .. ].
  intros [= ->]. reflexivity.
Qed.

Lemma guard_true (graph : Graph) (l : locals) :
  negb (is_None (l_current l)) && (l_steps l <? max_steps graph) = true <->
  l_current l <> VNone /\ l_steps l < max_steps graph.
Proof.
  rewrite andb_true_iff, negb_true_iff, Z.ltb_lt.
  destruct (l_current l); simpl; intuition congruence.
Qed.

Lemma guard_false (graph : Graph) (l : locals) :
  negb (is_None (l_current l)) && (l_steps l <? max_steps graph) = false <->
  l_current l = VNone \/ max_steps graph <= l_steps l.
Proof.
  rewrite andb_false_iff, negb_false_iff, Z.ltb_ge.
  destruct (l_current l); simpl; intuition congruence.
Qed.

(** Under the guard, the loop makes a pass. *)
Lemma while_loop_pass (graph : Graph) (fuel : nat) (l : locals) :
  l_current l <> VNone -> l_steps l < max_steps graph ->
  while_loop (S fuel) graph l
  = match loop_body graph l with
    | Continue l' => while_loop fuel graph l'
    | Break l' => Some (Broke l')
    | Raise e l' => Some (Raised e l')
    end.
Proof.
  intros Hcur Hlt. simpl.
  replace (negb (is_None (l_current l)) && (l_steps l <? max_steps graph)) with true
    by (symmetry; apply guard_true; auto).
  reflexivity.
Qed.

(** One pass through the body, started under the guard with the
    invariant, re-establishes the invariant or leaves the loop in a state
    that [loop_post] describes. *)
Lemma loop_body_spec (graph : Graph) (initial_state : State) (l : locals) :
  loop_inv graph initial_state l ->
  l_current l <> VNone -> l_steps l < max_steps graph ->
  match loop_body graph l with
  | Continue l' => loop_inv graph initial_state l' /\ l_steps l' = l_steps l + 1
  | Break l' => loop_post graph initial_state (Broke l')
  | Raise e l' => loop_post graph initial_state (Raised e l')
  end.
Proof.
  intros [(Hlog & Hlen & Hthr & Hst) [Hcalls Hbound]] Hcur Hlt.
  unfold loop_body.
  destruct (lookup_node graph (l_current l)) as [ e | [current node_fn] ] eqn:Hnode.
  { simpl. lia. }
  apply lookup_node_inr in Hnode as [Hname Hfn].
  destruct (_call_node node_fn (l_state l)) as [ e | state ] eqn:Hcall.
  { simpl. lia. }
  apply call_node_inr in Hcall.
  assert (Hghost : forall target steps,
    ghost_ok graph initial_state
      {| l_state := state; l_log := (l_log l ++ [current])%list;
         l_current := target; l_steps := steps;
         l_calls := S (l_calls l);
         l_hist := (l_hist l ++ [(current, state)])%list |}).
  { intros target steps. unfold ghost_ok; simpl.
    rewrite fmap_app, length_app, last_state_snoc, threaded_snoc. simpl.
    repeat split; [ congruence | lia | assumption | ].
    exists node_fn. rewrite <- Hst. auto. }
  destruct (edges graph !! current) as [ [ target | edge | ] | ].
  - split; [ | reflexivity ].
    split; [ apply Hghost | ]. simpl. lia.
  - destruct (py_eq (dict_get edge "type") (VStr "conditional")).
    + destruct (_evaluate_condition state edge) as [ e | cond_result ].
      { simpl. lia. }
      destruct (dict_item edge (if cond_result then "true" else "false")) as [ e | target ].
      { simpl. lia. }
      split; [ | reflexivity ].
      split; [ apply Hghost | ]. simpl. lia.
    + simpl. lia.
  - simpl. split; [ apply Hghost | ]. repeat split; [ lia | assumption | assumption ].
  - simpl. split; [ apply Hghost | ]. repeat split; [ lia | assumption | assumption ].
Qed.

Lemma entry_inv (graph : Graph) (initial_state : State) :
  loop_inv graph initial_state (entry graph initial_state).
Proof.
  unfold loop_inv, ghost_ok, entry, last_state; simpl.
  repeat split; try reflexivity. lia.
Qed.

(** More fuel does not change how the loop ends. *)
Lemma while_loop_mono (graph : Graph) (fuel fuel' : nat) (l : locals) (o : outcome) :
  while_loop fuel graph l = Some o -> (fuel <= fuel')%nat ->
  while_loop fuel' graph l = Some o.
Proof.
  revert fuel' l. induction fuel as [ | fuel IH ]; intros fuel' l H Hle.
  - destruct fuel'; simpl in *;
      destruct (negb (is_None (l_current l)) && (l_steps l <? max_steps graph));
      congruence.
  - destruct fuel' as [ | fuel' ]; [ lia | ]. simpl in *.
    destruct (negb (is_None (l_current l)) && (l_steps l <? max_steps graph));
      [ | assumption ].
    destruct (loop_body graph l); [ | assumption .. ].
    apply IH; [ assumption | lia ].
Qed.

(** With the invariant, fuel for the passes that the bound still allows
    is enough, and the loop ends as [loop_post] says. *)
Lemma while_loop_fuel_enough (graph : Graph) (initial_state : State)
    (fuel : nat) (l : locals) :
  loop_inv graph initial_state l ->
  (Z.to_nat (max_steps graph - l_steps l) <= fuel)%nat ->
  exists o, while_loop fuel graph l = Some o /\ loop_post graph initial_state o.
Proof.
  revert l. induction fuel as [ | fuel IH ]; intros l Hinv Hfuel.
  - simpl.
    destruct (negb (is_None (l_current l)) && (l_steps l <? max_steps graph)) eqn:G.
    + apply guard_true in G. lia.
    + apply guard_false in G. exists (Exited l). simpl. auto.
  - simpl.
    destruct (negb (is_None (l_current l)) && (l_steps l <? max_steps graph)) eqn:G.
    + apply guard_true in G as [Hcur Hlt].
      pose proof (loop_body_spec graph initial_state l Hinv Hcur Hlt) as Hbody.
      destruct (loop_body graph l) as [ l' | l' | e l' ].
      * destruct Hbody as [Hinv' Hsteps]. apply IH; [ assumption | lia ].
      * eauto.
      * eauto.
    + apply guard_false in G. exists (Exited l). simpl. auto.
Qed.

(** The way the loop ends does not depend on the fuel. *)
Lemma while_loop_deterministic (graph : Graph) (fuel fuel' : nat) (l : locals)
    (o o' : outcome) :
  while_loop fuel graph l = Some o -> while_loop fuel' graph l = Some o' -> o = o'.
Proof.
  intros H H'.
  apply (while_loop_mono graph fuel (Nat.max fuel fuel')) in H; [ | lia ].
  apply (while_loop_mono graph fuel' (Nat.max fuel fuel')) in H'; [ | lia ].
  congruence.
Qed.

(** The loop of a run ends, within the fuel that [run_graph] gives it. *)
Lemma run_loop_ends (graph : Graph) (initial_state : State) :
  exists o,
    while_loop (Z.to_nat (max_steps graph)) graph (entry graph initial_state) = Some o
    /\ loop_post graph initial_state o.
Proof.
  apply while_loop_fuel_enough; [ apply entry_inv | ].
  unfold entry; simpl. rewrite Z.sub_0_r. lia.
Qed.

Lemma reaches_while_loop (graph : Graph) (l l' : locals) :
  reaches graph l l' ->
  forall fuel o, while_loop fuel graph l' = Some o ->
  exists fuel', while_loop fuel' graph l = Some o.
Proof.
  induction 1 as [ l | l l1 l' G Hbody _ IH ]; intros fuel o Ho.
  - eauto.
  - destruct (IH fuel o Ho) as [fuel1 H1].
    exists (S fuel1). simpl. rewrite G, Hbody. exact H1.
Qed.

(** C1: for every graph, cyclic or not, and every initial state,
    [run_graph] terminates: the loop leaves within the fuel of
    [max_steps] passes, so the run gives a result or an exception.  The
    number of node-function calls is at most [max_steps], and when a
    result is returned it equals the length of the trace. *)
Theorem run_graph_terminates_within_bound (graph : Graph) (initial_state : State) :
  exists o,
    while_loop (Z.to_nat (max_steps graph)) graph (entry graph initial_state) = Some o
    /\ run_graph graph initial_state = Some (result_of graph o)
    /\ (l_calls (locals_of o) <= Z.to_nat (max_steps graph))%nat
    /\ match o with
       | Exited l | Broke l => length (l_log l) = l_calls l
       | Raised _ _ => True
       end.
Proof.
  destruct (run_loop_ends graph initial_state) as (o & Hloop & Hpost).
  exists o. split; [ exact Hloop | ]. split.
  { unfold run_graph, run_graph_fuel. rewrite Hloop. reflexivity. }
  destruct o as [ l | l | e l ]; simpl in *.
  - destruct Hpost as [[(Hlog & Hlen & _) [Hcalls Hbound]] _].
    split; [ lia | ]. rewrite Hlog, length_fmap. exact Hlen.
  - destruct Hpost as ((Hlog & Hlen & _) & Hcalls & Hlt & _).
    split; [ lia | ]. rewrite Hlog, length_fmap. exact Hlen.
  - split; [ lia | exact I ].
Qed.

(** An unconditional cycle is cut after [max_steps] node executions. *)
Lemma unconditional_cycle_is_cut :
  exists l,
    while_loop 5 Scenarios.unconditional_cycle (entry Scenarios.unconditional_cycle ∅)
      = Some (Exited l)
    /\ status_of (Exited l) = Aborted_step_bound_reached
    /\ l_log l = ["a"; "b"; "a"; "b"; "a"]
    /\ l_calls l = 5%nat
    /\ l_state l !! "count" = Some (VInt 3).
Proof. eexists. split; [ vm_compute; reflexivity | ]. vm_compute. auto 10. Qed.

Lemma finish_execution_log (graph : Graph) (l : locals) :
  final_state (finish graph l) !! "_execution_log" = Some (VList (VStr <$> l_log l)).
Proof. unfold finish; simpl. apply lookup_insert_eq. Qed.

Lemma finish_warning (graph : Graph) (l : locals) :
  final_state (finish graph l) !! "_warning"
  = if max_steps graph <=? l_steps l
    then Some (VStr (warning_text graph))
    else l_state l !! "_warning".
Proof.
  unfold finish; simpl. rewrite lookup_insert_ne by discriminate.
  destruct (max_steps graph <=? l_steps l); [ apply lookup_insert_eq | reflexivity ].
Qed.

(** C4: when [run_graph] returns a result, its trace has one entry per
    node execution, entry [i] is the name of the node whose step produced
    the [i]-th state, each step having received the state returned by the
    step before it, and the [_execution_log] field of the final state is
    that trace. *)
Theorem run_graph_trace_correct (graph : Graph) (initial_state : State) (r : RunResult) :
  run_graph graph initial_state = Some (ret r) ->
  trace_correct graph initial_state r.
Proof.
  destruct (run_loop_ends graph initial_state) as (o & Hloop & Hpost).
  unfold run_graph, run_graph_fuel. rewrite Hloop. simpl. intros Hr.
  assert (Hghost : forall l, ghost_ok graph initial_state l ->
            result_of graph o = ret (finish graph l) ->
            (o = Exited l \/ o = Broke l) ->
            trace_correct graph initial_state r).
  { intros l (Hlog & Hlen & Hthr & Hst) Hfin Ho. exists l.
    assert (r = finish graph l) as -> by congruence.
    split; [ destruct Ho as [-> | ->]; auto | ].
    split; [ reflexivity | ]. simpl.
    split; [ rewrite Hlog, length_fmap; exact Hlen | ].
    repeat split; try assumption. apply finish_execution_log. }
  destruct o as [ l | l | e l ]; simpl in *.
  - apply (Hghost l); [ apply Hpost | reflexivity | auto ].
  - apply (Hghost l); [ apply Hpost | reflexivity | auto ].
  - congruence.
Qed.

(** Scenario A: the linear graph gives the state with [a], [b] and [c]
    set and the trace [a, b, c], and that trace is correct. *)
Lemma run_graph_trace_correct_scenario_A :
  run_graph Scenarios.linear_abc ∅ = Some (ret scenario_A_result)
  /\ trace_correct Scenarios.linear_abc ∅ scenario_A_result.
Proof.
  split; [ vm_compute; reflexivity | ].
  apply (run_graph_trace_correct Scenarios.linear_abc ∅ scenario_A_result).
  vm_compute; reflexivity.
Defined.

(** C8: when the loop comes to the top of a pass, still under the step
    bound, with a current node name that is not a key of [graph.nodes],
    [run_graph] raises the [ValueError] whose message names that node,
    and the caller gets no result. *)
Theorem run_graph_unknown_node (graph : Graph) (initial_state : State)
    (l : locals) (x : string) :
  reaches graph (entry graph initial_state) l ->
  l_current l = VStr x ->
  l_steps l < max_steps graph ->
  nodes graph !! x = None ->
  run_graph graph initial_state = Some (raise (ValueError (NodeNotFound (VStr x)))).
Proof.
  intros Hreach Hcur Hlt Hnone.
  assert (Hl : while_loop 1 graph l = Some (Raised (ValueError (NodeNotFound (VStr x))) l)).
  { rewrite while_loop_pass by (rewrite ?Hcur; auto; discriminate).
    unfold loop_body, lookup_node. rewrite Hcur, Hnone. reflexivity. }
  destruct (reaches_while_loop graph _ _ Hreach _ _ Hl) as [fuel Hfuel].
  destruct (run_loop_ends graph initial_state) as (o & Hloop & _).
  rewrite (while_loop_deterministic graph _ _ _ _ _ Hloop Hfuel) in Hloop.
  unfold run_graph, run_graph_fuel. rewrite Hloop. reflexivity.
Qed.

(** Scenario D: after node [a], the edge leads to [x], which is not a
    node, and the run fails naming [x]. *)
Lemma run_graph_unknown_node_scenario_D :
  reaches Scenarios.dangling_edge (entry Scenarios.dangling_edge ∅) scenario_D_second_pass
  /\ run_graph Scenarios.dangling_edge ∅
     = Some (raise (ValueError (NodeNotFound (VStr "x")))).
Proof.
  assert (H : reaches Scenarios.dangling_edge (entry Scenarios.dangling_edge ∅)
                scenario_D_second_pass).
  { eapply reaches_pass; [ vm_compute; reflexivity | vm_compute; reflexivity | ].
    apply reaches_here. }
  split; [ exact H | ].
  apply (run_graph_unknown_node Scenarios.dangling_edge ∅ scenario_D_second_pass "x" H).
  - reflexivity.
  - vm_compute; reflexivity.
  - vm_compute; reflexivity.
Defined.

(** ** The warning marker *)

(** A run that the step bound cut short returns a state with the
    warning. *)
Lemma aborted_run_carries_warning (graph : Graph) (initial_state : State) (o : outcome) :
  loop_post graph initial_state o ->
  status_of o = Aborted_step_bound_reached ->
  exists r, result_of graph o = ret r
            /\ final_state r !! "_warning" = Some (VStr (warning_text graph)).
Proof.
  destruct o as [ l | l | e l ]; simpl; try discriminate.
  intros [_ Hexit] Hstatus. exists (finish graph l). split; [ reflexivity | ].
  rewrite finish_warning.
  destruct Hexit as [Hnone | Hbound].
  - rewrite Hnone in Hstatus. discriminate.
  - apply Z.leb_le in Hbound. rewrite Hbound. reflexivity.
Qed.

(** A run that ends with fewer than [max_steps] edges followed gets no
    warning from the engine: the field is as the last step left it. *)
Lemma early_end_adds_no_warning (graph : Graph) (l : locals) :
  l_steps l < max_steps graph ->
  final_state (finish graph l) !! "_warning" = l_state l !! "_warning".
Proof.
  intros Hlt. rewrite finish_warning.
  apply Z.leb_gt in Hlt. rewrite Hlt. reflexivity.
Qed.

(** A [break] always comes before the bound. *)
Lemma break_adds_no_warning (graph : Graph) (initial_state : State) (l : locals) :
  loop_post graph initial_state (Broke l) ->
  final_state (finish graph l) !! "_warning" = l_state l !! "_warning".
Proof. intros (_ & _ & Hlt & _). apply early_end_adds_no_warning, Hlt. Qed.

(** Scenario B: the trace is [a, a, a], [count] is 3, the run followed
    the terminate sentinel and carries no warning. *)
Lemma scenario_B :
  exists l,
    while_loop 100 Scenarios.count_to_three (entry Scenarios.count_to_three ∅)
      = Some (Exited l)
    /\ run_graph Scenarios.count_to_three ∅ = Some (ret (finish Scenarios.count_to_three l))
    /\ status_of (Exited l) = Terminated_explicit_end
    /\ l_log l = ["a"; "a"; "a"]
    /\ l_state l !! "count" = Some (VInt 3)
    /\ final_state (finish Scenarios.count_to_three l) !! "_warning" = None.
Proof. eexists. split; [ vm_compute; reflexivity | ]. vm_compute. auto 10. Qed.

(** Scenario C: the run is cut at the bound 5 with a trace of length 5
    and the warning. *)
Lemma scenario_C :
  exists l,
    while_loop 5 Scenarios.never_satisfied (entry Scenarios.never_satisfied ∅)
      = Some (Exited l)
    /\ run_graph Scenarios.never_satisfied ∅
       = Some (ret (finish Scenarios.never_satisfied l))
    /\ status_of (Exited l) = Aborted_step_bound_reached
    /\ length (l_log l) = 5%nat
    /\ final_state (finish Scenarios.never_satisfied l) !! "_warning"
       = Some (VStr "Stopped after reaching max_steps=5").
Proof. eexists. split; [ vm_compute; reflexivity | ]. vm_compute. auto 10. Qed.

(** C2, at the bound: Scenario B with [max_steps = 3].  The third pass
    follows the terminate sentinel ([current] becomes [None]) with trace
    [a, a, a] and [count = 3], as in Scenario B, but [steps] has become
    3 on that pass and the code after the loop adds the warning to a run
    that the bound did not cut short. *)
Theorem explicit_end_at_bound_carries_warning :
  exists l,
    while_loop 3 Scenarios.count_to_three_bound_3
      (entry Scenarios.count_to_three_bound_3 ∅) = Some (Exited l)
    /\ run_graph Scenarios.count_to_three_bound_3 ∅
       = Some (ret (finish Scenarios.count_to_three_bound_3 l))
    /\ status_of (Exited l) = Terminated_explicit_end
    /\ l_current l = VNone
    /\ l_log l = ["a"; "a"; "a"]
    /\ l_state l !! "count" = Some (VInt 3)
    /\ final_state (finish Scenarios.count_to_three_bound_3 l) !! "_warning"
       = Some (VStr "Stopped after reaching max_steps=3").
Proof. eexists. split; [ vm_compute; reflexivity | ]. vm_compute. auto 10. Qed.

(** ** The condition evaluator, continued *)

(** C6: with an ordering operator, when the value read from the state
    for the key and the literal are not mutually ordered, the evaluator
    raises a [TypeError] and returns no boolean. *)
Theorem evaluate_condition_type_mismatch (state spec : State) (k : string) (o : ordop) :
  spec !! "key" = Some (VStr k) ->
  spec !! "op" = Some (VStr (ordop_symbol o)) ->
  mutually_ordered (dict_get state k) (dict_get spec "value") = false ->
  _evaluate_condition state spec
  = raise (TypeError (NotSupportedBetween o (dict_get state k) (dict_get spec "value"))).
Proof.
  intros Hkey Hop Hord.
  rewrite (evaluate_condition_ordering state spec k o Hkey Hop).
  unfold compare_values. apply (py_order_defined o) in Hord. rewrite Hord. reflexivity.
Qed.

(** Scenario E: a string state value against a number with [>=]. *)
Lemma evaluate_condition_type_mismatch_scenario_E :
  mutually_ordered (VStr "high") (VInt 80) = false
  /\ _evaluate_condition {[ "grade" := VStr "high" ]}
       (Scenarios.until "grade" ">=" (VInt 80))
     = raise (TypeError (NotSupportedBetween Ge (VStr "high") (VInt 80))).
Proof.
  split; [ reflexivity | ].
  exact (evaluate_condition_type_mismatch
           {[ "grade" := VStr "high" ]} (Scenarios.until "grade" ">=" (VInt 80))
           "grade" Ge eq_refl eq_refl eq_refl).
Defined.

(** Scenario E as a run: the exception leaves [run_graph]. *)
Lemma scenario_E :
  run_graph Scenarios.string_against_number ∅
  = Some (raise (TypeError (NotSupportedBetween Ge (VStr "high") (VInt 80)))).
Proof. vm_compute; reflexivity. Qed.

(** C10: when the key is absent from the state, [==] and [!=] do not
    raise: the state reads as [None], [==] is true exactly when the
    literal is [None], and [!=] is its negation. *)
Theorem evaluate_condition_absent_key (state spec : State) (k : string) :
  spec !! "key" = Some (VStr k) ->
  state !! k = None ->
  (dict_get_default spec "op" (VStr "==") = VStr "==" ->
   _evaluate_condition state spec = ret (is_None (dict_get spec "value")))
  /\ (spec !! "op" = Some (VStr "!=") ->
      _evaluate_condition state spec = ret (negb (is_None (dict_get spec "value")))).
Proof.
  intros Hkey Habsent.
  assert (Hget : dict_get spec "key" = VStr k)
    by (unfold dict_get; rewrite Hkey; reflexivity).
  assert (Hleft : dict_get state k = VNone)
    by (unfold dict_get; rewrite Habsent; reflexivity).
  split; intros Hop; unfold _evaluate_condition; cbv zeta.
  - rewrite Hget, Hop. cbn [is_None state_get bind]. rewrite Hleft.
    change (py_eq (VStr "==") (VStr "==")) with true. cbv iota.
    rewrite py_eq_None_l. reflexivity.
  - replace (dict_get_default spec "op" (VStr "==")) with (VStr "!=")
      by (unfold dict_get_default; rewrite Hop; reflexivity).
    rewrite Hget. cbn [is_None state_get bind]. rewrite Hleft.
    change (py_eq (VStr "!=") (VStr "==")) with false.
    change (py_eq (VStr "!=") (VStr "!=")) with true. cbv iota.
    rewrite py_eq_None_l. reflexivity.
Qed.

(** Two instances: a defaulted [==] against [None], and [!=] against a
    number, both on a state without the key. *)
Lemma evaluate_condition_absent_key_examples :
  _evaluate_condition ∅ {[ "key" := VStr "k"; "value" := VNone ]} = ret true
  /\ _evaluate_condition {[ "other" := VInt 1 ]}
       {[ "key" := VStr "k"; "op" := VStr "!="; "value" := VInt 3 ]} = ret true.
Proof.
  split.
  - exact (proj1 (evaluate_condition_absent_key
                    ∅ {[ "key" := VStr "k"; "value" := VNone ]} "k" eq_refl eq_refl)
             eq_refl).
  - exact (proj2 (evaluate_condition_absent_key
                    {[ "other" := VInt 1 ]}
                    {[ "key" := VStr "k"; "op" := VStr "!="; "value" := VInt 3 ]}
                    "k" eq_refl eq_refl)
             eq_refl).
Defined.

(** ** The tool registry *)

Lemma after_snoc (calls : list (string * NodeFn)) (name : string) (fn : NodeFn)
    (self : ToolRegistry.t) :
  ToolRegistry.after (calls ++ [(name, fn)]) self
  = ToolRegistry.register name fn (ToolRegistry.after calls self).
Proof. unfold ToolRegistry.after. rewrite foldl_app. reflexivity. Qed.

(** The names bound after a sequence of [register] calls on the empty
    registry are the names of those calls. *)
Lemma after_bound (calls : list (string * NodeFn)) (name : string) :
  is_Some (ToolRegistry._tools (ToolRegistry.after calls ToolRegistry.__init__) !! name)
  <-> name ∈ calls.*1.
Proof.
  induction calls as [ | [n fn] calls IH ] using rev_ind.
  - simpl. rewrite lookup_empty, elem_of_nil. split; [ intros [? [=]] | tauto ].
  - rewrite after_snoc, fmap_app, elem_of_app. simpl.
    rewrite lookup_insert_is_Some, IH, list_elem_of_singleton.
    destruct (decide (n = name)); intuition congruence.
Qed.

(** C9: [get] right after [register] returns the registered function; a
    second [register] of the same name replaces the first, and the later
    function stays the one returned while other names are registered;
    [get] raises [KeyError] exactly when no [register] call for the name
    was made. *)
Theorem registry_register_get (name : string) (fn fn' : NodeFn) (self : ToolRegistry.t) :
  ToolRegistry.get name (ToolRegistry.register name fn self) = ret fn
  /\ ToolRegistry.get name
       (ToolRegistry.register name fn' (ToolRegistry.register name fn self)) = ret fn'
  /\ (forall calls : list (string * NodeFn),
        name ∉ calls.*1 ->
        ToolRegistry.get name
          (ToolRegistry.after calls (ToolRegistry.register name fn' self)) = ret fn')
  /\ (forall calls : list (string * NodeFn),
        ToolRegistry.get name (ToolRegistry.after calls ToolRegistry.__init__)
        = raise (KeyError (ToolNotRegistered name))
        <-> name ∉ calls.*1)
  /\ (forall calls : list (string * NodeFn),
        (exists e, ToolRegistry.get name (ToolRegistry.after calls ToolRegistry.__init__)
                   = raise e)
        <-> name ∉ calls.*1).
Proof.
  assert (Hget : forall calls,
            ToolRegistry.get name (ToolRegistry.after calls ToolRegistry.__init__)
            = match ToolRegistry._tools
                      (ToolRegistry.after calls ToolRegistry.__init__) !! name with
              | None => raise (KeyError (ToolNotRegistered name))
              | Some f => ret f
              end) by reflexivity.
  split; [ | split; [ | split; [ | split ] ] ].
  - unfold ToolRegistry.get, ToolRegistry.register; simpl.
    rewrite lookup_insert_eq. reflexivity.
  - unfold ToolRegistry.get, ToolRegistry.register; simpl.
    rewrite lookup_insert_eq. reflexivity.
  - intros calls. induction calls as [ | [n f] calls IH ] using rev_ind; intros Hnot.
    + unfold ToolRegistry.get, ToolRegistry.register; simpl.
      rewrite lookup_insert_eq. reflexivity.
    + rewrite fmap_app, elem_of_app in Hnot. simpl in Hnot.
      rewrite list_elem_of_singleton in Hnot.
      rewrite after_snoc. unfold ToolRegistry.get, ToolRegistry.register; simpl.
      rewrite lookup_insert_ne by (intros ->; tauto).
      apply IH. tauto.
  - intros calls. rewrite Hget, <- after_bound.
    destruct (ToolRegistry._tools (ToolRegistry.after calls ToolRegistry.__init__) !! name)
      as [ f | ]; split.
    + discriminate.
    + intros H. exfalso. apply H. eauto.
    + intros _ [? [=]].
    + reflexivity.
  - intros calls. rewrite Hget, <- after_bound.
    destruct (ToolRegistry._tools (ToolRegistry.after calls ToolRegistry.__init__) !! name)
      as [ f | ]; split.
    + intros [e [=]].
    + intros H. exfalso. apply H. eauto.
    + intros _ [? [=]].
    + eauto.
Qed.

(** An instance: a registered tool is still returned after another
    name is registered. *)
Lemma registry_register_get_example :
  ("t" ∉ [("u", Scenarios.set_grade)].*1)
  /\ ToolRegistry.get "t"
       (ToolRegistry.after [("u", Scenarios.set_grade)]
          (ToolRegistry.register "t" Scenarios.increment_count ToolRegistry.__init__))
     = ret Scenarios.increment_count.
Proof.
  assert (H : "t" ∉ [("u", Scenarios.set_grade)].*1).
  { simpl. rewrite list_elem_of_singleton. discriminate. }
  split; [ exact H | ].
  exact (proj1 (proj2 (proj2 (registry_register_get "t" Scenarios.set_grade
                                Scenarios.increment_count ToolRegistry.__init__)))
           [("u", Scenarios.set_grade)] H).
Defined.

(** ** Graph construction *)

Lemma build_nodes_raise (tool_registry : ToolRegistry.t) (ns : list NodeSpec.t)
    (acc : gmap string NodeFn) (e : exn) :
  build_nodes tool_registry ns acc = raise e ->
  exists detail, e = HTTPException 400 detail.
Proof.
  revert acc. induction ns as [ | n ns IH ]; intros acc; simpl; [ discriminate | ].
  unfold ToolRegistry.get.
  destruct (ToolRegistry._tools tool_registry !! NodeSpec.tool_name n).
  - apply IH.
  - intros [= <-]. eauto.
Qed.

Lemma build_nodes_ret (tool_registry : ToolRegistry.t) (ns : list NodeSpec.t)
    (acc : gmap string NodeFn) :
  (exists nodes, build_nodes tool_registry ns acc = ret nodes)
  <-> Forall (tool_registered tool_registry) ns.
Proof.
  revert acc. induction ns as [ | n ns IH ]; intros acc; simpl.
  - split; [ constructor | eauto ].
  - rewrite Forall_cons. unfold tool_registered at 1, ToolRegistry.get.
    destruct (ToolRegistry._tools tool_registry !! NodeSpec.tool_name n) as [ fn | ].
    + rewrite IH. split; [ eauto | tauto ].
    + split; [ intros [? [=]] | intros [[? [=]] _] ].
Qed.

(** The keys of the built node mapping are the names of the node
    specifications. *)
Lemma build_nodes_keys (tool_registry : ToolRegistry.t) (ns : list NodeSpec.t)
    (acc nodes : gmap string NodeFn) (k : string) :
  build_nodes tool_registry ns acc = ret nodes ->
  is_Some (nodes !! k) <-> is_Some (acc !! k) \/ k ∈ NodeSpec.name <$> ns.
Proof.
  revert acc. induction ns as [ | n ns IH ]; intros acc; simpl.
  - intros [= ->]. rewrite elem_of_nil. tauto.
  - unfold ToolRegistry.get.
    destruct (ToolRegistry._tools tool_registry !! NodeSpec.tool_name n) as [ fn | ];
      [ | discriminate ].
    intros H. rewrite (IH _ H), lookup_insert_is_Some, elem_of_cons.
    destruct (decide (NodeSpec.name n = k)); intuition congruence.
Qed.

Lemma build_edges_raise (es : list EdgeSpec.t) (acc : gmap string Edge) (e : exn) :
  build_edges es acc = raise e ->
  exists detail, e = HTTPException 400 detail.
Proof.
  revert acc. induction es as [ | s es IH ]; intros acc; simpl; [ discriminate | ].
  destruct (EdgeSpec.type s).
  - destruct (EdgeSpec.target s); [ apply IH | intros [= <-]; eauto ].
  - destruct (_ || _ || _); [ intros [= <-]; eauto | ].
    destruct (_ && _); [ intros [= <-]; eauto | apply IH ].
Qed.

(** What the guards of the edge loop check is [well_formed_edge]. *)
Lemma edge_guards (s : EdgeSpec.t) :
  EdgeSpec.type s = EdgeSpec.conditional ->
  (bool_decide (EdgeSpec.condition_key s = None)
   || bool_decide (EdgeSpec.condition_op s = None)
   || is_None (EdgeSpec.condition_value s) = false
   /\ bool_decide (EdgeSpec.true_target s = None)
      && bool_decide (EdgeSpec.false_target s = None) = false)
  <-> well_formed_edge s.
Proof.
  intros Htype. unfold well_formed_edge. rewrite Htype.
  rewrite !orb_false_iff, andb_false_iff, !bool_decide_eq_false.
  rewrite <- !not_eq_None_Some.
  destruct (EdgeSpec.condition_value s); simpl; intuition congruence.
Qed.

Lemma build_edges_ret (es : list EdgeSpec.t) (acc : gmap string Edge) :
  (exists edges, build_edges es acc = ret edges) <-> Forall well_formed_edge es.
Proof.
  revert acc. induction es as [ | s es IH ]; intros acc; simpl.
  - split; [ constructor | eauto ].
  - rewrite Forall_cons.
    destruct (EdgeSpec.type s) eqn:Htype.
    + unfold well_formed_edge at 1. rewrite Htype.
      destruct (EdgeSpec.target s) as [ t | ].
      * rewrite IH. split; [ eauto | tauto ].
      * split; [ intros [? [=]] | intros [[? [=]] _] ].
    + rewrite <- (edge_guards s Htype).
      destruct (_ || _ || _); [ split; [ intros [? [=]] | intros [[[=] _] _] ] | ].
      destruct (_ && _); [ split; [ intros [? [=]] | intros [[_ [=]] _] ] | ].
      rewrite IH. tauto.
Qed.

(** A conditional dict among the built edges comes from a well-formed
    conditional edge specification. *)
Lemma build_edges_conditional (es : list EdgeSpec.t) (acc edges : gmap string Edge)
    (src : string) (spec : gmap string value) :
  build_edges es acc = ret edges ->
  edges !! src = Some (EdgeDict spec) ->
  acc !! src = Some (EdgeDict spec)
  \/ exists s, s ∈ es /\ well_formed_edge s
               /\ EdgeSpec.type s = EdgeSpec.conditional
               /\ spec = conditional_dict s.
Proof.
  revert acc. induction es as [ | s es IH ]; intros acc; simpl.
  - intros [= ->]. auto.
  - intros Hbuild Hlookup.
    assert (Hwf : well_formed_edge s).
    { assert (H : Forall well_formed_edge (s :: es))
        by (apply (build_edges_ret (s :: es) acc); simpl; eauto).
      apply Forall_cons in H. tauto. }
    assert (Hstep : forall edge, build_edges es (<[EdgeSpec.source s := edge]> acc) = ret edges ->
              (forall spec', edge = EdgeDict spec' ->
                 EdgeSpec.type s = EdgeSpec.conditional /\ spec' = conditional_dict s) ->
              acc !! src = Some (EdgeDict spec)
              \/ exists s', s' ∈ s :: es /\ well_formed_edge s'
                            /\ EdgeSpec.type s' = EdgeSpec.conditional
                            /\ spec = conditional_dict s').
    { intros edge H Hedge. destruct (IH _ H Hlookup) as [Hacc | (s' & Hin & Hs')].
      - rewrite lookup_insert in Hacc. case_decide.
        + right. exists s. injection Hacc as ->.
          destruct (Hedge spec eq_refl) as [? ?].
          split; [ apply elem_of_cons; auto | auto ].
        + auto.
      - right. exists s'. split; [ apply elem_of_cons; auto | auto ]. }
    destruct (EdgeSpec.type s) eqn:Htype.
    + destruct (EdgeSpec.target s); [ | discriminate ].
      apply (Hstep _ Hbuild). discriminate.
    + destruct (_ || _ || _); [ discriminate | ].
      destruct (_ && _); [ discriminate | ].
      apply (Hstep _ Hbuild). intros spec' [= <-]. auto.
Qed.

(** Construction succeeds exactly when every node names a registered
    tool and every edge is well formed; otherwise it raises an
    [HTTPException] with status 400. *)
Lemma build_graph_accepts (tool_registry : ToolRegistry.t) (uuid : string)
    (GRAPHS : gmap string Graph) (req : GraphCreateRequest.t) :
  (exists graph GRAPHS',
      build_graph_from_request tool_registry uuid GRAPHS req = ret (graph, GRAPHS'))
  <-> Forall (tool_registered tool_registry) (GraphCreateRequest.nodes req)
      /\ Forall well_formed_edge (GraphCreateRequest.edges req).
Proof.
  unfold build_graph_from_request.
  rewrite <- (build_nodes_ret tool_registry _ ∅), <- (build_edges_ret _ ∅).
  destruct (build_nodes tool_registry (GraphCreateRequest.nodes req) ∅) as [ e | ns ];
    simpl.
  - split; [ intros (? & ? & [=]) | intros [[? [=]] _] ].
  - destruct (build_edges (GraphCreateRequest.edges req) ∅) as [ e | es ]; simpl.
    + split; [ intros (? & ? & [=]) | intros [_ [? [=]]] ].
    + split; eauto.
Qed.

Lemma build_graph_raise (tool_registry : ToolRegistry.t) (uuid : string)
    (GRAPHS : gmap string Graph) (req : GraphCreateRequest.t) (e : exn) :
  build_graph_from_request tool_registry uuid GRAPHS req = raise e ->
  exists detail, e = HTTPException 400 detail.
Proof.
  unfold build_graph_from_request.
  destruct (build_nodes tool_registry (GraphCreateRequest.nodes req) ∅) as [ e1 | ns ] eqn:Hn;
    simpl.
  - intros [= <-]. eapply build_nodes_raise, Hn.
  - destruct (build_edges (GraphCreateRequest.edges req) ∅) as [ e2 | es ] eqn:He; simpl.
    + intros [= <-]. eapply build_edges_raise, He.
    + discriminate.
Qed.

Lemma build_graph_fields (tool_registry : ToolRegistry.t) (uuid : string)
    (GRAPHS GRAPHS' : gmap string Graph) (req : GraphCreateRequest.t) (graph : Graph) :
  build_graph_from_request tool_registry uuid GRAPHS req = ret (graph, GRAPHS') ->
  build_nodes tool_registry (GraphCreateRequest.nodes req) ∅ = ret (nodes graph)
  /\ build_edges (GraphCreateRequest.edges req) ∅ = ret (edges graph)
  /\ graph_id graph = uuid
  /\ start_node graph = GraphCreateRequest.start_node req
  /\ max_steps graph = GraphCreateRequest.max_steps req
  /\ GRAPHS' = <[uuid := graph]> GRAPHS.
Proof.
  unfold build_graph_from_request.
  destruct (build_nodes tool_registry (GraphCreateRequest.nodes req) ∅) as [ e1 | ns ];
    simpl; [ discriminate | ].
  destruct (build_edges (GraphCreateRequest.edges req) ∅) as [ e2 | es ];
    simpl; [ discriminate | ].
  intros [= <- <-]. simpl. auto 10.
Qed.

(** A run whose start node is not a node fails on its first pass. *)
Lemma unknown_start_node_raises (graph : Graph) (initial_state : State) :
  nodes graph !! start_node graph = None ->
  0 < max_steps graph ->
  run_graph graph initial_state
  = Some (raise (ValueError (NodeNotFound (VStr (start_node graph))))).
Proof.
  intros Hnone Hpos. unfold run_graph, run_graph_fuel.
  destruct (Z.to_nat (max_steps graph)) as [ | fuel ] eqn:Hfuel; [ lia | ].
  simpl. apply Z.ltb_lt in Hpos. rewrite Hpos. simpl.
  unfold loop_body, lookup_node. simpl. rewrite Hnone. reflexivity.
Qed.

(** The start node is not checked: a request whose [start_node] names no
    node is accepted, and the graph built from it breaks the invariant. *)
Lemma construction_accepts_unknown_start_node :
  exists graph GRAPHS',
    build_graph_from_request Requests.registry "id" ∅ (Requests.request "x" [])
    = ret (graph, GRAPHS')
    /\ ~ start_node_is_node graph.
Proof.
  eexists. eexists. split; [ vm_compute; reflexivity | ].
  unfold start_node_is_node. intros [fn Hfn]. vm_compute in Hfn. discriminate.
Qed.

(** C5, amended: construction does not check [start_node].  A built
    graph has the request's [start_node], which is a key of its node
    mapping exactly when a node specification of the request has that
    name; when none has, and the step bound is positive, every run of the
    graph fails on its first pass with the error that names the start
    node. *)
Theorem construction_keeps_requested_start_node (tool_registry : ToolRegistry.t)
    (uuid : string) (GRAPHS GRAPHS' : gmap string Graph)
    (req : GraphCreateRequest.t) (graph : Graph) :
  build_graph_from_request tool_registry uuid GRAPHS req = ret (graph, GRAPHS') ->
  start_node graph = GraphCreateRequest.start_node req
  /\ (start_node_is_node graph
      <-> GraphCreateRequest.start_node req ∈ NodeSpec.name <$> GraphCreateRequest.nodes req)
  /\ (~ start_node_is_node graph -> 0 < max_steps graph ->
      forall initial_state,
        run_graph graph initial_state
        = Some (raise (ValueError (NodeNotFound (VStr (start_node graph)))))).
Proof.
  intros Hbuild.
  destruct (build_graph_fields _ _ _ _ _ _ Hbuild) as (Hnodes & _ & _ & Hstart & _).
  split; [ exact Hstart | ]. split.
  - unfold start_node_is_node. rewrite (build_nodes_keys _ _ _ _ _ Hnodes), Hstart.
    rewrite lookup_empty. split; [ intros [[? [=]] | H]; exact H | auto ].
  - intros Hnot Hpos initial_state.
    apply unknown_start_node_raises; [ | exact Hpos ].
    unfold start_node_is_node in Hnot.
    destruct (nodes graph !! start_node graph); [ exfalso; eauto | reflexivity ].
Qed.

(** An instance: the request with start node [x] and the
    single node [a]. *)
Lemma construction_keeps_requested_start_node_example :
  exists graph GRAPHS',
    build_graph_from_request Requests.registry "id" ∅ (Requests.request "x" [])
    = ret (graph, GRAPHS')
    /\ start_node graph = "x"
    /\ (start_node_is_node graph <-> "x" ∈ ["a"])
    /\ (~ start_node_is_node graph -> 0 < max_steps graph ->
        forall initial_state,
          run_graph graph initial_state
          = Some (raise (ValueError (NodeNotFound (VStr (start_node graph)))))).
Proof.
  eexists. eexists. split; [ vm_compute; reflexivity | ].
  refine (construction_keeps_requested_start_node
            Requests.registry "id" ∅ _ (Requests.request "x" []) _ _).
  vm_compute; reflexivity.
Defined.

Lemma conditional_dict_lookup (s : EdgeSpec.t) :
  conditional_dict s !! "type" = Some (VStr "conditional")
  /\ conditional_dict s !! "key" = Some (optional_str (EdgeSpec.condition_key s))
  /\ conditional_dict s !! "op" = Some (optional_str (EdgeSpec.condition_op s))
  /\ conditional_dict s !! "value" = Some (EdgeSpec.condition_value s)
  /\ conditional_dict s !! "true" = Some (optional_str (EdgeSpec.true_target s))
  /\ conditional_dict s !! "false" = Some (optional_str (EdgeSpec.false_target s)).
Proof. repeat split; reflexivity. Qed.

(** The evaluator raises "missing key" only when the spec has no key. *)
Lemma evaluate_condition_missing_key (state spec : State) :
  _evaluate_condition state spec = raise (ValueError MissingKey) ->
  dict_get spec "key" = VNone.
Proof.
  unfold _evaluate_condition. cbv zeta.
  destruct (dict_get spec "key") as [ | b | z | k | ks ]; simpl; try reflexivity;
    repeat (destruct (py_eq _ _); [ unfold compare_values;
                                    try destruct (py_order _ _ _); discriminate | ]);
    discriminate.
Qed.

(** C7: a request with a conditional edge that lacks [condition_key],
    [condition_op] or [condition_value] is refused at construction with
    an [HTTPException] of status 400, so no graph is built from it; and
    in every graph that construction does build, each conditional edge
    has its key, operator and value, so that the evaluator never raises
    its "missing key" error on it during a run. *)
Theorem conditional_fields_checked_at_construction (tool_registry : ToolRegistry.t)
    (uuid : string) (GRAPHS : gmap string Graph) (req : GraphCreateRequest.t) :
  (forall s, s ∈ GraphCreateRequest.edges req ->
     EdgeSpec.type s = EdgeSpec.conditional ->
     EdgeSpec.condition_key s = None \/ EdgeSpec.condition_op s = None
       \/ EdgeSpec.condition_value s = VNone ->
     exists detail,
       build_graph_from_request tool_registry uuid GRAPHS req
       = raise (HTTPException 400 detail))
  /\ (forall graph GRAPHS' src spec,
        build_graph_from_request tool_registry uuid GRAPHS req = ret (graph, GRAPHS') ->
        edges graph !! src = Some (EdgeDict spec) ->
        (exists k, dict_get spec "key" = VStr k)
        /\ (exists op, dict_get spec "op" = VStr op)
        /\ dict_get spec "value" <> VNone
        /\ forall state, _evaluate_condition state spec <> raise (ValueError MissingKey)).
Proof.
  split.
  - intros s Hin Htype Hmissing.
    destruct (build_graph_from_request tool_registry uuid GRAPHS req)
      as [ e | [graph GRAPHS'] ] eqn:Hbuild.
    + destruct (build_graph_raise _ _ _ _ _ Hbuild) as [detail ->]. eauto.
    + exfalso.
      assert (Hall : Forall well_formed_edge (GraphCreateRequest.edges req))
        by (apply (build_graph_accepts tool_registry uuid GRAPHS req); eauto).
      rewrite Forall_forall in Hall. specialize (Hall s Hin).
      unfold well_formed_edge in Hall. rewrite Htype in Hall.
      destruct Hall as ([k Hk] & [op Hop] & Hvalue & _).
      destruct Hmissing as [H | [H | H]]; congruence.
  - intros graph GRAPHS' src spec Hbuild Hedge.
    destruct (build_graph_fields _ _ _ _ _ _ Hbuild) as (_ & Hedges & _).
    destruct (build_edges_conditional _ _ _ _ _ Hedges Hedge)
      as [Hacc | (s & _ & Hwf & Htype & ->)].
    { rewrite lookup_empty in Hacc. discriminate. }
    unfold well_formed_edge in Hwf. rewrite Htype in Hwf.
    destruct Hwf as ([k Hk] & [op Hop] & Hvalue & _).
    destruct (conditional_dict_lookup s) as (_ & Hkey & Hop' & Hvalue' & _).
    assert (Hget : dict_get (conditional_dict s) "key" = VStr k)
      by (unfold dict_get; rewrite Hkey, Hk; reflexivity).
    split; [ eauto | ]. split.
    { exists op. unfold dict_get. rewrite Hop', Hop. reflexivity. }
    split.
    { unfold dict_get. rewrite Hvalue'. exact Hvalue. }
    intros state Hraise. apply evaluate_condition_missing_key in Hraise. congruence.
Qed.

(** An instance: the request whose conditional edge has no
    [condition_key] is refused. *)
Lemma conditional_fields_checked_at_construction_example :
  build_graph_from_request Requests.registry "id" ∅
    (Requests.request "a" [Requests.without_key])
  = raise (HTTPException 400 (ConditionalEdgeInvalid "a"))
  /\ exists detail,
       build_graph_from_request Requests.registry "id" ∅
         (Requests.request "a" [Requests.without_key])
       = raise (HTTPException 400 detail).
Proof.
  split; [ vm_compute; reflexivity | ].
  apply (proj1 (conditional_fields_checked_at_construction Requests.registry "id" ∅
                  (Requests.request "a" [Requests.without_key]))
           Requests.without_key).
  - apply list_elem_of_singleton. reflexivity.
  - reflexivity.
  - left. reflexivity.
Defined.

(** ** The terminate sentinel *)

(** A pass whose conditional edge selects a branch with target [None]
    is the last: the loop guard fails on [current is None]. *)
Lemma sentinel_branch_ends_run (graph : Graph) (l : locals) (name : string)
    (node_fn : NodeFn) (state : State) (spec : gmap string value) (b : bool)
    (fuel : nat) :
  l_current l = VStr name ->
  l_steps l < max_steps graph ->
  nodes graph !! name = Some node_fn ->
  call node_fn (l_state l) = ReturnDict state ->
  edges graph !! name = Some (EdgeDict spec) ->
  spec !! "type" = Some (VStr "conditional") ->
  _evaluate_condition state spec = ret b ->
  spec !! (if b then "true" else "false") = Some VNone ->
  exists l',
    while_loop (S fuel) graph l = Some (Exited l')
    /\ status_of (Exited l') = Terminated_explicit_end
    /\ result_of graph (Exited l') = ret (finish graph l')
    /\ l_state l' = state
    /\ l_log l' = (l_log l ++ [name])%list
    /\ l_calls l' = S (l_calls l).
Proof.
  intros Hcur Hlt Hnode Hcall Hedge Htype Heval Hbranch.
  eexists. split.
  - rewrite while_loop_pass by (rewrite ?Hcur; auto; discriminate).
    unfold loop_body, lookup_node, _call_node. rewrite Hcur, Hnode, Hcall, Hedge.
    unfold dict_get. rewrite Htype. simpl. rewrite Heval.
    unfold dict_item. rewrite Hbranch.
    destruct fuel; reflexivity.
  - simpl. auto 10.
Qed.

(** A pass whose edge entry is [None] leaves the loop by [break]. *)
Lemma none_edge_ends_run (graph : Graph) (l : locals) (name : string)
    (node_fn : NodeFn) (state : State) (fuel : nat) :
  l_current l = VStr name ->
  l_steps l < max_steps graph ->
  nodes graph !! name = Some node_fn ->
  call node_fn (l_state l) = ReturnDict state ->
  edges graph !! name = Some EdgeNone ->
  exists l',
    while_loop (S fuel) graph l = Some (Broke l')
    /\ result_of graph (Broke l') = ret (finish graph l')
    /\ l_state l' = state
    /\ l_log l' = (l_log l ++ [name])%list
    /\ l_calls l' = S (l_calls l).
Proof.
  intros Hcur Hlt Hnode Hcall Hedge.
  eexists. split.
  - rewrite while_loop_pass by (rewrite ?Hcur; auto; discriminate).
    unfold loop_body, lookup_node, _call_node. rewrite Hcur, Hnode, Hcall, Hedge.
    reflexivity.
  - simpl. auto 10.
Qed.

(** In a request, the terminate sentinel is [None]; a normal edge to it
    is refused, and so is a conditional edge with both branches to it. *)
Lemma sentinel_targets_refused :
  build_graph_from_request Requests.registry "id" ∅
    (Requests.request "a" [Requests.normal_to_sentinel])
  = raise (HTTPException 400 (NormalEdgeNeedsTarget "a"))
  /\ build_graph_from_request Requests.registry "id" ∅
       (Requests.request "a" [Requests.both_to_sentinel])
     = raise (HTTPException 400 (ConditionalEdgeNeedsTarget "a")).
Proof. split; vm_compute; reflexivity. Qed.

(** C3, amended: at construction the terminate sentinel is [None], the
    value of an absent target.  A request is accepted exactly when each
    node names a registered tool, each normal edge has a node name as
    target, and each conditional edge has its key, operator and value and
    a node name on at least one branch; the other branch may be the
    sentinel.  At run time a pass that selects a branch to the sentinel
    is the last one and the run returns its result. *)
Theorem sentinel_targets_at_construction_and_run :
  (forall (tool_registry : ToolRegistry.t) (uuid : string)
          (GRAPHS : gmap string Graph) (req : GraphCreateRequest.t),
     (exists graph GRAPHS',
         build_graph_from_request tool_registry uuid GRAPHS req = ret (graph, GRAPHS'))
     <-> Forall (tool_registered tool_registry) (GraphCreateRequest.nodes req)
         /\ Forall (fun s =>
              match EdgeSpec.type s with
              | EdgeSpec.normal => is_Some (EdgeSpec.target s)
              | EdgeSpec.conditional =>
                  is_Some (EdgeSpec.condition_key s)
                  /\ is_Some (EdgeSpec.condition_op s)
                  /\ EdgeSpec.condition_value s <> VNone
                  /\ (is_Some (EdgeSpec.true_target s)
                      \/ is_Some (EdgeSpec.false_target s))
              end) (GraphCreateRequest.edges req))
  /\ (forall (graph : Graph) (l : locals) (name : string) (node_fn : NodeFn)
             (state : State) (spec : gmap string value) (b : bool) (fuel : nat),
        l_current l = VStr name ->
        l_steps l < max_steps graph ->
        nodes graph !! name = Some node_fn ->
        call node_fn (l_state l) = ReturnDict state ->
        edges graph !! name = Some (EdgeDict spec) ->
        spec !! "type" = Some (VStr "conditional") ->
        _evaluate_condition state spec = ret b ->
        spec !! (if b then "true" else "false") = Some VNone ->
        exists l',
          while_loop (S fuel) graph l = Some (Exited l')
          /\ status_of (Exited l') = Terminated_explicit_end
          /\ result_of graph (Exited l') = ret (finish graph l')
          /\ l_state l' = state
          /\ l_log l' = (l_log l ++ [name])%list
          /\ l_calls l' = S (l_calls l)).
Proof.
  split.
  - intros tool_registry uuid GRAPHS req. apply build_graph_accepts.
  - intros graph l name node_fn state spec b fuel. apply sentinel_branch_ends_run.
Qed.

(** An instance: a conditional edge with one branch to the
    sentinel is accepted, and the pass that selects that branch ends the
    run. *)
Lemma sentinel_targets_example :
  (exists graph GRAPHS',
      build_graph_from_request Requests.registry "id" ∅
        (Requests.request "a" [Requests.one_to_sentinel]) = ret (graph, GRAPHS'))
  /\ exists l',
       while_loop 1 count_to_one (entry count_to_one ∅) = Some (Exited l')
       /\ status_of (Exited l') = Terminated_explicit_end
       /\ result_of count_to_one (Exited l') = ret (finish count_to_one l')
       /\ l_state l' = {[ "count" := VInt 1 ]}
       /\ l_log l' = ["a"]
       /\ l_calls l' = 1%nat.
Proof.
  split.
  - apply (proj2 (proj1 sentinel_targets_at_construction_and_run
                    Requests.registry "id" ∅
                    (Requests.request "a" [Requests.one_to_sentinel]))).
    split.
    + constructor; [ | constructor ].
      unfold tool_registered. eexists. vm_compute; reflexivity.
    + constructor; [ | constructor ]. simpl.
      split; [ eauto | ]. split; [ eauto | ]. split; [ discriminate | right; eauto ].
  - apply (proj2 sentinel_targets_at_construction_and_run
             count_to_one (entry count_to_one ∅) "a" Scenarios.increment_count
             {[ "count" := VInt 1 ]}
             (Scenarios.until "count" ">=" (VInt 1)) true 0%nat);
      vm_compute; reflexivity.
Defined.

(** * Further properties *)

(** ** The condition evaluator: operators *)

Lemma py_eq_VStr_r (v : value) (s : string) :
  py_eq v (VStr s) = true <-> v = VStr s.
Proof.
  destruct v as [ | b | z | t | l ]; simpl; try (split; discriminate).
  rewrite String.eqb_eq. split; [ intros ->; reflexivity | intros [= ->]; reflexivity ].
Qed.

Lemma py_eq_VStr_r_false (v : value) (s : string) :
  v <> VStr s -> py_eq v (VStr s) = false.
Proof.
  intros Hne. destruct (py_eq v (VStr s)) eqn:E; [ | reflexivity ].
  apply py_eq_VStr_r in E. contradiction.
Qed.

(** X1: an operator that is none of the six supported ones (a string
    outside the set, or a value that is not a string) makes the evaluator
    raise the [ValueError] that reports this operator. *)
Theorem evaluate_condition_unsupported_operator (state spec : State) (k : string)
    (op : value) :
  spec !! "key" = Some (VStr k) ->
  dict_get_default spec "op" (VStr "==") = op ->
  (forall s, s ∈ ["=="; "!="; ">"; "<"; ">="; "<="] -> op <> VStr s) ->
  _evaluate_condition state spec = raise (ValueError (UnsupportedOperator op)).
Proof.
  intros Hkey Hop Hnot. unfold _evaluate_condition. cbv zeta.
  replace (dict_get spec "key") with (VStr k)
    by (unfold dict_get; rewrite Hkey; reflexivity).
  rewrite Hop. cbn [is_None state_get bind].
  rewrite !py_eq_VStr_r_false; [ reflexivity | .. ];
    apply Hnot; set_solver.
Qed.

(** An instance: the operator [=>]. *)
Lemma evaluate_condition_unsupported_operator_example :
  _evaluate_condition ∅ Fixtures.bad_operator
  = raise (ValueError (UnsupportedOperator (VStr "=>"))).
Proof.
  apply (evaluate_condition_unsupported_operator ∅ Fixtures.bad_operator "count"
           (VStr "=>")).
  - reflexivity.
  - reflexivity.
  - intros s Hs [= <-].
    repeat (apply elem_of_cons in Hs as [Hs | Hs]; [ discriminate | ]).
    inversion Hs.
Defined.






(** ** The run loop: errors and ends *)

(** The way the loop ends from a reached pass is the way the run ends. *)
Lemma run_graph_from_reached (graph : Graph) (initial_state : State)
    (l : locals) (fuel : nat) (o : outcome) :
  reaches graph (entry graph initial_state) l ->
  while_loop fuel graph l = Some o ->
  run_graph graph initial_state = Some (result_of graph o).
Proof.
  intros Hreach Hl.
  destruct (reaches_while_loop graph _ _ Hreach _ _ Hl) as [fuel' Hfuel].
  destruct (run_loop_ends graph initial_state) as (o' & Hloop & _).
  rewrite (while_loop_deterministic graph _ _ _ _ _ Hloop Hfuel) in Hloop.
  unfold run_graph, run_graph_fuel. rewrite Hloop. reflexivity.
Qed.

(** The invariant holds at every reached pass. *)
Lemma reaches_inv (graph : Graph) (initial_state : State) (l l' : locals) :
  reaches graph l l' ->
  loop_inv graph initial_state l -> loop_inv graph initial_state l'.
Proof.
  induction 1 as [ l | l l1 l' G Hbody _ IH ]; intros Hinv; [ exact Hinv | ].
  apply IH. apply guard_true in G as [Hcur Hlt].
  pose proof (loop_body_spec graph initial_state l Hinv Hcur Hlt) as H.
  rewrite Hbody in H. apply H.
Qed.

(** X3: what goes wrong in a step leaves [run_graph] unchanged.  When
    the loop reaches a pass whose node function raises, the run raises
    that same exception; when the function returns something that is not
    a dict, the run raises the [TypeError] that names the function. *)
Theorem run_graph_step_failure (graph : Graph) (initial_state : State)
    (l : locals) (name : string) (node_fn : NodeFn) :
  reaches graph (entry graph initial_state) l ->
  l_current l = VStr name ->
  l_steps l < max_steps graph ->
  nodes graph !! name = Some node_fn ->
  (forall e, call node_fn (l_state l) = Raises e ->
             run_graph graph initial_state = Some (raise e))
  /\ (forall v, call node_fn (l_state l) = ReturnOther v ->
                run_graph graph initial_state
                = Some (raise (TypeError (MustReturnDict (fn_name node_fn))))).
Proof.
  intros Hreach Hcur Hlt Hnode.
  assert (Hpass : forall e, _call_node node_fn (l_state l) = raise e ->
            run_graph graph initial_state = Some (raise e)).
  { intros e Hcall.
    eapply (run_graph_from_reached graph initial_state l 1
              (Raised e _) Hreach).
    rewrite while_loop_pass by (rewrite ?Hcur; auto; discriminate).
    unfold loop_body, lookup_node. rewrite Hcur, Hnode, Hcall. reflexivity. }
  split.
  - intros e He. apply Hpass. unfold _call_node. rewrite He. reflexivity.
  - intros v Hv. apply Hpass. unfold _call_node. rewrite Hv. reflexivity.
Qed.

(** Two instances: a start node whose step raises, and one whose step
    returns a list. *)
Lemma run_graph_step_failure_examples :
  run_graph (Fixtures.single Fixtures.failing_step None 10) ∅
  = Some (raise (OtherException "RuntimeError" (Text "boom")))
  /\ run_graph (Fixtures.single Fixtures.list_step None 10) ∅
     = Some (raise (TypeError (MustReturnDict "list_step"))).
Proof.
  split.
  - apply (proj1 (run_graph_step_failure (Fixtures.single Fixtures.failing_step None 10)
                    ∅ _ "a" Fixtures.failing_step (reaches_here _ _)
                    eq_refl eq_refl eq_refl)).
    reflexivity.
  - apply (proj2 (run_graph_step_failure (Fixtures.single Fixtures.list_step None 10)
                    ∅ _ "a" Fixtures.list_step (reaches_here _ _)
                    eq_refl eq_refl eq_refl) (VList [])).
    reflexivity.
Defined.

(** X4: a malformed edge entry is found only after its node has run.
    When the step of a reached pass returns a dict and the node's edge is
    a dict whose [type] is not ["conditional"], the run raises the
    [ValueError] naming the node; when it is a conditional spec that
    lacks the key of the selected branch, the run raises a [KeyError]
    for that key. *)
Theorem run_graph_malformed_edge (graph : Graph) (initial_state : State)
    (l : locals) (name : string) (node_fn : NodeFn) (state : State)
    (spec : gmap string value) :
  reaches graph (entry graph initial_state) l ->
  l_current l = VStr name ->
  l_steps l < max_steps graph ->
  nodes graph !! name = Some node_fn ->
  call node_fn (l_state l) = ReturnDict state ->
  edges graph !! name = Some (EdgeDict spec) ->
  (dict_get spec "type" <> VStr "conditional" ->
   run_graph graph initial_state = Some (raise (ValueError (InvalidEdge name))))
  /\ (forall b,
        dict_get spec "type" = VStr "conditional" ->
        _evaluate_condition state spec = ret b ->
        spec !! (if b then "true" else "false") = None ->
        run_graph graph initial_state
        = Some (raise (KeyError (MissingDictKey (if b then "true" else "false"))))).
Proof.
  intros Hreach Hcur Hlt Hnode Hcall Hedge.
  assert (Hpass : forall e l',
            loop_body graph l = Raise e l' ->
            run_graph graph initial_state = Some (raise e)).
  { intros e l' Hbody.
    apply (run_graph_from_reached graph initial_state l 1 (Raised e l') Hreach).
    rewrite while_loop_pass by (rewrite ?Hcur; auto; discriminate).
    rewrite Hbody. reflexivity. }
  split.
  - intros Htype. eapply Hpass.
    unfold loop_body, lookup_node, _call_node. rewrite Hcur, Hnode, Hcall, Hedge.
    rewrite (py_eq_VStr_r_false _ _ Htype). reflexivity.
  - intros b Htype Heval Hbranch. eapply Hpass.
    unfold loop_body, lookup_node, _call_node. rewrite Hcur, Hnode, Hcall, Hedge.
    rewrite Htype. change (py_eq (VStr "conditional") (VStr "conditional")) with true.
    cbv iota. rewrite Heval. unfold dict_item. rewrite Hbranch. reflexivity.
Qed.

(** Two instances: a dict without [type], and a conditional spec whose
    [false] branch is missing when the condition is false. *)
Lemma run_graph_malformed_edge_examples :
  run_graph
    (Fixtures.single Scenarios.increment_count (Some (EdgeDict Fixtures.untyped_edge)) 10) ∅
  = Some (raise (ValueError (InvalidEdge "a")))
  /\ run_graph
       (Fixtures.single Scenarios.increment_count
          (Some (EdgeDict Fixtures.no_false_branch)) 10) ∅
     = Some (raise (KeyError (MissingDictKey "false"))).
Proof.
  split.
  - refine (proj1 (run_graph_malformed_edge
                     (Fixtures.single Scenarios.increment_count
                        (Some (EdgeDict Fixtures.untyped_edge)) 10)
                     ∅ _ "a" Scenarios.increment_count {[ "count" := VInt 1 ]}
                     Fixtures.untyped_edge (reaches_here _ _) _ _ _ _ _) _);
      first [ vm_compute; reflexivity | vm_compute; discriminate ].
  - refine (proj2 (run_graph_malformed_edge
                     (Fixtures.single Scenarios.increment_count
                        (Some (EdgeDict Fixtures.no_false_branch)) 10)
                     ∅ _ "a" Scenarios.increment_count {[ "count" := VInt 1 ]}
                     Fixtures.no_false_branch (reaches_here _ _) _ _ _ _ _)
                  false _ _ _);
      vm_compute; reflexivity.
Defined.

(** X5: an exception of the condition evaluator leaves [run_graph]
    unchanged, and the condition is evaluated on the state that the step
    returned, not on the state it received. *)
Theorem run_graph_condition_failure (graph : Graph) (initial_state : State)
    (l : locals) (name : string) (node_fn : NodeFn) (state : State)
    (spec : gmap string value) (e : exn) :
  reaches graph (entry graph initial_state) l ->
  l_current l = VStr name ->
  l_steps l < max_steps graph ->
  nodes graph !! name = Some node_fn ->
  call node_fn (l_state l) = ReturnDict state ->
  edges graph !! name = Some (EdgeDict spec) ->
  dict_get spec "type" = VStr "conditional" ->
  _evaluate_condition state spec = raise e ->
  run_graph graph initial_state = Some (raise e).
Proof.
  intros Hreach Hcur Hlt Hnode Hcall Hedge Htype Heval.
  eapply (run_graph_from_reached graph initial_state l 1 (Raised e _) Hreach).
  rewrite while_loop_pass by (rewrite ?Hcur; auto; discriminate).
  unfold loop_body, lookup_node, _call_node. rewrite Hcur, Hnode, Hcall, Hedge.
  rewrite Htype. change (py_eq (VStr "conditional") (VStr "conditional")) with true.
  cbv iota. rewrite Heval. reflexivity.
Qed.

(** An instance: an unsupported operator on the edge of the start
    node. *)
Lemma run_graph_condition_failure_example :
  run_graph
    (Fixtures.single Scenarios.increment_count (Some (EdgeDict Fixtures.bad_operator)) 10) ∅
  = Some (raise (ValueError (UnsupportedOperator (VStr "=>")))).
Proof.
  refine (run_graph_condition_failure
            (Fixtures.single Scenarios.increment_count
               (Some (EdgeDict Fixtures.bad_operator)) 10)
            ∅ _ "a" Scenarios.increment_count {[ "count" := VInt 1 ]}
            Fixtures.bad_operator _ (reaches_here _ _) _ _ _ _ _ _ _);
    vm_compute; reflexivity.
Defined.

(** X6: with a step bound of zero or less no node runs, not even the
    lookup of the start node: the run returns the initial state with the
    warning and an empty trace, whatever the graph. *)
Theorem run_graph_nonpositive_bound (graph : Graph) (initial_state : State) :
  max_steps graph <= 0 ->
  run_graph graph initial_state
  = Some (ret {| final_state :=
                   <["_execution_log" := VList []]>
                     (<["_warning" := VStr (warning_text graph)]> initial_state);
                 log := [] |}).
Proof.
  intros Hle. unfold run_graph, run_graph_fuel.
  replace (Z.to_nat (max_steps graph)) with 0%nat by lia.
  simpl. replace (0 <? max_steps graph) with false by (symmetry; apply Z.ltb_ge; lia).
  simpl. unfold finish; simpl.
  replace (max_steps graph <=? 0) with true by (symmetry; apply Z.leb_le; lia).
  reflexivity.
Qed.

(** An instance: bound 0 on a graph whose start node is not a node. *)
Lemma run_graph_nonpositive_bound_example :
  run_graph (Fixtures.no_nodes 0) {[ "count" := VInt 7 ]}
  = Some (ret {| final_state :=
                   {[ "_execution_log" := VList [];
                      "_warning" := VStr "Stopped after reaching max_steps=0";
                      "count" := VInt 7 ]};
                 log := [] |}).
Proof.
  refine (eq_trans
            (run_graph_nonpositive_bound (Fixtures.no_nodes 0) {[ "count" := VInt 7 ]} _)
            _).
  - vm_compute. discriminate.
  - vm_compute; reflexivity.
Defined.

(** X7: the engine changes two keys of the state and no other.  In a
    returned result every key other than [_warning] and
    [_execution_log] has the value that the last executed step left (the
    initial value when no step ran), and [_warning] has either that value
    or the engine's warning. *)
Theorem run_graph_adds_two_fields (graph : Graph) (initial_state : State) (r : RunResult) :
  run_graph graph initial_state = Some (ret r) ->
  exists hist : list (string * State),
    threaded graph initial_state hist
    /\ log r = hist.*1
    /\ (forall k, k <> "_warning" -> k <> "_execution_log" ->
                  final_state r !! k = last_state initial_state hist !! k)
    /\ (final_state r !! "_warning" = Some (VStr (warning_text graph))
        \/ final_state r !! "_warning" = last_state initial_state hist !! "_warning").
Proof.
  destruct (run_loop_ends graph initial_state) as (o & Hloop & Hpost).
  unfold run_graph, run_graph_fuel. rewrite Hloop. simpl. intros Hr.
  assert (Hfin : forall l, ghost_ok graph initial_state l -> r = finish graph l ->
            exists hist : list (string * State),
              threaded graph initial_state hist
              /\ log r = hist.*1
              /\ (forall k, k <> "_warning" -> k <> "_execution_log" ->
                            final_state r !! k = last_state initial_state hist !! k)
              /\ (final_state r !! "_warning" = Some (VStr (warning_text graph))
                  \/ final_state r !! "_warning"
                     = last_state initial_state hist !! "_warning")).
  { intros l (Hlog & _ & Hthr & Hst) ->. exists (l_hist l).
    split; [ exact Hthr | ]. split; [ exact Hlog | ]. rewrite <- Hst. split.
    - intros k Hw Hl. unfold finish; simpl.
      rewrite lookup_insert_ne by congruence.
      destruct (max_steps graph <=? l_steps l); [ | reflexivity ].
      rewrite lookup_insert_ne by congruence. reflexivity.
    - rewrite finish_warning. destruct (max_steps graph <=? l_steps l); auto. }
  destruct o as [ l | l | e l ]; simpl in *.
  - apply (Hfin l); [ apply Hpost | congruence ].
  - apply (Hfin l); [ apply Hpost | congruence ].
  - congruence.
Qed.

(** An instance: the run of Scenario A. *)
Lemma run_graph_adds_two_fields_example :
  exists hist : list (string * State),
    threaded Scenarios.linear_abc ∅ hist
    /\ log scenario_A_result = hist.*1
    /\ (forall k, k <> "_warning" -> k <> "_execution_log" ->
                  final_state scenario_A_result !! k = last_state ∅ hist !! k)
    /\ (final_state scenario_A_result !! "_warning"
        = Some (VStr (warning_text Scenarios.linear_abc))
        \/ final_state scenario_A_result !! "_warning" = last_state ∅ hist !! "_warning").
Proof.
  apply (run_graph_adds_two_fields Scenarios.linear_abc ∅ scenario_A_result).
  vm_compute; reflexivity.
Defined.

(** X8: a run that the step bound stops (the loop guard fails while
    [current] still names a node) returns a result, which carries the
    warning with the bound in its text and a trace of exactly
    [max_steps] entries (none for a negative bound). *)
Theorem run_graph_bound_stop (graph : Graph) (initial_state : State) (o : outcome) :
  while_loop (Z.to_nat (max_steps graph)) graph (entry graph initial_state) = Some o ->
  status_of o = Aborted_step_bound_reached ->
  exists r,
    run_graph graph initial_state = Some (ret r)
    /\ final_state r !! "_warning"
       = Some (VStr ("Stopped after reaching max_steps=" ++ str_of_int (max_steps graph)))
    /\ length (log r) = Z.to_nat (max_steps graph).
Proof.
  intros Hloop Hstatus.
  destruct (run_loop_ends graph initial_state) as (o' & Hloop' & Hpost).
  assert (o' = o) as -> by congruence.
  destruct o as [ l | l | e l ]; simpl in Hstatus; try discriminate.
  destruct Hpost as [[(Hlog & Hlen & _) [Hcalls Hbound]] Hexit].
  destruct Hexit as [Hnone | Hge]; [ rewrite Hnone in Hstatus; discriminate | ].
  exists (finish graph l). split.
  { unfold run_graph, run_graph_fuel. rewrite Hloop. reflexivity. }
  split.
  - rewrite finish_warning. apply Z.leb_le in Hge. rewrite Hge. reflexivity.
  - simpl. rewrite Hlog, length_fmap, Hlen. lia.
Qed.

(** An instance: the unconditional cycle with bound 5. *)
Lemma run_graph_bound_stop_example :
  exists r,
    run_graph Scenarios.unconditional_cycle ∅ = Some (ret r)
    /\ final_state r !! "_warning" = Some (VStr "Stopped after reaching max_steps=5")
    /\ length (log r) = 5%nat.
Proof.
  destruct unconditional_cycle_is_cut as (l & Hloop & Hstatus & _).
  exact (run_graph_bound_stop Scenarios.unconditional_cycle ∅ (Exited l) Hloop Hstatus).
Defined.

(** The result of a run whose loop stops before [max_steps] edges were
    followed: the state of the last step with the trace added. *)
Lemma finish_early (graph : Graph) (l : locals) :
  l_steps l < max_steps graph ->
  finish graph l
  = {| final_state := <["_execution_log" := VList (VStr <$> l_log l)]> (l_state l);
       log := l_log l |}.
Proof.
  intros Hlt. unfold finish. apply Z.leb_gt in Hlt. rewrite Hlt. reflexivity.
Qed.

(** X9: a node without an outgoing edge (no entry in [edges], or the
    entry [None]) is the last to run.  When the loop reaches a pass for
    such a node and its step returns a dict, the run returns that dict
    with only [_execution_log] set on top, the trace being the trace so
    far followed by the node; no warning is added. *)
Theorem run_graph_no_outgoing_edge (graph : Graph) (initial_state : State)
    (l : locals) (name : string) (node_fn : NodeFn) (state : State) :
  reaches graph (entry graph initial_state) l ->
  l_current l = VStr name ->
  l_steps l < max_steps graph ->
  nodes graph !! name = Some node_fn ->
  call node_fn (l_state l) = ReturnDict state ->
  edges graph !! name = None \/ edges graph !! name = Some EdgeNone ->
  run_graph graph initial_state
  = Some (ret {| final_state :=
                   <["_execution_log" := VList (VStr <$> (l_log l ++ [name])%list)]> state;
                 log := (l_log l ++ [name])%list |}).
Proof.
  intros Hreach Hcur Hlt Hnode Hcall Hedge.
  set (l' := {| l_state := state; l_log := (l_log l ++ [name])%list;
                l_current := VStr name; l_steps := l_steps l;
                l_calls := S (l_calls l);
                l_hist := (l_hist l ++ [(name, state)])%list |}).
  rewrite (run_graph_from_reached graph initial_state l 1 (Broke l') Hreach).
  - simpl. rewrite finish_early by exact Hlt. reflexivity.
  - rewrite while_loop_pass by (rewrite ?Hcur; auto; discriminate).
    unfold loop_body, lookup_node, _call_node. rewrite Hcur, Hnode, Hcall.
    destruct Hedge as [-> | ->]; reflexivity.
Qed.

(** An instance: a single node without an edge. *)
Lemma run_graph_no_outgoing_edge_example :
  run_graph (Fixtures.single Scenarios.increment_count None 10) ∅
  = Some (ret {| final_state :=
                   {[ "_execution_log" := VList [VStr "a"]; "count" := VInt 1 ]};
                 log := ["a"] |}).
Proof.
  refine (eq_trans
            (run_graph_no_outgoing_edge
               (Fixtures.single Scenarios.increment_count None 10) ∅ _ "a"
               Scenarios.increment_count {[ "count" := VInt 1 ]}
               (reaches_here _ _) _ _ _ _ _) _);
    first [ vm_compute; reflexivity | left; vm_compute; reflexivity ].
Defined.

(** X10: a conditional branch to the terminate sentinel that is taken
    before the last pass the bound allows ends the run without a
    warning: the run returns the dict of the last step with only
    [_execution_log] set on top. *)
Theorem run_graph_sentinel_before_bound (graph : Graph) (initial_state : State)
    (l : locals) (name : string) (node_fn : NodeFn) (state : State)
    (spec : gmap string value) (b : bool) :
  reaches graph (entry graph initial_state) l ->
  l_current l = VStr name ->
  l_steps l + 1 < max_steps graph ->
  nodes graph !! name = Some node_fn ->
  call node_fn (l_state l) = ReturnDict state ->
  edges graph !! name = Some (EdgeDict spec) ->
  dict_get spec "type" = VStr "conditional" ->
  _evaluate_condition state spec = ret b ->
  spec !! (if b then "true" else "false") = Some VNone ->
  run_graph graph initial_state
  = Some (ret {| final_state :=
                   <["_execution_log" := VList (VStr <$> (l_log l ++ [name])%list)]> state;
                 log := (l_log l ++ [name])%list |}).
Proof.
  intros Hreach Hcur Hlt Hnode Hcall Hedge Htype Heval Hbranch.
  set (l' := {| l_state := state; l_log := (l_log l ++ [name])%list;
                l_current := VNone; l_steps := l_steps l + 1;
                l_calls := S (l_calls l);
                l_hist := (l_hist l ++ [(name, state)])%list |}).
  rewrite (run_graph_from_reached graph initial_state l 1 (Exited l') Hreach).
  - simpl. rewrite finish_early by exact Hlt. reflexivity.
  - rewrite while_loop_pass by (rewrite ?Hcur; auto; try discriminate; lia).
    unfold loop_body, lookup_node, _call_node. rewrite Hcur, Hnode, Hcall, Hedge.
    rewrite Htype. change (py_eq (VStr "conditional") (VStr "conditional")) with true.
    cbv iota. rewrite Heval. unfold dict_item. rewrite Hbranch. reflexivity.
Qed.

(** An instance: the first pass of a loop that counts to one. *)
Lemma run_graph_sentinel_before_bound_example :
  run_graph count_to_one ∅
  = Some (ret {| final_state :=
                   {[ "_execution_log" := VList [VStr "a"]; "count" := VInt 1 ]};
                 log := ["a"] |}).
Proof.
  refine (eq_trans
            (run_graph_sentinel_before_bound count_to_one ∅ _ "a"
               Scenarios.increment_count {[ "count" := VInt 1 ]}
               (Scenarios.until "count" ">=" (VInt 1)) true
               (reaches_here _ _) _ _ _ _ _ _ _ _) _);
    vm_compute; reflexivity.
Defined.

(** ** The tool registry: listing and other names *)

(** X11: [list_tools] lists exactly the names that [get] resolves, each
    with the [__name__] of its function; [register] sets the entry of its
    name and leaves what [get] gives for every other name. *)
Theorem registry_list_tools (self : ToolRegistry.t) (name name' : string) (fn : NodeFn) :
  (ToolRegistry.list_tools self !! name
   = match ToolRegistry.get name self with
     | inr f => Some (fn_name f)
     | inl _ => None
     end)
  /\ ToolRegistry.list_tools (ToolRegistry.register name' fn self)
     = <[name' := fn_name fn]> (ToolRegistry.list_tools self)
  /\ (name <> name' ->
      ToolRegistry.get name (ToolRegistry.register name' fn self)
      = ToolRegistry.get name self).
Proof.
  split; [ | split ].
  - unfold ToolRegistry.list_tools, ToolRegistry.get. rewrite lookup_fmap.
    destruct (ToolRegistry._tools self !! name); reflexivity.
  - unfold ToolRegistry.list_tools, ToolRegistry.register; simpl.
    apply fmap_insert.
  - intros Hne. unfold ToolRegistry.get, ToolRegistry.register; simpl.
    rewrite lookup_insert_ne by congruence. reflexivity.
Qed.

(** An instance: registering [u] leaves [t] as it was. *)
Lemma registry_list_tools_example :
  ToolRegistry.get "increment_count"
    (ToolRegistry.register "u" Scenarios.set_grade Requests.registry)
  = ToolRegistry.get "increment_count" Requests.registry.
Proof.
  apply (proj2 (proj2 (registry_list_tools Requests.registry "increment_count" "u"
                         Scenarios.set_grade))).
  discriminate.
Defined.

(** ** Storage and the endpoints *)

(** [run_graph] always gives a result or an exception. *)
Lemma run_graph_terminates_or_raises (graph : Graph) (initial_state : State) :
  exists r, run_graph graph initial_state = Some r.
Proof.
  destruct (run_loop_ends graph initial_state) as (o & Hloop & _).
  exists (result_of graph o). unfold run_graph, run_graph_fuel.
  rewrite Hloop. reflexivity.
Qed.

(** X12: the store of graphs.  [get_graph] after [save_graph] returns
    the saved graph under its own id (a graph saved earlier under that id
    is replaced), [save_graph] returns that id, graphs under other ids
    are as before, and [get_graph] raises [KeyError] exactly for an id
    under which nothing is stored. *)
Theorem graph_store_round_trip (graph : Graph) (GRAPHS : gmap string Graph)
    (other : string) :
  (save_graph graph GRAPHS).1 = graph_id graph
  /\ get_graph (graph_id graph) (save_graph graph GRAPHS).2 = ret graph
  /\ (other <> graph_id graph ->
      get_graph other (save_graph graph GRAPHS).2 = get_graph other GRAPHS)
  /\ (get_graph other GRAPHS = raise (KeyError (GraphNotFound other))
      <-> GRAPHS !! other = None).
Proof.
  unfold save_graph, get_graph; simpl. split; [ reflexivity | ]. split; [ | split ].
  - rewrite lookup_insert_eq. reflexivity.
  - intros Hne. rewrite lookup_insert_ne by congruence. reflexivity.
  - destruct (GRAPHS !! other); split; (discriminate || reflexivity).
Qed.

(** An instance: Scenario A saved beside Scenario D. *)
Lemma graph_store_round_trip_example :
  get_graph "D" (save_graph Scenarios.linear_abc {[ "D" := Scenarios.dangling_edge ]}).2
  = get_graph "D" {[ "D" := Scenarios.dangling_edge ]}.
Proof.
  apply (proj1 (proj2 (proj2 (graph_store_round_trip Scenarios.linear_abc
                                {[ "D" := Scenarios.dangling_edge ]} "D")))).
  discriminate.
Defined.

(** X13: [POST /graph/run] always answers, never changes the stored
    graphs, and changes the stored runs only when the run returns a
    result: for an unknown graph id it raises the 404 [HTTPException], an
    exception of [run_graph] leaves it unchanged, and in both cases the
    storage is as before; otherwise the response carries the final state
    and trace of [run_graph] on the stored graph, and one run record is
    stored under the new run id. *)
Theorem run_graph_endpoint_outcome (uuid isoformat : string) (req : GraphRunRequest.t)
    (store : storage) :
  exists res store',
    run_graph_endpoint uuid isoformat req store = Some (res, store')
    /\ GRAPHS store' = GRAPHS store
    /\ match GRAPHS store !! GraphRunRequest.graph_id req with
       | None =>
           res = raise (HTTPException 404 (GraphNotFound (GraphRunRequest.graph_id req)))
           /\ store' = store
       | Some graph =>
           match run_graph graph (GraphRunRequest.initial_state req) with
           | Some (inl e) => res = raise e /\ store' = store
           | Some (inr r) =>
               res = ret {| GraphRunResponse.run_id := uuid;
                            GraphRunResponse.final_state := final_state r;
                            GraphRunResponse.log := log r |}
               /\ RUNS store'
                  = <[uuid := {| rec_graph_id := GraphRunRequest.graph_id req;
                                 rec_state := final_state r;
                                 rec_log := log r;
                                 rec_status := "completed";
                                 rec_created_at := isoformat ++ "Z";
                                 rec_updated_at := isoformat ++ "Z" |}]> (RUNS store)
           | None => False
           end
       end.
Proof.
  unfold run_graph_endpoint, get_graph.
  destruct (GRAPHS store !! GraphRunRequest.graph_id req) as [ graph | ].
  - destruct (run_graph_terminates_or_raises graph (GraphRunRequest.initial_state req))
      as [r Hr].
    rewrite Hr. destruct r as [ e | r ]; simpl; eauto 10.
  - eauto 10.
Qed.

(** X14: a run can be read back.  When [POST /graph/run] returns a
    response, [GET /graph/state] for the run id of the response, on the
    storage that the run left, returns the request's graph id, the final
    state and trace of the response, and the status ["completed"]
    (also for a run that the step bound stopped). *)
Theorem run_then_get_run_state (uuid isoformat : string) (req : GraphRunRequest.t)
    (store store' : storage) (resp : GraphRunResponse.t) :
  run_graph_endpoint uuid isoformat req store = Some (ret resp, store') ->
  get_run_state (GraphRunResponse.run_id resp) store'
  = ret {| RunStateResponse.run_id := GraphRunResponse.run_id resp;
           RunStateResponse.graph_id := GraphRunRequest.graph_id req;
           RunStateResponse.state := GraphRunResponse.final_state resp;
           RunStateResponse.log := GraphRunResponse.log resp;
           RunStateResponse.status := "completed" |}.
Proof.
  unfold run_graph_endpoint, get_graph.
  destruct (GRAPHS store !! GraphRunRequest.graph_id req) as [ graph | ];
    [ | discriminate ].
  destruct (run_graph graph (GraphRunRequest.initial_state req)) as [ [ e | r ] | ];
    [ discriminate | | discriminate ].
  simpl. intros [= <- <-]. unfold get_run_state, get_run; simpl.
  rewrite lookup_insert_eq. reflexivity.
Qed.

(** An instance: Scenario A run through the endpoint and read back. *)
Lemma run_then_get_run_state_example :
  exists store',
    run_graph_endpoint "run-1" "2024-01-01T00:00:00" run_scenario_A storage_with_scenario_A
    = Some (ret {| GraphRunResponse.run_id := "run-1";
                   GraphRunResponse.final_state := final_state scenario_A_result;
                   GraphRunResponse.log := ["a"; "b"; "c"] |}, store')
    /\ get_run_state "run-1" store'
       = ret {| RunStateResponse.run_id := "run-1";
                RunStateResponse.graph_id := "A";
                RunStateResponse.state := final_state scenario_A_result;
                RunStateResponse.log := ["a"; "b"; "c"];
                RunStateResponse.status := "completed" |}.
Proof.
  eexists. split; [ vm_compute; reflexivity | ].
  refine (run_then_get_run_state "run-1" "2024-01-01T00:00:00" run_scenario_A
            storage_with_scenario_A _
            {| GraphRunResponse.run_id := "run-1";
               GraphRunResponse.final_state := final_state scenario_A_result;
               GraphRunResponse.log := ["a"; "b"; "c"] |} _).
  vm_compute; reflexivity.
Defined.

(** X15: a created graph can be run.  When [POST /graph/create]
    returns an id, it is the fresh uuid, the stored runs are untouched,
    graphs stored under other ids are as before, and a [POST /graph/run]
    for that id finds the built graph (it does not answer 404 for the
    lookup) and answers as [run_graph] on it does.  When creation fails
    the storage is unchanged. *)
Theorem create_graph_then_run (tool_registry : ToolRegistry.t) (uuid : string)
    (req : GraphCreateRequest.t) (store : storage) :
  match create_graph tool_registry uuid req store with
  | (inl e, store') => store' = store
  | (inr id, store') =>
      id = uuid
      /\ RUNS store' = RUNS store
      /\ (forall other, other <> uuid -> GRAPHS store' !! other = GRAPHS store !! other)
      /\ exists graph,
           GRAPHS store' !! id = Some graph
           /\ graph_id graph = uuid
           /\ start_node graph = GraphCreateRequest.start_node req
           /\ max_steps graph = GraphCreateRequest.max_steps req
           /\ forall run_uuid isoformat initial_state,
                run_graph_endpoint run_uuid isoformat
                  {| GraphRunRequest.graph_id := id;
                     GraphRunRequest.initial_state := initial_state |} store'
                = match run_graph graph initial_state with
                  | None => None
                  | Some (inl e) => Some (raise e, store')
                  | Some (inr r) =>
                      Some (ret {| GraphRunResponse.run_id := run_uuid;
                                   GraphRunResponse.final_state := final_state r;
                                   GraphRunResponse.log := log r |},
                            {| GRAPHS := GRAPHS store';
                               RUNS := (create_run run_uuid isoformat id r (RUNS store')).2 |})
                  end
  end.
Proof.
  unfold create_graph.
  destruct (build_graph_from_request tool_registry uuid (GRAPHS store) req)
    as [ e | [graph GRAPHS'] ] eqn:Hbuild; [ reflexivity | ].
  destruct (build_graph_fields _ _ _ _ _ _ Hbuild) as (_ & _ & Hid & Hstart & Hmax & ->).
  rewrite Hid. cbn [GRAPHS RUNS].
  split; [ reflexivity | ]. split; [ reflexivity | ]. split.
  { intros other Hne. rewrite lookup_insert_ne by congruence. reflexivity. }
  exists graph. rewrite lookup_insert_eq.
  split; [ reflexivity | ]. split; [ exact Hid | ].
  split; [ exact Hstart | ]. split; [ exact Hmax | ].
  intros run_uuid isoformat initial_state.
  unfold run_graph_endpoint, get_graph; cbn [GRAPHS RUNS GraphRunRequest.graph_id
    GraphRunRequest.initial_state]. rewrite lookup_insert_eq.
  destruct (run_graph graph initial_state) as [ [ e | r ] | ]; reflexivity.
Qed.

(** X16: runs are kept apart.  [GET /graph/state] raises the 404
    [HTTPException], with the run id in its text, exactly for a run id
    under which nothing is stored, and a [POST /graph/run] leaves what it
    returns for every run id other than the new one. *)
Theorem get_run_state_other_runs (uuid isoformat : string) (req : GraphRunRequest.t)
    (store store' : storage) (res : result GraphRunResponse.t) (run_id : string) :
  (get_run_state run_id store
   = raise (HTTPException 404 (Text ("Run '" ++ run_id ++ "' not found")))
   <-> RUNS store !! run_id = None)
  /\ (run_graph_endpoint uuid isoformat req store = Some (res, store') ->
      run_id <> uuid ->
      get_run_state run_id store' = get_run_state run_id store).
Proof.
  split.
  - unfold get_run_state, get_run.
    destruct (RUNS store !! run_id); split; (discriminate || reflexivity).
  - unfold run_graph_endpoint, get_graph.
    destruct (GRAPHS store !! GraphRunRequest.graph_id req) as [ graph | ].
    + destruct (run_graph graph (GraphRunRequest.initial_state req)) as [ [ e | r ] | ];
        [ intros [= <- <-]; reflexivity | | discriminate ].
      simpl. intros [= <- <-] Hne. unfold get_run_state, get_run; simpl.
      rewrite lookup_insert_ne by congruence. reflexivity.
    + intros [= <- <-]. reflexivity.
Qed.

(** An instance: an earlier run is read back unchanged after a second
    run. *)
Lemma get_run_state_other_runs_example :
  exists store1 store2 res1 res2,
    run_graph_endpoint "run-1" "t1" run_scenario_A storage_with_scenario_A
    = Some (res1, store1)
    /\ run_graph_endpoint "run-2" "t2" run_scenario_A store1 = Some (res2, store2)
    /\ get_run_state "run-1" store2 = get_run_state "run-1" store1.
Proof.
  eexists. eexists. eexists. eexists.
  split; [ vm_compute; reflexivity | ].
  assert (H : forall s r,
            run_graph_endpoint "run-2" "t2" run_scenario_A
              {| GRAPHS := {[ "A" := Scenarios.linear_abc ]};
                 RUNS := (create_run "run-1" "t1" "A" scenario_A_result ∅).2 |}
            = Some (r, s) ->
            get_run_state "run-1" s
            = get_run_state "run-1"
                {| GRAPHS := {[ "A" := Scenarios.linear_abc ]};
                   RUNS := (create_run "run-1" "t1" "A" scenario_A_result ∅).2 |}).
  { intros s r Hrun.
    apply (proj2 (get_run_state_other_runs "run-2" "t2" run_scenario_A _ s r "run-1") Hrun).
    discriminate. }
  split; [ vm_compute; reflexivity | ].
  refine (H _ _ _). vm_compute; reflexivity.
Defined.

(** An instance: a request with one conditional edge, created on the
    empty storage. *)
Lemma create_graph_then_run_example :
  exists store',
    create_graph Requests.registry "id"
      (Requests.request "a" [Requests.one_to_sentinel]) empty_storage
    = (ret "id", store')
    /\ exists graph, GRAPHS store' !! "id" = Some graph /\ start_node graph = "a".
Proof.
  eexists. split; [ vm_compute; reflexivity | ].
  pose proof (create_graph_then_run Requests.registry "id"
                (Requests.request "a" [Requests.one_to_sentinel]) empty_storage) as H.
  match goal with
  | |- exists graph, GRAPHS ?S !! _ = _ /\ _ =>
      assert (E : create_graph Requests.registry "id"
                    (Requests.request "a" [Requests.one_to_sentinel]) empty_storage
                  = (ret "id", S)) by (vm_compute; reflexivity)
  end.
  rewrite E in H. destruct H as (_ & _ & _ & graph & Hgraph & _ & Hstart & _).
  exists graph. split; [ exact Hgraph | exact Hstart ].
Defined.

(** ** The data-quality workflow *)

(** X17: [create_data_quality_graph] succeeds exactly when the four
    tool names are registered, and raises a [KeyError] otherwise; once
    [register_data_quality_tools] has run, whatever was registered
    before, it returns the example graph over the four tools of the
    module. *)
Theorem create_data_quality_graph_registered (tool_registry : ToolRegistry.t)
    (graph_id : string) :
  ((exists graph,
       DataQuality.create_data_quality_graph tool_registry graph_id = ret graph)
   <-> Forall (fun name => is_Some (ToolRegistry._tools tool_registry !! name))
         DataQuality.tool_names)
  /\ (forall e,
        DataQuality.create_data_quality_graph tool_registry graph_id = raise e ->
        exists name,
          name ∈ DataQuality.tool_names /\ e = KeyError (ToolNotRegistered name))
  /\ DataQuality.create_data_quality_graph
       (DataQuality.register_data_quality_tools tool_registry) graph_id
     = ret (DataQuality.example_graph graph_id).
Proof.
  split; [ | split ].
  - unfold DataQuality.create_data_quality_graph, DataQuality.tool_names, ToolRegistry.get.
    rewrite !Forall_cons.
    destruct (ToolRegistry._tools tool_registry !! "profile_data");
      [ | split; [ intros [? [=]] | intros [[? [=]] _] ] ].
    destruct (ToolRegistry._tools tool_registry !! "identify_anomalies");
      [ | split; [ intros [? [=]] | intros (_ & [? [=]] & _) ] ].
    destruct (ToolRegistry._tools tool_registry !! "generate_rules");
      [ | split; [ intros [? [=]] | intros (_ & _ & [? [=]] & _) ] ].
    destruct (ToolRegistry._tools tool_registry !! "apply_rules");
      [ | split; [ intros [? [=]] | intros (_ & _ & _ & [? [=]] & _) ] ].
    simpl. split; [ intros _; repeat split; eauto | eauto ].
  - intros e.
    unfold DataQuality.create_data_quality_graph, DataQuality.tool_names, ToolRegistry.get.
    destruct (ToolRegistry._tools tool_registry !! "profile_data");
      [ | intros [= <-]; eexists; split; [ | reflexivity ]; set_solver ].
    destruct (ToolRegistry._tools tool_registry !! "identify_anomalies");
      [ | intros [= <-]; eexists; split; [ | reflexivity ]; set_solver ].
    destruct (ToolRegistry._tools tool_registry !! "generate_rules");
      [ | intros [= <-]; eexists; split; [ | reflexivity ]; set_solver ].
    destruct (ToolRegistry._tools tool_registry !! "apply_rules");
      [ | intros [= <-]; eexists; split; [ | reflexivity ]; set_solver ].
    discriminate.
  - unfold DataQuality.create_data_quality_graph,
      DataQuality.register_data_quality_tools, ToolRegistry.get, ToolRegistry.register.
    cbn [ToolRegistry._tools].
    repeat (rewrite lookup_insert_eq || rewrite lookup_insert_ne by discriminate).
    reflexivity.
Qed.

(** An instance: on the empty registry the first tool is missing. *)
Lemma create_data_quality_graph_registered_example :
  exists name,
    name ∈ DataQuality.tool_names
    /\ KeyError (ToolNotRegistered "profile_data") = KeyError (ToolNotRegistered name).
Proof.
  apply (proj1 (proj2 (create_data_quality_graph_registered ToolRegistry.__init__ "g"))
           (KeyError (ToolNotRegistered "profile_data"))).
  reflexivity.
Defined.

Lemma while_loop_direct_edge (graph : Graph) (fuel : nat) (l : locals) (name : string)
    (node_fn : NodeFn) (state : State) (target : string) :
  l_current l = VStr name ->
  l_steps l < max_steps graph ->
  nodes graph !! name = Some node_fn ->
  call node_fn (l_state l) = ReturnDict state ->
  edges graph !! name = Some (EdgeStr target) ->
  while_loop (S fuel) graph l = while_loop fuel graph (advance l name state (VStr target)).
Proof.
  intros Hcur Hlt Hnode Hcall Hedge.
  rewrite while_loop_pass by (rewrite ?Hcur; auto; discriminate).
  unfold loop_body, lookup_node, _call_node. rewrite Hcur, Hnode, Hcall, Hedge.
  reflexivity.
Qed.

Lemma while_loop_conditional_edge (graph : Graph) (fuel : nat) (l : locals)
    (name : string) (node_fn : NodeFn) (state : State) (spec : gmap string value)
    (b : bool) (target : value) :
  l_current l = VStr name ->
  l_steps l < max_steps graph ->
  nodes graph !! name = Some node_fn ->
  call node_fn (l_state l) = ReturnDict state ->
  edges graph !! name = Some (EdgeDict spec) ->
  dict_get spec "type" = VStr "conditional" ->
  _evaluate_condition state spec = ret b ->
  spec !! (if b then "true" else "false") = Some target ->
  while_loop (S fuel) graph l = while_loop fuel graph (advance l name state target).
Proof.
  intros Hcur Hlt Hnode Hcall Hedge Htype Heval Hbranch.
  rewrite while_loop_pass by (rewrite ?Hcur; auto; discriminate).
  unfold loop_body, lookup_node, _call_node. rewrite Hcur, Hnode, Hcall, Hedge.
  rewrite Htype. change (py_eq (VStr "conditional") (VStr "conditional")) with true.
  cbv iota. rewrite Heval. unfold dict_item. rewrite Hbranch. reflexivity.
Qed.

Lemma while_loop_current_none (graph : Graph) (fuel : nat) (l : locals) :
  l_current l = VNone -> while_loop fuel graph l = Some (Exited l).
Proof. intros Hcur. destruct fuel; simpl; rewrite Hcur; reflexivity. Qed.

Lemma py_in_anomaly (x : value) :
  py_in x [VNone; VStr ""] = DataQuality.is_anomaly x.
Proof.
  unfold py_in, DataQuality.is_anomaly. simpl. rewrite orb_false_r.
  destruct x; reflexivity.
Qed.

Lemma no_anomaly_after_cleaning (items : list value) :
  List.filter DataQuality.is_anomaly
    (List.filter (fun x => negb (DataQuality.is_anomaly x)) items) = [].
Proof.
  induction items as [ | x items IH ]; [ reflexivity | ]. simpl.
  destruct (DataQuality.is_anomaly x) eqn:E; simpl; [ exact IH | ].
  rewrite E. exact IH.
Qed.

Lemma call_profile_data (state : State) (items : list value) :
  dict_get_default state "data" (VList []) = VList items ->
  call DataQuality.profile_data_tool state
  = ReturnDict (<["row_count" := VInt (Z.of_nat (length items))]> state).
Proof. intros H. unfold DataQuality.profile_data_tool; simpl. rewrite H. reflexivity. Qed.

Lemma call_identify_anomalies (state : State) (items : list value) :
  dict_get_default state "data" (VList []) = VList items ->
  call DataQuality.identify_anomalies_tool state
  = ReturnDict
      (<["anomaly_count" :=
           VInt (Z.of_nat (length (List.filter DataQuality.is_anomaly items)))]>
         (<["anomalies" := VList (List.filter DataQuality.is_anomaly items)]> state)).
Proof.
  intros H. unfold DataQuality.identify_anomalies_tool; simpl. rewrite H. reflexivity.
Qed.

Lemma call_apply_rules (state : State) (items : list value) :
  dict_get_default state "data" (VList []) = VList items ->
  call DataQuality.apply_rules_tool state
  = ReturnDict
      (<["anomaly_count" := VInt 0]>
         (<["data" := VList (List.filter (fun x => negb (DataQuality.is_anomaly x)) items)]>
            state)).
Proof.
  intros H. unfold DataQuality.apply_rules_tool; cbn [call]. rewrite H. cbn [py_iter].
  rewrite (filter_ext (fun x => negb (py_in x [VNone; VStr ""]))
             (fun x => negb (DataQuality.is_anomaly x)))
    by (intros x; rewrite py_in_anomaly; reflexivity).
  reflexivity.
Qed.

(** The condition of the workflow's edge on a state with a count. *)
Lemma evaluate_few_anomalies (state : State) (k : Z) :
  state !! "anomaly_count" = Some (VInt k) ->
  _evaluate_condition state DataQuality.few_anomalies = ret (k <=? 1).
Proof.
  intros H.
  rewrite (evaluate_condition_ordering state DataQuality.few_anomalies "anomaly_count" Le)
    by reflexivity.
  unfold compare_values, dict_get. rewrite H.
  change (DataQuality.few_anomalies !! "value") with (Some (VInt 1)).
  simpl. unfold Z.leb. destruct (k ?= 1); reflexivity.
Qed.

(** X18: the data-quality workflow never reaches its step bound.  On a
    state whose [data] is a list (or absent), the run of the example
    graph returns a result to which the engine adds no warning.  With at
    most one anomalous entry ([None] or the empty string) it stops after
    two steps and leaves [data] alone; with more it runs the cleaning
    branch once, five steps in all, after which [data] holds the other
    entries in their order and the count is 0.  In both cases
    [row_count] is the length of the original [data]. *)
Theorem data_quality_run (graph_id : string) (state : State) (items : list value) :
  dict_get_default state "data" (VList []) = VList items ->
  exists r,
    run_graph (DataQuality.example_graph graph_id) state = Some (ret r)
    /\ final_state r !! "_warning" = state !! "_warning"
    /\ final_state r !! "row_count" = Some (VInt (Z.of_nat (length items)))
    /\ if (length (List.filter DataQuality.is_anomaly items) <=? 1)%nat
       then
         log r = ["profile_data"; "identify_anomalies"]
         /\ final_state r !! "data" = state !! "data"
         /\ final_state r !! "anomaly_count"
            = Some (VInt (Z.of_nat (length (List.filter DataQuality.is_anomaly items))))
       else
         log r = ["profile_data"; "identify_anomalies"; "generate_rules";
                  "apply_rules"; "identify_anomalies"]
         /\ final_state r !! "data"
            = Some (VList (List.filter (fun x => negb (DataQuality.is_anomaly x)) items))
         /\ final_state r !! "anomaly_count" = Some (VInt 0)
         /\ final_state r !! "anomalies" = Some (VList []).
Proof.
  intros Hdata.
  set (graph := DataQuality.example_graph graph_id).
  set (anomalies := List.filter DataQuality.is_anomaly items).
  set (s1 := <["row_count" := VInt (Z.of_nat (length items))]> state).
  set (s2 := <["anomaly_count" := VInt (Z.of_nat (length anomalies))]>
               (<["anomalies" := VList anomalies]> s1)).
  assert (Hdata1 : dict_get_default s1 "data" (VList []) = VList items).
  { unfold dict_get_default, s1. rewrite lookup_insert_ne by discriminate. exact Hdata. }
  assert (Hmax : max_steps graph = 20) by reflexivity.
  set (l1 := advance (entry graph state) "profile_data" s1 (VStr "identify_anomalies")).
  assert (H1 : while_loop 20 graph (entry graph state) = while_loop 19 graph l1).
  { apply (while_loop_direct_edge graph 19 _ "profile_data" DataQuality.profile_data_tool).
    - reflexivity.
    - rewrite Hmax. simpl. lia.
    - reflexivity.
    - apply call_profile_data, Hdata.
    - reflexivity. }
  assert (Heval2 : _evaluate_condition s2 DataQuality.few_anomalies
                   = ret (Z.of_nat (length anomalies) <=? 1)).
  { apply evaluate_few_anomalies. unfold s2. apply lookup_insert_eq. }
  assert (H2 : forall target,
            DataQuality.few_anomalies
              !! (if Z.of_nat (length anomalies) <=? 1 then "true" else "false")
            = Some target ->
            while_loop 19 graph l1
            = while_loop 18 graph (advance l1 "identify_anomalies" s2 target)).
  { intros target Htarget.
    apply (while_loop_conditional_edge graph 18 l1 "identify_anomalies"
             DataQuality.identify_anomalies_tool s2 DataQuality.few_anomalies
             (Z.of_nat (length anomalies) <=? 1)).
    - reflexivity.
    - rewrite Hmax. simpl. lia.
    - reflexivity.
    - apply (call_identify_anomalies s1 items Hdata1).
    - reflexivity.
    - reflexivity.
    - exact Heval2.
    - exact Htarget. }
  change (run_graph graph state)
    with (result_of graph <$> while_loop 20 graph (entry graph state)).
  rewrite H1.
  destruct (length anomalies <=? 1)%nat eqn:Hfew.
  - apply Nat.leb_le in Hfew.
    replace (Z.of_nat (length anomalies) <=? 1) with true in H2
      by (symmetry; apply Z.leb_le; lia).
    rewrite (H2 VNone eq_refl).
    rewrite while_loop_current_none by reflexivity.
    eexists. split; [ reflexivity | ].
    cbn [result_of]. rewrite finish_early by (rewrite Hmax; simpl; lia).
    cbn [final_state log l_state l_log advance entry app].
    unfold s2, s1.
    repeat split;
      repeat (rewrite lookup_insert_eq || rewrite lookup_insert_ne by discriminate);
      reflexivity.
  - apply Nat.leb_gt in Hfew.
    replace (Z.of_nat (length anomalies) <=? 1) with false in H2
      by (symmetry; apply Z.leb_gt; lia).
    rewrite (H2 (VStr "generate_rules") eq_refl).
    set (l2 := advance l1 "identify_anomalies" s2 (VStr "generate_rules")).
    set (s3 := <["rules" := VList [VStr "No nulls allowed"]]> s2).
    set (cleaned := List.filter (fun x => negb (DataQuality.is_anomaly x)) items).
    set (s4 := <["anomaly_count" := VInt 0]> (<["data" := VList cleaned]> s3)).
    set (s5 := <["anomaly_count" := VInt (Z.of_nat (length (@nil value)))]>
                 (<["anomalies" := VList []]> s4)).
    rewrite (while_loop_direct_edge graph 17 l2 "generate_rules"
               DataQuality.generate_rules_tool s3 "apply_rules");
      [ | reflexivity | rewrite Hmax; simpl; lia | reflexivity | reflexivity | reflexivity ].
    set (l3 := advance l2 "generate_rules" s3 (VStr "apply_rules")).
    rewrite (while_loop_direct_edge graph 16 l3 "apply_rules"
               DataQuality.apply_rules_tool s4 "identify_anomalies");
      [ | reflexivity | rewrite Hmax; simpl; lia | reflexivity | | reflexivity ].
    2:{ apply (call_apply_rules s3 items). unfold dict_get_default, s3, s2.
        repeat (rewrite lookup_insert_ne by discriminate). exact Hdata1. }
    set (l4 := advance l3 "apply_rules" s4 (VStr "identify_anomalies")).
    rewrite (while_loop_conditional_edge graph 15 l4 "identify_anomalies"
               DataQuality.identify_anomalies_tool s5 DataQuality.few_anomalies
               true VNone);
      [ | reflexivity | rewrite Hmax; simpl; lia | reflexivity | | reflexivity
        | reflexivity | | reflexivity ].
    2:{ change (call DataQuality.identify_anomalies_tool s4 = ReturnDict s5).
        rewrite (call_identify_anomalies s4 cleaned).
        - unfold cleaned. rewrite no_anomaly_after_cleaning. reflexivity.
        - unfold dict_get_default, s4. rewrite lookup_insert_ne by discriminate.
          rewrite lookup_insert_eq. reflexivity. }
    2:{ apply (evaluate_few_anomalies s5 0). unfold s5. apply lookup_insert_eq. }
    rewrite while_loop_current_none by reflexivity.
    eexists. split; [ reflexivity | ].
    cbn [result_of]. rewrite finish_early by (rewrite Hmax; simpl; lia).
    cbn [final_state log l_state l_log advance entry app].
    unfold s5, s4, s3, s2, s1.
    repeat split;
      repeat (rewrite lookup_insert_eq || rewrite lookup_insert_ne by discriminate);
      reflexivity.
Qed.

(** An instance: four entries, two of them anomalous. *)
Lemma data_quality_run_example :
  exists r,
    run_graph (DataQuality.example_graph "g") dirty_data = Some (ret r)
    /\ log r = ["profile_data"; "identify_anomalies"; "generate_rules";
                "apply_rules"; "identify_anomalies"]
    /\ final_state r !! "data" = Some (VList [VInt 1; VStr "x"])
    /\ final_state r !! "row_count" = Some (VInt 4).
Proof.
  destruct (data_quality_run "g" dirty_data [VInt 1; VNone; VStr ""; VStr "x"] eq_refl)
    as (r & Hrun & _ & Hrows & Hcase).
  exists r. simpl in Hcase. destruct Hcase as (Hlog & Hdata & _).
  split; [ exact Hrun | ]. split; [ exact Hlog | ]. split; [ exact Hdata | exact Hrows ].
Defined.

(** ** Invariants of the steps *)

(** A returned result comes from locals that the ghost fields
    describe. *)
Lemma run_graph_returned (graph : Graph) (initial_state : State) (r : RunResult) :
  run_graph graph initial_state = Some (ret r) ->
  exists l, ghost_ok graph initial_state l /\ r = finish graph l.
Proof.
  destruct (run_loop_ends graph initial_state) as (o & Hloop & Hpost).
  unfold run_graph, run_graph_fuel. rewrite Hloop. simpl. intros Hr.
  destruct o as [ l | l | e l ]; simpl in *.
  - exists l. split; [ apply Hpost | congruence ].
  - exists l. split; [ apply Hpost | congruence ].
  - congruence.
Qed.

(** A property that every step preserves holds along a threaded
    history. *)
Lemma threaded_invariant (graph : Graph) (P : State -> Prop)
    (state : State) (hist : list (string * State)) :
  (forall name node_fn s s',
      nodes graph !! name = Some node_fn -> P s ->
      call node_fn s = ReturnDict s' -> P s') ->
  P state -> threaded graph state hist -> P (last_state state hist).
Proof.
  intros Hstep. revert state.
  induction hist as [ | [name s'] hist IH ]; intros state HP Hthr.
  - exact HP.
  - rewrite last_state_cons. destruct Hthr as [(node_fn & Hnode & Hcall) Hthr].
    apply IH; [ | exact Hthr ]. exact (Hstep name node_fn state s' Hnode HP Hcall).
Qed.

(** X19: an invariant of the steps is an invariant of the run.  When a
    property holds of the initial state and every node function of the
    graph, called on a state with the property, returns only dicts with
    the property, then a returned final state is a state with the
    property on which the engine has set its two fields. *)
Theorem run_graph_preserves_invariant (graph : Graph) (P : State -> Prop)
    (initial_state : State) (r : RunResult) :
  P initial_state ->
  (forall name node_fn s s',
      nodes graph !! name = Some node_fn -> P s ->
      call node_fn s = ReturnDict s' -> P s') ->
  run_graph graph initial_state = Some (ret r) ->
  exists s,
    P s
    /\ forall k, k <> "_warning" -> k <> "_execution_log" ->
                 final_state r !! k = s !! k.
Proof.
  intros Hinit Hstep Hrun.
  destruct (run_graph_returned graph initial_state r Hrun)
    as (l & (_ & _ & Hthr & Hst) & ->).
  exists (l_state l). split.
  - rewrite Hst. apply (threaded_invariant graph P); assumption.
  - intros k Hw Hl. unfold finish; simpl.
    rewrite lookup_insert_ne by congruence.
    destruct (max_steps graph <=? l_steps l); [ | reflexivity ].
    rewrite lookup_insert_ne by congruence. reflexivity.
Qed.

(** An instance: no step of Scenario A unsets the key [a]. *)
Lemma run_graph_preserves_invariant_example :
  exists s : State,
    s !! "a" = Some (VBool true)
    /\ forall k, k <> "_warning" -> k <> "_execution_log" ->
                 final_state scenario_A_result !! k = s !! k.
Proof.
  apply (run_graph_preserves_invariant Scenarios.linear_abc
           (fun s => s !! "a" = Some (VBool true)) {[ "a" := VBool true ]}
           scenario_A_result).
  - reflexivity.
  - intros name node_fn s s' Hnode Hs Hcall.
    assert (Hfn : exists n, node_fn = Scenarios.add_own_name n).
    { unfold Scenarios.linear_abc in Hnode; simpl in Hnode.
      repeat (rewrite lookup_insert in Hnode; case_decide;
              [ injection Hnode as <-; eauto | ]).
      apply lookup_singleton_Some in Hnode as [_ <-]. eauto. }
    destruct Hfn as [n ->]. simpl in Hcall. injection Hcall as <-.
    destruct (decide (n = "a")) as [-> | Hne].
    + apply lookup_insert_eq.
    + rewrite lookup_insert_ne by exact Hne. exact Hs.
  - vm_compute; reflexivity.
Defined.

(** ** The trace as a path *)

(** The loop ends at a reached pass. *)
Lemma while_loop_reaches (graph : Graph) (fuel : nat) (l : locals) (o : outcome) :
  while_loop fuel graph l = Some o ->
  exists l',
    reaches graph l l'
    /\ match o with
       | Exited l'' =>
           l'' = l'
           /\ negb (is_None (l_current l')) && (l_steps l' <? max_steps graph) = false
       | Broke l'' =>
           negb (is_None (l_current l')) && (l_steps l' <? max_steps graph) = true
           /\ loop_body graph l' = Break l''
       | Raised e l'' =>
           negb (is_None (l_current l')) && (l_steps l' <? max_steps graph) = true
           /\ loop_body graph l' = Raise e l''
       end.
Proof.
  revert l. induction fuel as [ | fuel IH ]; intros l; simpl;
    destruct (negb (is_None (l_current l)) && (l_steps l <? max_steps graph)) eqn:G.
  - discriminate.
  - intros [= <-]. exists l. split; [ apply reaches_here | auto ].
  - destruct (loop_body graph l) as [ l1 | l1 | e l1 ] eqn:Hbody.
    + intros H. destruct (IH l1 H) as (l' & Hreach & Ho).
      exists l'. split; [ eapply reaches_pass; eassumption | exact Ho ].
    + intros [= <-]. exists l. split; [ apply reaches_here | auto ].
    + intros [= <-]. exists l. split; [ apply reaches_here | auto ].
  - intros [= <-]. exists l. split; [ apply reaches_here | auto ].
Qed.

(** The trace after one more node. *)
Lemma path_snoc (graph : Graph) (log : list string) (name : string) :
  (forall i a b, log !! i = Some a -> log !! S i = Some b -> follows graph a b) ->
  (forall a, last log = Some a -> follows graph a name) ->
  forall i a b, (log ++ [name])%list !! i = Some a -> (log ++ [name])%list !! S i = Some b ->
                follows graph a b.
Proof.
  intros Hadj Hlast i a b Ha Hb.
  destruct (decide (S i < length log)%nat) as [Hlt | Hge].
  - rewrite lookup_app_l in Ha by lia. rewrite lookup_app_l in Hb by lia. eauto.
  - assert (Hlen : S i = length log).
    { apply lookup_lt_Some in Hb. rewrite length_app in Hb. simpl in Hb. lia. }
    rewrite lookup_app_l in Ha by lia.
    rewrite lookup_app_r in Hb by lia.
    replace (S i - length log)%nat with 0%nat in Hb by lia. injection Hb as <-.
    apply Hlast. rewrite last_lookup.
    replace (Nat.pred (length log)) with i by lia. exact Ha.
Qed.

(** What a pass that goes through the step adds to the trace. *)
Lemma loop_body_log (graph : Graph) (l : locals) :
  match loop_body graph l with
  | Continue l' =>
      exists name, l_current l = VStr name
                   /\ l_log l' = (l_log l ++ [name])%list
                   /\ forall c, l_current l' = VStr c -> follows graph name c
  | Break l' =>
      exists name, l_current l = VStr name /\ l_log l' = (l_log l ++ [name])%list
  | Raise _ _ => True
  end.
Proof.
  unfold loop_body.
  destruct (lookup_node graph (l_current l)) as [ e | [current node_fn] ] eqn:Hnode;
    [ exact I | ].
  apply lookup_node_inr in Hnode as [Hcur _].
  destruct (_call_node node_fn (l_state l)) as [ e | state ]; [ exact I | ].
  destruct (edges graph !! current) as [ [ target | spec | ] | ] eqn:Hedge; simpl.
  - exists current. repeat split; [ exact Hcur | ].
    intros c [= ->]. unfold follows. rewrite Hedge. reflexivity.
  - destruct (py_eq (dict_get spec "type") (VStr "conditional")); [ | exact I ].
    destruct (_evaluate_condition state spec) as [ e | b ]; [ exact I | ].
    unfold dict_item.
    destruct (spec !! (if b then "true" else "false")) as [ target | ] eqn:Hbranch;
      [ | exact I ].
    exists current. repeat split; [ exact Hcur | ]. simpl. intros c ->.
    unfold follows. rewrite Hedge. destruct b; auto.
  - exists current. auto.
  - exists current. auto.
Qed.

Lemma path_log_snoc (graph : Graph) (l : locals) (name : string) :
  path_inv graph l ->
  l_current l = VStr name ->
  (forall i a b, (l_log l ++ [name])%list !! i = Some a -> (l_log l ++ [name])%list !! S i = Some b ->
                 follows graph a b)
  /\ (forall a, head (l_log l ++ [name])%list = Some a -> a = start_node graph).
Proof.
  intros (Hadj & Hlast & Hnil & Hhead) Hcur. split.
  - apply path_snoc; [ exact Hadj | ]. intros a Ha. apply (Hlast a name Ha Hcur).
  - intros a Ha. destruct (l_log l) as [ | x log ] eqn:E.
    + simpl in Ha. injection Ha as <-.
      specialize (Hnil eq_refl). congruence.
    + simpl in Ha. apply Hhead. exact Ha.
Qed.

Lemma path_inv_pass (graph : Graph) (l l' : locals) (name : string) :
  path_inv graph l ->
  l_current l = VStr name ->
  l_log l' = (l_log l ++ [name])%list ->
  (forall c, l_current l' = VStr c -> follows graph name c) ->
  path_inv graph l'.
Proof.
  intros Hinv Hcur Hlog Hnext.
  destruct (path_log_snoc graph l name Hinv Hcur) as [Hadj Hhead].
  unfold path_inv. rewrite Hlog. split; [ exact Hadj | ]. split; [ | split ].
  - intros a c Ha Hc. rewrite last_snoc in Ha. injection Ha as <-. apply Hnext, Hc.
  - intros H. destruct (l_log l); discriminate.
  - exact Hhead.
Qed.

Lemma reaches_path_inv (graph : Graph) (l l' : locals) :
  reaches graph l l' -> path_inv graph l -> path_inv graph l'.
Proof.
  induction 1 as [ l | l l1 l' G Hbody _ IH ]; intros Hinv; [ exact Hinv | ].
  apply IH. pose proof (loop_body_log graph l) as H. rewrite Hbody in H.
  destruct H as (name & Hcur & Hlog & Hnext).
  exact (path_inv_pass graph l l1 name Hinv Hcur Hlog Hnext).
Qed.

Lemma entry_path_inv (graph : Graph) (initial_state : State) :
  path_inv graph (entry graph initial_state).
Proof.
  unfold path_inv, entry; simpl. repeat split; discriminate.
Qed.

(** Where a returned result comes from: the locals of a reached pass,
    or those after a last pass that ended in [break]. *)
Lemma run_graph_returned_path (graph : Graph) (initial_state : State) (r : RunResult) :
  run_graph graph initial_state = Some (ret r) ->
  exists l,
    r = finish graph l
    /\ ghost_ok graph initial_state l
    /\ (forall i a b, l_log l !! i = Some a -> l_log l !! S i = Some b ->
                      follows graph a b)
    /\ (forall a, head (l_log l) = Some a -> a = start_node graph)
    /\ (0 < max_steps graph -> l_log l <> []).
Proof.
  intros Hrun.
  destruct (run_loop_ends graph initial_state) as (o & Hloop & Hpost).
  unfold run_graph, run_graph_fuel in Hrun. rewrite Hloop in Hrun. simpl in Hrun.
  destruct (while_loop_reaches graph _ _ _ Hloop) as (l' & Hreach & Ho).
  pose proof (reaches_path_inv graph _ _ Hreach (entry_path_inv graph initial_state))
    as Hpath.
  destruct o as [ l | l | e l ]; simpl in *; [ | | discriminate ].
  - destruct Ho as [-> G]. apply guard_false in G.
    destruct Hpath as (Hadj & _ & Hnil & Hhead).
    destruct Hpost as [[Hghost [Hcalls _]] _].
    exists l'. split; [ congruence | ]. split; [ exact Hghost | ].
    split; [ exact Hadj | ]. split; [ exact Hhead | ].
    intros Hpos Hlog. specialize (Hnil Hlog).
    destruct Hghost as (Hlog' & Hlen & _).
    rewrite Hlog in Hlog'. symmetry in Hlog'. apply fmap_nil_inv in Hlog'.
    rewrite Hlog' in Hlen. simpl in Hlen.
    destruct G as [G | G]; [ congruence | lia ].
  - destruct Ho as [_ Hbody]. pose proof (loop_body_log graph l') as H.
    rewrite Hbody in H. destruct H as (name & Hcur & Hlog).
    destruct (path_log_snoc graph l' name Hpath Hcur) as [Hadj Hhead].
    rewrite <- Hlog in Hadj, Hhead.
    exists l. split; [ congruence | ]. split; [ apply Hpost | ].
    split; [ exact Hadj | ]. split; [ exact Hhead | ].
    intros _ H. rewrite H in Hlog. destruct (l_log l'); discriminate.
Qed.

Lemma threaded_nodes (graph : Graph) (state : State) (hist : list (string * State))
    (a : string) :
  threaded graph state hist -> a ∈ hist.*1 -> is_Some (nodes graph !! a).
Proof.
  revert state. induction hist as [ | [name s] hist IH ]; intros state Hthr Hin.
  - simpl in Hin. apply elem_of_nil in Hin. contradiction.
  - simpl in Hin. destruct Hthr as [(node_fn & Hnode & _) Hthr].
    apply elem_of_cons in Hin as [-> | Hin]; [ eauto | ].
    exact (IH s Hthr Hin).
Qed.

(** X20: the trace of a returned run is a path of the graph from the
    start node.  It begins with [start_node] (and is not empty when the
    step bound is positive), each entry is a key of [nodes], and each
    entry is followed by the target of its node's direct edge or by one
    of the two branch targets of its conditional edge. *)
Theorem run_graph_trace_is_path (graph : Graph) (initial_state : State) (r : RunResult) :
  run_graph graph initial_state = Some (ret r) ->
  (forall a, head (log r) = Some a -> a = start_node graph)
  /\ (0 < max_steps graph -> head (log r) = Some (start_node graph))
  /\ (forall a, a ∈ log r -> is_Some (nodes graph !! a))
  /\ (forall i a b, log r !! i = Some a -> log r !! S i = Some b -> follows graph a b).
Proof.
  intros Hrun.
  destruct (run_graph_returned_path graph initial_state r Hrun)
    as (l & -> & (Hlog & _ & Hthr & _) & Hadj & Hhead & Hne).
  simpl. split; [ exact Hhead | ]. split; [ | split ].
  - intros Hpos. specialize (Hne Hpos).
    destruct (l_log l) as [ | a log ] eqn:E; [ contradiction | ].
    simpl. f_equal. apply Hhead. reflexivity.
  - intros a Ha. rewrite Hlog in Ha. exact (threaded_nodes graph _ _ a Hthr Ha).
  - exact Hadj.
Qed.

(** An instance: the trace of Scenario A. *)
Lemma run_graph_trace_is_path_example :
  head (log scenario_A_result) = Some (start_node Scenarios.linear_abc)
  /\ follows Scenarios.linear_abc "a" "b".
Proof.
  destruct (run_graph_trace_is_path Scenarios.linear_abc ∅ scenario_A_result)
    as (_ & Hhead & _ & Hadj).
  - vm_compute; reflexivity.
  - split.
    + apply Hhead. vm_compute; reflexivity.
    + apply (Hadj 0%nat "a" "b"); reflexivity.
Defined.

(** ** The code-review workflow *)

Lemma setdefault_lookup (state : State) (k : string) (v : value) :
  setdefault state k v !! k = Some (default v (state !! k)).
Proof.
  unfold setdefault. destruct (state !! k) as [ x | ] eqn:E.
  - rewrite E. reflexivity.
  - rewrite lookup_insert_eq. reflexivity.
Qed.

Lemma setdefault_lookup_ne (state : State) (k k' : string) (v : value) :
  k <> k' -> setdefault state k v !! k' = state !! k'.
Proof.
  intros Hne. unfold setdefault. destruct (state !! k); [ reflexivity | ].
  apply lookup_insert_ne, Hne.
Qed.

Lemma setdefault_present (state : State) (k : string) (v x : value) :
  state !! k = Some x -> setdefault state k v = state.
Proof. intros H. unfold setdefault. rewrite H. reflexivity. Qed.

Section CodeReviewTools.

Variable findall : string -> string -> list string.
Variable splitlines : string -> list string.

Lemma extract_functions_spec (state : State) (code : string) :
  state !! "code" = Some (VStr code) ->
  exists state',
    call (CodeReview.extract_functions_tool findall) state = ReturnDict state'
    /\ state' !! "functions"
       = Some (VList (VStr <$> findall CodeReview.function_pattern code))
    /\ state' !! "quality_score" = Some (default (VInt 50) (state !! "quality_score"))
    /\ state' !! "issues" = Some (default (VInt 0) (state !! "issues"))
    /\ state' !! "suggestions" = Some (default (VList []) (state !! "suggestions"))
    /\ forall k, k <> "functions" -> k <> "quality_score" -> k <> "issues" ->
                 k <> "suggestions" -> state' !! k = state !! k.
Proof.
  intros Hcode. eexists. split.
  { unfold CodeReview.extract_functions_tool; cbn [call].
    unfold dict_get_default. rewrite Hcode. cbn [default from_option id]. reflexivity. }
  split; [ | split; [ | split; [ | split ] ] ].
  - rewrite !setdefault_lookup_ne by discriminate. apply lookup_insert_eq.
  - rewrite !setdefault_lookup_ne by discriminate. rewrite setdefault_lookup.
    rewrite lookup_insert_ne by discriminate. reflexivity.
  - rewrite setdefault_lookup_ne by discriminate. rewrite setdefault_lookup.
    rewrite setdefault_lookup_ne by discriminate.
    rewrite lookup_insert_ne by discriminate. reflexivity.
  - rewrite setdefault_lookup. rewrite !setdefault_lookup_ne by discriminate.
    rewrite lookup_insert_ne by discriminate. reflexivity.
  - intros k H1 H2 H3 H4. rewrite !setdefault_lookup_ne by congruence.
    apply lookup_insert_ne. congruence.
Qed.

Lemma check_complexity_spec (state : State) (code : string) (fs : list value) (q : Z) :
  state !! "code" = Some (VStr code) ->
  state !! "functions" = Some (VList fs) ->
  state !! "quality_score" = Some (VInt q) ->
  exists state' cs,
    call (CodeReview.check_complexity_tool findall) state = ReturnDict state'
    /\ cs = Z.of_nat (length (findall CodeReview.keyword_pattern code))
            + Z.of_nat (length fs)
    /\ state' !! "complexity_score" = Some (VInt cs)
    /\ state' !! "quality_score" = Some (VInt (Z.min 100 (q + Z.max 0 (10 - cs))))
    /\ forall k, k <> "complexity_score" -> k <> "quality_score" ->
                 state' !! k = state !! k.
Proof.
  intros Hcode Hfs Hq. eexists. eexists. split.
  { unfold CodeReview.check_complexity_tool; cbn [call]. cbv zeta.
    unfold dict_get_default. rewrite Hcode, Hfs. cbn [default from_option id py_len].
    rewrite lookup_insert_ne by discriminate. rewrite Hq. cbn [default from_option id].
    unfold py_add_int. cbn [as_num]. reflexivity. }
  split; [ reflexivity | ]. split; [ | split ].
  - rewrite lookup_insert_ne by discriminate. apply lookup_insert_eq.
  - apply lookup_insert_eq.
  - intros k H1 H2. rewrite !lookup_insert_ne by congruence. reflexivity.
Qed.

Lemma detect_issues_spec (state : State) (code : string) (q : Z) :
  state !! "code" = Some (VStr code) ->
  state !! "quality_score" = Some (VInt q) ->
  exists state',
    call (CodeReview.detect_issues_tool splitlines) state = ReturnDict state'
    /\ state' !! "issues" = Some (VInt (CodeReview.issues_of splitlines code))
    /\ state' !! "quality_score"
       = Some (VInt (Z.max 0 (q - CodeReview.issues_of splitlines code * 2)))
    /\ forall k, k <> "issues" -> k <> "quality_score" -> k <> "issue_summary" ->
                 state' !! k = state !! k.
Proof.
  intros Hcode Hq. eexists. split.
  { unfold CodeReview.detect_issues_tool; cbn [call]. cbv zeta.
    unfold dict_get_default. rewrite Hcode. cbn [default from_option id].
    rewrite lookup_insert_ne by discriminate. rewrite Hq. cbn [default from_option id].
    unfold py_sub_int. cbn [as_num]. reflexivity. }
  split; [ | split ].
  - rewrite !lookup_insert_ne by discriminate. apply lookup_insert_eq.
  - rewrite lookup_insert_ne by discriminate. apply lookup_insert_eq.
  - intros k H1 H2 H3. rewrite !lookup_insert_ne by congruence. reflexivity.
Qed.

Lemma suggest_improvements_spec (state : State) (sg : list value) (cs n q : Z) :
  state !! "suggestions" = Some (VList sg) ->
  state !! "complexity_score" = Some (VInt cs) ->
  state !! "issues" = Some (VInt n) ->
  state !! "quality_score" = Some (VInt q) ->
  exists state' sg',
    call CodeReview.suggest_improvements_tool state = ReturnDict state'
    /\ state' !! "suggestions" = Some (VList sg')
    /\ sg' <> []
    /\ state' !! "quality_score" = Some (VInt (Z.min 100 (q + 5)))
    /\ forall k, k <> "suggestions" -> k <> "quality_score" ->
                 state' !! k = state !! k.
Proof.
  intros Hsg Hcs Hn Hq.
  assert (Happ : exists sg',
            (complex <- compare_values Gt (VInt cs) (VInt 10) ;;
             suggestions <-
               CodeReview.append_if complex (VList sg)
                 "Consider breaking complex functions into smaller ones." ;;
             flagged <- compare_values Gt (VInt n) (VInt 0) ;;
             suggestions <-
               CodeReview.append_if flagged suggestions
                 "Address flagged TODOs and long lines." ;;
             CodeReview.append_if (negb (py_truthy suggestions)) suggestions
               "Code looks clean. Minor refactoring only if necessary.")
            = ret (VList sg') /\ sg' <> []).
  { assert (Hsnoc : forall (l : list value) x, py_truthy (VList (l ++ [x])) = true)
      by (intros [ | y l ] x; reflexivity).
    unfold compare_values. cbn [py_order as_num bind].
    destruct (ordop_of_comparison Gt (cs ?= 10));
      destruct (ordop_of_comparison Gt (n ?= 0));
      cbn [CodeReview.append_if py_append bind]; rewrite ?Hsnoc; cbn [negb].
    - eexists. split; [ reflexivity | destruct sg; discriminate ].
    - eexists. split; [ reflexivity | destruct sg; discriminate ].
    - eexists. split; [ reflexivity | destruct sg; discriminate ].
    - destruct sg as [ | x sg ]; cbn [py_truthy negb py_append].
      + eexists. split; [ reflexivity | discriminate ].
      + eexists. split; [ reflexivity | discriminate ]. }
  destruct Happ as (sg' & Happ & Hne).
  eexists. exists sg'. split.
  { unfold CodeReview.suggest_improvements_tool; cbn [call]. cbv zeta.
    rewrite (setdefault_present state "suggestions" (VList []) (VList sg) Hsg).
    unfold dict_get, dict_get_default. rewrite Hsg, Hcs, Hn. cbn [default from_option id].
    rewrite Happ. rewrite lookup_insert_ne by discriminate. rewrite Hq. cbn [default from_option id].
    unfold py_add_int. cbn [as_num]. reflexivity. }
  split; [ | split; [ exact Hne | split ] ].
  - rewrite lookup_insert_ne by discriminate. apply lookup_insert_eq.
  - apply lookup_insert_eq.
  - intros k H1 H2. rewrite !lookup_insert_ne by congruence. reflexivity.
Qed.

End CodeReviewTools.

(** A property that holds of the initial state and that every step
    turns into a second one, which the steps then keep, holds of the
    last state once a step has run. *)
Lemma threaded_establishes (graph : Graph) (P Q : State -> Prop)
    (state : State) (hist : list (string * State)) :
  (forall s, Q s -> P s) ->
  (forall name node_fn s s',
      nodes graph !! name = Some node_fn -> P s ->
      call node_fn s = ReturnDict s' -> Q s') ->
  P state -> threaded graph state hist -> hist <> [] ->
  Q (last_state state hist).
Proof.
  intros HQP Hstep HP Hthr Hne.
  destruct hist as [ | [name s1] hist ]; [ contradiction | ].
  rewrite last_state_cons. destruct Hthr as [(node_fn & Hnode & Hcall) Hthr].
  apply (threaded_invariant graph Q); [ | | exact Hthr ].
  - intros n f s s' Hn Hs Hc. exact (Hstep n f s s' Hn (HQP s Hs) Hc).
  - exact (Hstep name node_fn state s1 Hnode HP Hcall).
Qed.

Section CodeReviewQuality.

Variable findall : string -> string -> list string.
Variable splitlines : string -> list string.

Lemma quality_default (state : State) :
  CodeReview.quality_in_range state ->
  exists q, default (VInt 50) (state !! "quality_score") = VInt q /\ 0 <= q <= 100.
Proof.
  unfold CodeReview.quality_in_range.
  destruct (state !! "quality_score") as [ [ | b | q | s | l ] | ]; simpl;
    try contradiction.
  - eauto.
  - intros _. exists 50. split; [ reflexivity | lia ].
Qed.

Lemma quality_set_in_range (state : State) :
  quality_set state -> CodeReview.quality_in_range state.
Proof.
  intros (q & Hq & Hrange). unfold CodeReview.quality_in_range. rewrite Hq. exact Hrange.
Qed.

Lemma extract_functions_quality (s s' : State) :
  CodeReview.quality_in_range s ->
  call (CodeReview.extract_functions_tool findall) s = ReturnDict s' ->
  quality_set s'.
Proof.
  intros HP. destruct (quality_default s HP) as (q & Hq & Hrange).
  unfold CodeReview.extract_functions_tool; cbn [call]. cbv zeta.
  destruct (dict_get_default s "code" (VStr "")); try discriminate.
  intros [= <-]. exists q. split; [ | exact Hrange ].
  rewrite !setdefault_lookup_ne by discriminate. rewrite setdefault_lookup.
  rewrite lookup_insert_ne by discriminate. rewrite Hq. reflexivity.
Qed.

Lemma check_complexity_quality (s s' : State) :
  CodeReview.quality_in_range s ->
  call (CodeReview.check_complexity_tool findall) s = ReturnDict s' ->
  quality_set s'.
Proof.
  intros HP. destruct (quality_default s HP) as (q & Hq & Hrange).
  unfold CodeReview.check_complexity_tool; cbn [call]. cbv zeta.
  destruct (dict_get_default s "code" (VStr "")); try discriminate.
  destruct (py_len _) as [ e | n ]; [ discriminate | ].
  unfold dict_get_default at 1. rewrite lookup_insert_ne by discriminate.
  rewrite Hq. unfold py_add_int. cbn [as_num].
  intros [= <-]. eexists. split; [ apply lookup_insert_eq | lia ].
Qed.

Lemma detect_issues_quality (s s' : State) :
  CodeReview.quality_in_range s ->
  call (CodeReview.detect_issues_tool splitlines) s = ReturnDict s' ->
  quality_set s'.
Proof.
  intros HP. destruct (quality_default s HP) as (q & Hq & Hrange).
  unfold CodeReview.detect_issues_tool; cbn [call]. cbv zeta.
  destruct (dict_get_default s "code" (VStr "")); try discriminate.
  unfold dict_get_default at 1. rewrite lookup_insert_ne by discriminate.
  rewrite Hq. unfold py_sub_int. cbn [as_num].
  intros [= <-]. eexists. split.
  - rewrite lookup_insert_ne by discriminate. apply lookup_insert_eq.
  - lia.
Qed.

Lemma suggest_improvements_quality (s s' : State) :
  CodeReview.quality_in_range s ->
  call CodeReview.suggest_improvements_tool s = ReturnDict s' ->
  quality_set s'.
Proof.
  intros HP. destruct (quality_default s HP) as (q & Hq & Hrange).
  unfold CodeReview.suggest_improvements_tool; cbn [call]. cbv zeta.
  match goal with
  | |- match ?x with _ => _ end = _ -> _ => destruct x as [ e | sg ]; [ discriminate | ]
  end.
  unfold dict_get_default at 1. rewrite lookup_insert_ne by discriminate.
  rewrite setdefault_lookup_ne by discriminate.
  rewrite Hq. unfold py_add_int. cbn [as_num].
  intros [= <-]. eexists. split; [ apply lookup_insert_eq | lia ].
Qed.

Lemma example_graph_nodes (graph_id name : string) (node_fn : NodeFn) :
  nodes (CodeReview.example_graph findall splitlines graph_id) !! name = Some node_fn ->
  node_fn = CodeReview.extract_functions_tool findall
  \/ node_fn = CodeReview.check_complexity_tool findall
  \/ node_fn = CodeReview.detect_issues_tool splitlines
  \/ node_fn = CodeReview.suggest_improvements_tool.
Proof.
  unfold CodeReview.example_graph; cbn [nodes]. intros H.
  repeat (rewrite lookup_insert in H; case_decide;
          [ injection H as <-; auto | ]).
  apply lookup_singleton_Some in H as [_ <-]. auto.
Qed.

(** X21: the code-review workflow keeps the quality score a
    percentage.  Whatever [re.findall] and [str.splitlines] return, on an
    initial state whose [quality_score] is absent or an integer from 0
    to 100, every result that the run of the example graph returns has
    an integer [quality_score] from 0 to 100. *)
Theorem code_review_quality_in_range (graph_id : string) (state : State) (r : RunResult) :
  CodeReview.quality_in_range state ->
  run_graph (CodeReview.example_graph findall splitlines graph_id) state = Some (ret r) ->
  exists q, final_state r !! "quality_score" = Some (VInt q) /\ 0 <= q <= 100.
Proof.
  intros HP Hrun.
  destruct (run_graph_returned_path _ _ _ Hrun)
    as (l & -> & (Hlog & _ & Hthr & Hst) & _ & _ & Hne).
  assert (Hhist : l_hist l <> []).
  { intros H. apply Hne; [ reflexivity | ]. rewrite Hlog, H. reflexivity. }
  assert (HQ : quality_set (l_state l)).
  { rewrite Hst.
    apply (threaded_establishes (CodeReview.example_graph findall splitlines graph_id)
             CodeReview.quality_in_range quality_set);
      [ exact quality_set_in_range | | exact HP | exact Hthr | exact Hhist ].
    intros name node_fn s s' Hnode Hs Hcall.
    destruct (example_graph_nodes _ _ _ Hnode) as [-> | [-> | [-> | ->]]].
    - exact (extract_functions_quality s s' Hs Hcall).
    - exact (check_complexity_quality s s' Hs Hcall).
    - exact (detect_issues_quality s s' Hs Hcall).
    - exact (suggest_improvements_quality s s' Hs Hcall). }
  destruct HQ as (q & Hq & Hrange). exists q. split; [ | exact Hrange ].
  unfold finish; simpl. rewrite lookup_insert_ne by discriminate.
  destruct (_ <=? _); [ rewrite lookup_insert_ne by discriminate | ]; exact Hq.
Qed.

End CodeReviewQuality.

(** An instance: the empty initial state, with stand-ins for the two
    library functions. *)
Lemma code_review_quality_in_range_example :
  exists r,
    run_graph (CodeReview.example_graph no_match one_line "g") ∅ = Some (ret r)
    /\ exists q, final_state r !! "quality_score" = Some (VInt q) /\ 0 <= q <= 100.
Proof.
  eexists. split; [ vm_compute; reflexivity | ].
  refine (code_review_quality_in_range no_match one_line "g" ∅ _ _ _).
  - exact I.
  - vm_compute; reflexivity.
Defined.

(** The condition of the review loop on a state with a quality score. *)
Lemma evaluate_good_enough (state : State) (k : Z) :
  state !! "quality_score" = Some (VInt k) ->
  _evaluate_condition state CodeReview.good_enough = ret (k >=? 80).
Proof.
  intros H.
  rewrite (evaluate_condition_ordering state CodeReview.good_enough "quality_score" Ge)
    by reflexivity.
  unfold compare_values, dict_get. rewrite H.
  change (CodeReview.good_enough !! "value") with (Some (VInt 80)).
  simpl. unfold Z.geb. destruct (k ?= 80); reflexivity.
Qed.

Section CodeReviewLoop.

Variable findall : string -> string -> list string.
Variable splitlines : string -> list string.
Variable code : string.
Variable graph_id : string.
Variable warning : option value.

Hypothesis clean : CodeReview.issues_of splitlines code = 0.

Local Abbreviation graph := (CodeReview.example_graph findall splitlines graph_id).

(** One round of the loop on clean code: three passes, after which the
    quality has grown by at least 5 or has reached the threshold. *)
Lemma review_round (l : locals) (q j : Z) :
  at_check_complexity code warning l q j ->
  exists l3 qc,
    (forall fuel, while_loop (S (S (S fuel))) graph l = while_loop fuel graph l3)
    /\ (qc < 80 -> q + 5 <= qc)
    /\ (80 <= q -> 80 <= qc)
    /\ if qc >=? 80 then review_done warning l3
       else at_check_complexity code warning l3 qc (j + 1).
Proof.
  intros (Hcur & Hsteps & Hj & Hjq & Hq & Hlen & Hcode & [fs Hfs] & Hqs & [sg Hsg] & Hw).
  assert (Hj15 : j <= 15) by lia.
  assert (Hmax : max_steps graph = 50) by reflexivity.
  (* check_complexity *)
  destruct (check_complexity_spec findall (l_state l) code fs q Hcode Hfs Hqs)
    as (sa & cs & Hcalla & _ & Hcsa & Hqa & Hfra).
  set (qa := Z.min 100 (q + Z.max 0 (10 - cs))) in *.
  set (la := advance l "check_complexity" sa (VStr "detect_issues")).
  assert (Ha : forall fuel, while_loop (S fuel) graph l = while_loop fuel graph la).
  { intros fuel.
    apply (while_loop_direct_edge graph fuel l "check_complexity"
             (CodeReview.check_complexity_tool findall));
      [ exact Hcur | rewrite Hmax; lia | reflexivity | exact Hcalla | reflexivity ]. }
  (* detect_issues *)
  assert (Hcodea : sa !! "code" = Some (VStr code))
    by (rewrite Hfra by discriminate; exact Hcode).
  destruct (detect_issues_spec splitlines sa code qa Hcodea Hqa)
    as (sb & Hcallb & Hib & Hqb & Hfrb).
  rewrite clean in Hib, Hqb.
  replace (Z.max 0 (qa - 0 * 2)) with qa in Hqb by (unfold qa; lia).
  set (lb := advance la "detect_issues" sb (VStr "suggest_improvements")).
  assert (Hb : forall fuel, while_loop (S fuel) graph la = while_loop fuel graph lb).
  { intros fuel.
    apply (while_loop_direct_edge graph fuel la "detect_issues"
             (CodeReview.detect_issues_tool splitlines));
      [ reflexivity | rewrite Hmax; cbn [la advance l_steps]; lia | reflexivity
      | exact Hcallb | reflexivity ]. }
  (* suggest_improvements *)
  assert (Hsgb : sb !! "suggestions" = Some (VList sg)).
  { rewrite Hfrb by discriminate. rewrite Hfra by discriminate. exact Hsg. }
  assert (Hcsb : sb !! "complexity_score" = Some (VInt cs))
    by (rewrite Hfrb by discriminate; exact Hcsa).
  destruct (suggest_improvements_spec sb sg cs 0 qa Hsgb Hcsb Hib Hqb)
    as (sc & sg' & Hcallc & Hsgc & _ & Hqc & Hfrc).
  set (qc := Z.min 100 (qa + 5)) in *.
  assert (Hevalc : _evaluate_condition sc CodeReview.good_enough = ret (qc >=? 80))
    by (apply evaluate_good_enough; exact Hqc).
  assert (Hc : forall target,
            CodeReview.good_enough !! (if qc >=? 80 then "true" else "false")
            = Some target ->
            forall fuel,
              while_loop (S fuel) graph lb
              = while_loop fuel graph (advance lb "suggest_improvements" sc target)).
  { intros target Htarget fuel.
    apply (while_loop_conditional_edge graph fuel lb "suggest_improvements"
             CodeReview.suggest_improvements_tool sc CodeReview.good_enough
             (qc >=? 80));
      [ reflexivity | rewrite Hmax; cbn [lb la advance l_steps]; lia | reflexivity
      | exact Hcallc | reflexivity | reflexivity | exact Hevalc | exact Htarget ]. }
  assert (Hframe : forall k, k <> "complexity_score" -> k <> "quality_score" ->
            k <> "issues" -> k <> "issue_summary" -> k <> "suggestions" ->
            sc !! k = l_state l !! k).
  { intros k H1 H2 H3 H4 H5.
    rewrite Hfrc by congruence. rewrite Hfrb by congruence. apply Hfra; congruence. }
  assert (Hloglen : forall target,
            length (l_log (advance lb "suggest_improvements" sc target))
            = Z.to_nat (1 + 3 * (j + 1))).
  { intros target. cbn [lb la advance l_log]. rewrite !length_app, Hlen. simpl. lia. }
  assert (Hgrow : qc < 80 -> q + 5 <= qc) by (unfold qc, qa; lia).
  assert (Hkeep : 80 <= q -> 80 <= qc) by (unfold qc, qa; lia).
  assert (Hqc100 : 5 * (j + 1) <= qc \/ 80 <= qc) by (unfold qc, qa; lia).
  assert (Hqcle : qc <= 100) by (unfold qc; lia).
  destruct (qc >=? 80) eqn:Hge.
  - assert (Hge' : 80 <= qc) by (apply Z.geb_le; exact Hge).
    exists (advance lb "suggest_improvements" sc VNone), qc.
    split; [ intros fuel; rewrite Ha, Hb; apply (Hc VNone eq_refl) | ].
    split; [ exact Hgrow | ]. split; [ exact Hkeep | ]. rewrite Hge.
    unfold review_done. split; [ reflexivity | ].
    split; [ cbn [lb la advance l_steps]; lia | ].
    split; [ rewrite Hloglen; lia | ].
    split; [ cbn [advance l_log]; apply last_snoc | ].
    split; [ exists qc; split; [ exact Hqc | lia ] | ].
    split.
    + cbn [advance l_state]. rewrite Hfrc by discriminate. exact Hib.
    + cbn [advance l_state]. rewrite Hframe by discriminate. exact Hw.
  - assert (Hlt : qc < 80).
    { destruct (Z.geb_spec qc 80) as [ | H ]; [ discriminate | lia ]. }
    exists (advance lb "suggest_improvements" sc (VStr "check_complexity")), qc.
    split; [ intros fuel; rewrite Ha, Hb; apply (Hc (VStr "check_complexity") eq_refl) | ].
    split; [ exact Hgrow | ]. split; [ exact Hkeep | ]. rewrite Hge.
    unfold at_check_complexity. split; [ reflexivity | ].
    split; [ cbn [lb la advance l_steps]; lia | ].
    split; [ lia | ]. split; [ right; exact Hlt | ]. split; [ lia | ].
    split; [ apply Hloglen | ].
    cbn [advance l_state].
    split; [ rewrite Hframe by discriminate; exact Hcode | ].
    split; [ exists fs; rewrite Hframe by discriminate; exact Hfs | ].
    split; [ exact Hqc | ]. split; [ eauto | ].
    rewrite Hframe by discriminate. exact Hw.
Qed.

(** The loop on clean code ends at the threshold. *)
Lemma review_loop_ends (n : nat) :
  forall (l : locals) (q j : Z),
    at_check_complexity code warning l q j ->
    80 - q <= 5 * Z.of_nat n ->
    exists fuel l',
      while_loop fuel graph l = Some (Exited l') /\ review_done warning l'.
Proof.
  induction n as [ | n IH ]; intros l q j Hinv Hn;
    destruct (review_round l q j Hinv) as (l3 & qc & Hfuel & Hgrow & Hkeep & Hcase);
    destruct (qc >=? 80) eqn:Hge.
  - exists 3%nat, l3. split; [ | exact Hcase ].
    rewrite Hfuel. apply while_loop_current_none, Hcase.
  - exfalso. destruct (Z.geb_spec qc 80) as [ | H ]; [ discriminate | lia ].
  - exists 3%nat, l3. split; [ | exact Hcase ].
    rewrite Hfuel. apply while_loop_current_none, Hcase.
  - assert (Hlt : qc < 80).
    { destruct (Z.geb_spec qc 80) as [ | H ]; [ discriminate | lia ]. }
    destruct (IH l3 qc (j + 1) Hcase) as (fuel & l' & Hloop & Hdone); [ lia | ].
    exists (S (S (S fuel))), l'. split; [ | exact Hdone ].
    rewrite Hfuel. exact Hloop.
Qed.

End CodeReviewLoop.

(** X22: the review loop stops at the threshold on clean code.
    Whatever [re.findall] returns, when [detect_issues_tool] finds no
    issue in the code (no line with [TODO], none longer than 120), the
    initial [quality_score] is absent or an integer from 0 to 100 and
    [suggestions] is absent or a list, the run of the example graph
    returns a result, by the branch to [None] after
    [suggest_improvements] and within 49 node executions, so that the
    engine adds no warning; the final [quality_score] is an integer from
    80 to 100 and [issues] is 0. *)
Theorem code_review_clean_code_reaches_threshold
    (findall : string -> string -> list string) (splitlines : string -> list string)
    (graph_id : string) (state : State) (code : string) :
  state !! "code" = Some (VStr code) ->
  CodeReview.issues_of splitlines code = 0 ->
  CodeReview.quality_in_range state ->
  (state !! "suggestions" = None \/ exists sg, state !! "suggestions" = Some (VList sg)) ->
  exists r q,
    run_graph (CodeReview.example_graph findall splitlines graph_id) state = Some (ret r)
    /\ final_state r !! "_warning" = state !! "_warning"
    /\ final_state r !! "quality_score" = Some (VInt q)
    /\ 80 <= q <= 100
    /\ final_state r !! "issues" = Some (VInt 0)
    /\ (length (log r) <= 49)%nat
    /\ last (log r) = Some "suggest_improvements".
Proof.
  intros Hcode Hclean Hquality Hsugg.
  set (graph := CodeReview.example_graph findall splitlines graph_id).
  destruct (extract_functions_spec findall state code Hcode)
    as (s1 & Hcall & Hfs & Hq & _ & Hsg & Hframe).
  destruct (quality_default state Hquality) as (q0 & Hq0 & Hrange).
  rewrite Hq0 in Hq.
  set (l1 := advance (entry graph state) "extract_functions" s1 (VStr "check_complexity")).
  assert (H1 : forall fuel,
            while_loop (S fuel) graph (entry graph state) = while_loop fuel graph l1).
  { intros fuel.
    apply (while_loop_direct_edge graph fuel _ "extract_functions"
             (CodeReview.extract_functions_tool findall));
      [ reflexivity | cbn; lia | reflexivity | exact Hcall | reflexivity ]. }
  assert (Hinv : at_check_complexity code (state !! "_warning") l1 q0 0).
  { unfold at_check_complexity. cbn [l1 advance entry l_current l_steps l_log l_state].
    split; [ reflexivity | ]. split; [ reflexivity | ]. split; [ lia | ].
    split; [ auto | ]. split; [ lia | ]. split; [ reflexivity | ].
    split; [ rewrite Hframe by discriminate; exact Hcode | ].
    split; [ eauto | ]. split; [ exact Hq | ]. split.
    - rewrite Hsg. destruct Hsugg as [-> | [sg ->]]; simpl; eauto.
    - apply Hframe; discriminate. }
  destruct (review_loop_ends findall splitlines code graph_id (state !! "_warning")
              Hclean 16 l1 q0 0 Hinv)
    as (fuel & l' & Hloop & Hdone); [ lia | ].
  destruct Hdone as (_ & Hsteps & Hlen & Hlast & (q & Hq' & Hq80) & Hissues & Hwarn).
  exists (finish graph l'), q. split.
  { apply (run_graph_from_reached graph state (entry graph state) (S fuel) (Exited l')).
    - apply reaches_here.
    - rewrite H1. exact Hloop. }
  rewrite finish_early by exact Hsteps. cbn [final_state log].
  rewrite !lookup_insert_ne by discriminate. auto 10.
Qed.

(** An instance: one line of code, with stand-ins for the two library
    functions. *)
Lemma code_review_clean_code_reaches_threshold_example :
  exists r q,
    run_graph (CodeReview.example_graph no_match one_line "g") clean_code = Some (ret r)
    /\ final_state r !! "_warning" = clean_code !! "_warning"
    /\ final_state r !! "quality_score" = Some (VInt q)
    /\ 80 <= q <= 100
    /\ final_state r !! "issues" = Some (VInt 0)
    /\ (length (log r) <= 49)%nat
    /\ last (log r) = Some "suggest_improvements".
Proof.
  apply (code_review_clean_code_reaches_threshold no_match one_line "g" clean_code "x = 1").
  - reflexivity.
  - vm_compute; reflexivity.
  - exact I.
  - left. reflexivity.
Defined.

(** ** Runs that only the bound stops *)

Lemma loop_body_direct_edge (graph : Graph) (l : locals) (name : string)
    (node_fn : NodeFn) (state : State) (target : string) :
  l_current l = VStr name ->
  nodes graph !! name = Some node_fn ->
  call node_fn (l_state l) = ReturnDict state ->
  edges graph !! name = Some (EdgeStr target) ->
  loop_body graph l = Continue (advance l name state (VStr target)).
Proof.
  intros Hcur Hnode Hcall Hedge.
  unfold loop_body, lookup_node, _call_node. rewrite Hcur, Hnode, Hcall, Hedge.
  reflexivity.
Qed.

Lemma loop_body_conditional_edge (graph : Graph) (l : locals) (name : string)
    (node_fn : NodeFn) (state : State) (spec : gmap string value)
    (b : bool) (target : value) :
  l_current l = VStr name ->
  nodes graph !! name = Some node_fn ->
  call node_fn (l_state l) = ReturnDict state ->
  edges graph !! name = Some (EdgeDict spec) ->
  dict_get spec "type" = VStr "conditional" ->
  _evaluate_condition state spec = ret b ->
  spec !! (if b then "true" else "false") = Some target ->
  loop_body graph l = Continue (advance l name state target).
Proof.
  intros Hcur Hnode Hcall Hedge Htype Heval Hbranch.
  unfold loop_body, lookup_node, _call_node. rewrite Hcur, Hnode, Hcall, Hedge.
  rewrite Htype. change (py_eq (VStr "conditional") (VStr "conditional")) with true.
  cbv iota. rewrite Heval. unfold dict_item. rewrite Hbranch. reflexivity.
Qed.

(** When a property of the locals makes every pass under the bound go
    on to a next node, only the bound stops the run: it returns with the
    warning and a trace of [max_steps] entries. *)
Lemma never_ending_run (graph : Graph) (initial_state : State) (J : locals -> Prop) :
  J (entry graph initial_state) ->
  (forall l, J l -> l_current l <> VNone) ->
  (forall l, J l -> l_steps l < max_steps graph ->
             exists l1, loop_body graph l = Continue l1 /\ J l1) ->
  exists r,
    run_graph graph initial_state = Some (ret r)
    /\ final_state r !! "_warning" = Some (VStr (warning_text graph))
    /\ length (log r) = Z.to_nat (max_steps graph).
Proof.
  intros Hentry Hcur Hpass.
  assert (Hreach : forall l l', reaches graph l l' -> J l -> J l').
  { induction 1 as [ l | l l1 l' G Hbody _ IH ]; intros HJ; [ exact HJ | ].
    apply IH. apply guard_true in G as [_ Hlt].
    destruct (Hpass l HJ Hlt) as (l1' & Hbody' & HJ1).
    rewrite Hbody in Hbody'. injection Hbody' as <-. exact HJ1. }
  destruct (run_loop_ends graph initial_state) as (o & Hloop & Hpost).
  destruct (while_loop_reaches graph _ _ _ Hloop) as (l' & Hreached & Ho).
  pose proof (Hreach _ _ Hreached Hentry) as HJ.
  destruct o as [ l | l | e l ].
  - destruct Ho as [-> G]. apply guard_false in G.
    destruct G as [G | G]; [ exfalso; exact (Hcur l' HJ G) | ].
    destruct Hpost as [[(Hlog & Hlen & _) [Hcalls Hbound]] _].
    exists (finish graph l'). split.
    { unfold run_graph, run_graph_fuel. rewrite Hloop. reflexivity. }
    split.
    + rewrite finish_warning. apply Z.leb_le in G. rewrite G. reflexivity.
    + simpl. rewrite Hlog, length_fmap, Hlen. lia.
  - exfalso. destruct Ho as [G Hbody]. apply guard_true in G as [_ Hlt].
    destruct (Hpass l' HJ Hlt) as (l1 & Hbody' & _). congruence.
  - exfalso. destruct Ho as [G Hbody]. apply guard_true in G as [_ Hlt].
    destruct (Hpass l' HJ Hlt) as (l1 & Hbody' & _). congruence.
Qed.

(** X23: the review loop cannot reach the threshold on code with many
    issues.  When twice the number of issues is at least the complexity
    bonus plus 5, the initial [quality_score] is absent or an integer
    from 0 to 79 and [suggestions] is absent or a list, each round of the
    loop leaves the quality below 80, so only the step bound stops the
    run: it returns after 50 node executions with the warning. *)
Theorem code_review_many_issues_hits_bound
    (findall : string -> string -> list string) (splitlines : string -> list string)
    (graph_id : string) (state : State) (code : string) :
  state !! "code" = Some (VStr code) ->
  Z.max 0 (10 - complexity_of findall code) + 5
    <= 2 * CodeReview.issues_of splitlines code ->
  (state !! "quality_score" = None
   \/ exists q, state !! "quality_score" = Some (VInt q) /\ 0 <= q < 80) ->
  (state !! "suggestions" = None \/ exists sg, state !! "suggestions" = Some (VList sg)) ->
  exists r,
    run_graph (CodeReview.example_graph findall splitlines graph_id) state = Some (ret r)
    /\ final_state r !! "_warning" = Some (VStr "Stopped after reaching max_steps=50")
    /\ length (log r) = 50%nat.
Proof.
  intros Hcode Hmany Hquality Hsugg.
  set (graph := CodeReview.example_graph findall splitlines graph_id).
  set (n := CodeReview.issues_of splitlines code) in *.
  apply (never_ending_run graph state (review_stuck findall splitlines code)).
  - split; [ exact Hcode | ]. left. auto.
  - intros l (_ & [(Hcur & _) | (_ & _ & q & _ & _ & [(Hcur & _) | [(Hcur & _) | (Hcur & _)]])]);
      rewrite Hcur; discriminate.
  - intros l (Hc & Hpos) _.
    destruct Hpos as [(Hcur & Hq & Hsg) | (Hfs & [sg Hsg] & q & Hq & Hq0 & Hpos)].
    + (* extract_functions *)
      destruct (extract_functions_spec findall (l_state l) code Hc)
        as (s1 & Hcall & Hfs1 & Hq1 & _ & Hsg1 & Hframe).
      eexists. split.
      { apply (loop_body_direct_edge graph l "extract_functions"
                 (CodeReview.extract_functions_tool findall) s1 "check_complexity");
          [ exact Hcur | reflexivity | exact Hcall | reflexivity ]. }
      split; cbn [advance l_state l_current].
      { rewrite Hframe by discriminate. exact Hc. }
      right. split; [ exact Hfs1 | ]. split.
      { rewrite Hsg1. destruct Hsg as [-> | [sg ->]]; simpl; eauto. }
      destruct Hq as [Hnone | (q & Hq & Hrange)].
      * exists 50. rewrite Hq1, Hnone. split; [ reflexivity | ].
        split; [ lia | ]. left. split; [ reflexivity | lia ].
      * exists q. rewrite Hq1, Hq. split; [ reflexivity | ].
        split; [ lia | ]. left. split; [ reflexivity | lia ].
    + destruct Hpos as [(Hcur & Hlt) | [(Hcur & Hlt & Hcs) | (Hcur & Hlt & Hcs & Hn)]].
      * (* check_complexity *)
        destruct (check_complexity_spec findall (l_state l) code _ q Hc Hfs Hq)
          as (sa & cs & Hcall & Hcsdef & Hcsa & Hqa & Hframe).
        rewrite length_fmap in Hcsdef. fold (complexity_of findall code) in Hcsdef.
        subst cs.
        eexists. split.
        { apply (loop_body_direct_edge graph l "check_complexity"
                   (CodeReview.check_complexity_tool findall) sa "detect_issues");
            [ exact Hcur | reflexivity | exact Hcall | reflexivity ]. }
        split; cbn [advance l_state l_current].
        { rewrite Hframe by discriminate. exact Hc. }
        right. split; [ rewrite Hframe by discriminate; exact Hfs | ].
        split; [ exists sg; rewrite Hframe by discriminate; exact Hsg | ].
        eexists. split; [ exact Hqa | ]. split; [ lia | ].
        right. left. split; [ reflexivity | ]. split; [ lia | exact Hcsa ].
      * (* detect_issues *)
        destruct (detect_issues_spec splitlines (l_state l) code q Hc Hq)
          as (sb & Hcall & Hib & Hqb & Hframe).
        eexists. split.
        { apply (loop_body_direct_edge graph l "detect_issues"
                   (CodeReview.detect_issues_tool splitlines) sb "suggest_improvements");
            [ exact Hcur | reflexivity | exact Hcall | reflexivity ]. }
        split; cbn [advance l_state l_current].
        { rewrite Hframe by discriminate. exact Hc. }
        right. split; [ rewrite Hframe by discriminate; exact Hfs | ].
        split; [ exists sg; rewrite Hframe by discriminate; exact Hsg | ].
        eexists. split; [ exact Hqb | ]. fold n. split; [ lia | ].
        right. right. split; [ reflexivity | ]. split; [ lia | ].
        split; [ rewrite Hframe by discriminate; exact Hcs | exact Hib ].
      * (* suggest_improvements *)
        destruct (suggest_improvements_spec (l_state l) sg _ _ q Hsg Hcs Hn Hq)
          as (sc & sg' & Hcall & Hsgc & _ & Hqc & Hframe).
        assert (Heval : _evaluate_condition sc CodeReview.good_enough = ret false).
        { rewrite (evaluate_good_enough sc _ Hqc). f_equal.
          destruct (Z.geb_spec (Z.min 100 (q + 5)) 80); [ lia | reflexivity ]. }
        eexists. split.
        { apply (loop_body_conditional_edge graph l "suggest_improvements"
                   CodeReview.suggest_improvements_tool sc CodeReview.good_enough
                   false (VStr "check_complexity"));
            [ exact Hcur | reflexivity | exact Hcall | reflexivity | reflexivity
            | exact Heval | reflexivity ]. }
        split; cbn [advance l_state l_current].
        { rewrite Hframe by discriminate. exact Hc. }
        right. split; [ rewrite Hframe by discriminate; exact Hfs | ].
        split; [ eauto | ].
        eexists. split; [ exact Hqc | ]. split; [ lia | ].
        left. split; [ reflexivity | lia ].
Qed.

(** An instance: eight lines with a [TODO] each. *)
Lemma code_review_many_issues_hits_bound_example :
  exists r,
    run_graph (CodeReview.example_graph no_match eight_todos "g") clean_code = Some (ret r)
    /\ final_state r !! "_warning" = Some (VStr "Stopped after reaching max_steps=50")
    /\ length (log r) = 50%nat.
Proof.
  apply (code_review_many_issues_hits_bound no_match eight_todos "g" clean_code "x = 1").
  - reflexivity.
  - vm_compute. discriminate.
  - left. reflexivity.
  - left. reflexivity.
Defined.

(** [create_code_review_graph] after [register_code_review_tools] gives
    the example graph. *)
Lemma create_code_review_graph_registered
    (findall : string -> string -> list string) (splitlines : string -> list string)
    (tool_registry : ToolRegistry.t) (graph_id : string) :
  CodeReview.create_code_review_graph
    (CodeReview.register_code_review_tools findall splitlines tool_registry) graph_id
  = ret (CodeReview.example_graph findall splitlines graph_id).
Proof.
  unfold CodeReview.create_code_review_graph, CodeReview.register_code_review_tools,
    ToolRegistry.get, ToolRegistry.register.
  cbn [ToolRegistry._tools].
  repeat (rewrite lookup_insert_eq || rewrite lookup_insert_ne by discriminate).
  reflexivity.
Qed.

(** ** The summarization workflow *)

Lemma str_items_strs (l : list string) : str_items (VStr <$> l) = ret l.
Proof.
  induction l as [ | s l IH ]; [ reflexivity | ].
  rewrite fmap_cons. cbn [str_items]. rewrite IH. reflexivity.
Qed.

Lemma evaluate_short_enough (state : State) (k : Z) :
  state !! "summary_length" = Some (VInt k) ->
  _evaluate_condition state Summarization.short_enough = ret (k <=? 150).
Proof.
  intros H.
  rewrite (evaluate_condition_ordering state Summarization.short_enough
             "summary_length" Le) by reflexivity.
  unfold compare_values, dict_get. rewrite H.
  change (Summarization.short_enough !! "value") with (Some (VInt 150)).
  simpl. unfold Z.leb. destruct (k ?= 150); reflexivity.
Qed.

Section SummarizationTools.

Variable split : string -> list string.

Lemma summarize_strs (l : list string) :
  Summarization.summarize split (VStr <$> l)
  = ret (VStr <$> (partial_summary split <$> l)).
Proof.
  induction l as [ | s l IH ]; [ reflexivity | ].
  rewrite !fmap_cons. cbn [Summarization.summarize Summarization.py_split bind].
  rewrite IH. reflexivity.
Qed.

Lemma call_split_text (state : State) (text : string) (c : Z) :
  dict_get_default state "text" (VStr "") = VStr text ->
  dict_get_default state "chunk_size" (VInt 100) = VInt c ->
  0 < c ->
  exists chunks : list string,
    call (Summarization.split_text_tool split) state
    = ReturnDict
        (setdefault
           (<["partial_summaries" := VList []]>
              (<["chunks" := VList (VStr <$> chunks)]> state))
           "summary" (VStr ""))
    /\ length chunks
       = ((length (split text) + Z.to_nat c - 1) / Z.to_nat c)%nat.
Proof.
  intros Htext Hsize Hpos.
  exists ((fun i => String.concat " " (slice_from i (Z.to_nat c) (split text)))
            <$> ((fun k => (k * Z.to_nat c)%nat)
                   <$> seq 0 ((length (split text) + Z.to_nat c - 1) / Z.to_nat c)%nat)).
  split.
  - unfold Summarization.split_text_tool; cbn [call]. cbv zeta.
    rewrite Htext, Hsize.
    cbn [Summarization.py_split py_index as_num bind]. unfold py_range_from_0.
    replace (c =? 0) with false by (symmetry; apply Z.eqb_neq; lia).
    replace (c <? 0) with false by (symmetry; apply Z.ltb_ge; lia).
    cbn [bind].
    rewrite <- (list_fmap_compose
                  (fun i => String.concat " " (slice_from i (Z.to_nat c) (split text)))
                  VStr).
    reflexivity.
  - rewrite !length_fmap, length_seq. reflexivity.
Qed.

End SummarizationTools.

Section SummarizationRun.

Variable split : string -> list string.

Local Abbreviation summary_of := (partial_summary split).

Lemma call_summarize_chunks (state : State) (chunks : list string) :
  dict_get_default state "chunks" (VList []) = VList (VStr <$> chunks) ->
  call (Summarization.summarize_chunks_tool split) state
  = ReturnDict (<["partial_summaries" := VList (VStr <$> (summary_of <$> chunks))]> state).
Proof.
  intros H. unfold Summarization.summarize_chunks_tool; cbn [call]. cbv zeta.
  rewrite H. cbn [py_iter bind]. rewrite summarize_strs. reflexivity.
Qed.

Lemma call_merge_summaries (state : State) (summaries : list string) :
  dict_get_default state "partial_summaries" (VList []) = VList (VStr <$> summaries) ->
  call Summarization.merge_summaries_tool state
  = ReturnDict (<["summary" := VStr (String.concat " " summaries)]> state).
Proof.
  intros H. unfold Summarization.merge_summaries_tool; cbn [call].
  rewrite H. unfold py_join. cbn [py_iter]. rewrite str_items_strs. reflexivity.
Qed.

Lemma call_refine_summary (state : State) (summary : string) (m : Z) :
  dict_get_default state "summary" (VStr "") = VStr summary ->
  dict_get_default state "max_length" (VInt 150) = VInt m ->
  0 <= m ->
  call (Summarization.refine_summary_tool split) state
  = ReturnDict
      (<["summary_length" := VInt (Z.of_nat (length (take (Z.to_nat m) (split summary))))]>
         (<["summary" := VStr (String.concat " " (take (Z.to_nat m) (split summary)))]>
            state)).
Proof.
  intros Hsummary Hmax Hm. unfold Summarization.refine_summary_tool; cbn [call]. cbv zeta.
  rewrite Hsummary, Hmax. cbn [Summarization.py_split bind].
  unfold compare_values. cbn [py_order as_num bind ordop_of_comparison].
  destruct (Z.compare_spec (Z.of_nat (length (split summary))) m) as [Heq | Hlt | Hgt].
  - cbn [bind]. rewrite take_ge by lia. reflexivity.
  - cbn [bind]. rewrite take_ge by lia. reflexivity.
  - cbn [bind py_index as_num]. unfold slice_to.
    replace (0 <=? m) with true by (symmetry; apply Z.leb_le; exact Hm).
    reflexivity.
Qed.

(** X24: with its default limits the summarization workflow stops after
    one refinement.  Whatever [str.split] returns, on a state whose
    [text] is a string (or absent), whose [chunk_size] is a positive
    integer (or absent) and whose [max_length] is an integer from 0 to
    150 (or absent), the run of the example graph executes its four nodes
    once each and returns, and the engine adds no warning.  There are as
    many chunks and partial summaries as the word count divided by the
    chunk size, rounded up, and the final summary consists of the first
    [max_length] words of the merged partial summaries, counted in
    [summary_length]. *)
Theorem summarization_run (graph_id : string) (state : State) (text : string) (c m : Z) :
  dict_get_default state "text" (VStr "") = VStr text ->
  dict_get_default state "chunk_size" (VInt 100) = VInt c ->
  0 < c ->
  dict_get_default state "max_length" (VInt 150) = VInt m ->
  0 <= m <= 150 ->
  exists (r : RunResult) (chunks words : list string),
    run_graph (Summarization.example_graph split graph_id) state = Some (ret r)
    /\ log r = ["split_text"; "summarize_chunks"; "merge_summaries"; "refine_summary"]
    /\ final_state r !! "_warning" = state !! "_warning"
    /\ length chunks = ((length (split text) + Z.to_nat c - 1) / Z.to_nat c)%nat
    /\ final_state r !! "chunks" = Some (VList (VStr <$> chunks))
    /\ final_state r !! "partial_summaries"
       = Some (VList (VStr <$> (summary_of <$> chunks)))
    /\ words = take (Z.to_nat m) (split (String.concat " " (summary_of <$> chunks)))
    /\ final_state r !! "summary" = Some (VStr (String.concat " " words))
    /\ final_state r !! "summary_length" = Some (VInt (Z.of_nat (length words)))
    /\ Z.of_nat (length words) <= m.
Proof.
  intros Htext Hsize Hpos Hmax Hm.
  set (graph := Summarization.example_graph split graph_id).
  assert (Hbound : max_steps graph = 20) by reflexivity.
  destruct (call_split_text split state text c Htext Hsize Hpos) as (chunks & Hcall1 & Hlen).
  set (s1 := setdefault (<["partial_summaries" := VList []]>
                           (<["chunks" := VList (VStr <$> chunks)]> state))
               "summary" (VStr "")) in *.
  set (s2 := <["partial_summaries" := VList (VStr <$> (summary_of <$> chunks))]> s1).
  set (merged := String.concat " " (summary_of <$> chunks)).
  set (s3 := <["summary" := VStr merged]> s2).
  set (words := take (Z.to_nat m) (split merged)).
  set (s4 := <["summary_length" := VInt (Z.of_nat (length words))]>
               (<["summary" := VStr (String.concat " " words)]> s3)).
  assert (Hcall2 : call (Summarization.summarize_chunks_tool split) s1 = ReturnDict s2).
  { apply call_summarize_chunks. unfold dict_get_default, s1.
    rewrite setdefault_lookup_ne by discriminate.
    rewrite lookup_insert_ne by discriminate. rewrite lookup_insert_eq. reflexivity. }
  assert (Hcall3 : call Summarization.merge_summaries_tool s2 = ReturnDict s3).
  { apply call_merge_summaries. unfold dict_get_default, s2.
    rewrite lookup_insert_eq. reflexivity. }
  assert (Hcall4 : call (Summarization.refine_summary_tool split) s3 = ReturnDict s4).
  { apply call_refine_summary; [ | | lia ].
    - unfold dict_get_default, s3. rewrite lookup_insert_eq. reflexivity.
    - unfold dict_get_default, s3, s2, s1.
      rewrite !lookup_insert_ne by discriminate.
      rewrite setdefault_lookup_ne by discriminate.
      rewrite !lookup_insert_ne by discriminate. exact Hmax. }
  assert (Hwords : Z.of_nat (length words) <= m).
  { unfold words. rewrite length_take. lia. }
  assert (Heval : _evaluate_condition s4 Summarization.short_enough = ret true).
  { rewrite (evaluate_short_enough s4 (Z.of_nat (length words)))
      by (unfold s4; apply lookup_insert_eq).
    f_equal. apply Z.leb_le. lia. }
  set (l1 := advance (entry graph state) "split_text" s1 (VStr "summarize_chunks")).
  set (l2 := advance l1 "summarize_chunks" s2 (VStr "merge_summaries")).
  set (l3 := advance l2 "merge_summaries" s3 (VStr "refine_summary")).
  set (l4 := advance l3 "refine_summary" s4 VNone).
  assert (Hloop : while_loop 20 graph (entry graph state) = Some (Exited l4)).
  { rewrite (while_loop_direct_edge graph 19 _ "split_text"
               (Summarization.split_text_tool split) s1 "summarize_chunks");
      [ | reflexivity | rewrite Hbound; cbn; lia | reflexivity | exact Hcall1
        | reflexivity ].
    fold l1.
    rewrite (while_loop_direct_edge graph 18 l1 "summarize_chunks"
               (Summarization.summarize_chunks_tool split) s2 "merge_summaries");
      [ | reflexivity | rewrite Hbound; cbn; lia | reflexivity | exact Hcall2
        | reflexivity ].
    fold l2.
    rewrite (while_loop_direct_edge graph 17 l2 "merge_summaries"
               Summarization.merge_summaries_tool s3 "refine_summary");
      [ | reflexivity | rewrite Hbound; cbn; lia | reflexivity | exact Hcall3
        | reflexivity ].
    fold l3.
    rewrite (while_loop_conditional_edge graph 16 l3 "refine_summary"
               (Summarization.refine_summary_tool split) s4
               Summarization.short_enough true VNone);
      [ | reflexivity | rewrite Hbound; cbn; lia | reflexivity | exact Hcall4
        | reflexivity | reflexivity | exact Heval | reflexivity ].
    fold l4. apply while_loop_current_none. reflexivity. }
  exists (finish graph l4), chunks, words.
  split.
  { change (run_graph graph state)
      with (result_of graph <$> while_loop 20 graph (entry graph state)).
    rewrite Hloop. reflexivity. }
  rewrite finish_early by (rewrite Hbound; cbn; lia).
  cbn [final_state log l_state l_log l4 l3 l2 l1 advance entry app].
  split; [ reflexivity | ].
  unfold s4, s3, s2, s1.
  repeat split;
    try exact Hlen; try exact Hwords;
    repeat first [ rewrite lookup_insert_eq
                 | rewrite lookup_insert_ne by discriminate
                 | rewrite setdefault_lookup_ne by discriminate ];
    reflexivity.
Qed.

End SummarizationRun.

(** An instance: a text of one word, in chunks of three words. *)
Lemma summarization_run_example :
  exists (r : RunResult) (chunks words : list string),
    run_graph (Summarization.example_graph one_word "g") short_text = Some (ret r)
    /\ log r = ["split_text"; "summarize_chunks"; "merge_summaries"; "refine_summary"]
    /\ final_state r !! "_warning" = short_text !! "_warning"
    /\ length chunks = ((length (one_word "hello") + Z.to_nat 3 - 1) / Z.to_nat 3)%nat
    /\ final_state r !! "chunks" = Some (VList (VStr <$> chunks))
    /\ final_state r !! "partial_summaries"
       = Some (VList (VStr <$> (partial_summary one_word <$> chunks)))
    /\ words = take (Z.to_nat 150)
                 (one_word (String.concat " " (partial_summary one_word <$> chunks)))
    /\ final_state r !! "summary" = Some (VStr (String.concat " " words))
    /\ final_state r !! "summary_length" = Some (VInt (Z.of_nat (length words)))
    /\ Z.of_nat (length words) <= 150.
Proof.
  apply (summarization_run one_word "g" short_text "hello" 3 150).
  - reflexivity.
  - reflexivity.
  - lia.
  - reflexivity.
  - lia.
Defined.
